(** * ws-probing-shell: a shallow embedding of [ws_probing_shell.py]

    The interactive shell [WSProbingShell] probes a WebSocket endpoint.  This
    development embeds the engine behind its commands (connection handling,
    bulk exchanges, payload combination, the two limit probes, the channel
    probe, the timing analysis and the JSON export) and the commands
    [replay], [fuzz], [search], [scan] and [quit] built on it, as Rocq
    functions over an explicit state, and proves what the code does.

    Conventions.
    - Python [str] values are [string]s, read as sequences of code points
      below 256; the helpers of [PyStr] follow the [str] methods the shell
      calls.
    - A Python [dict] whose iteration order is never observed is a [gmap];
      the ones whose order is printed ([do_analyze], [do_search]) are
      association lists in insertion order.
    - The websocket-client library, [argparse], the clock and the file system
      are outside the repository: they are the fields of the classes
      [Environment], functions of an explicit [World], and [Local], the files
      and parsers of the commands.  [string.Template], [int] and [repr] are
      written out.
    - A call that may raise returns a [result]; [try]/[except] is [try_except]. *)

From Stdlib Require Import ZArith Lia Ascii String List.
From stdpp Require Import base option list gmap strings pretty sorting.

Set Warnings "-register-all".

Local Open Scope string_scope.
Local Open Scope Z_scope.
Local Open Scope nat_scope.
Local Open Scope list_scope.

(** ** Python strings *)

Module PyStr.

(** [str.lower] on one character: the upper-case letters below 256 are
    A-Z and the Latin-1 capitals 192-222 without the sign 215. *)
Definition lower_char (c : ascii) : ascii :=
  let n := nat_of_ascii c in
  if ((65 <=? n) && (n <=? 90))
     || ((192 <=? n) && (n <=? 222) && negb (n =? 215))
  then ascii_of_nat (n + 32) else c.

(** [s.lower()] for a text of code points below 256, where [str.lower] works
    character by character.  Text beyond, whose case mapping depends on the
    context, is outside these strings. *)
Fixpoint lower (s : string) : string :=
  match s with
  | EmptyString => EmptyString
  | String c s' => String (lower_char c) (lower s')
  end.

(** [s.startswith(p)] *)
Definition startswith (s p : string) : bool := String.prefix p s.

(** [needle in hay] *)
Fixpoint contains (needle hay : string) : bool :=
  String.prefix needle hay ||
  match hay with
  | EmptyString => false
  | String _ hay' => contains needle hay'
  end.

(** [s.replace(old, new)] for a non-empty [old]: occurrences are found left
    to right and do not overlap.  [skip] counts the characters of the
    occurrence just replaced that are still to be dropped. *)
Fixpoint replace_from (old new : string) (skip : nat) (s : string) : string :=
  match s with
  | EmptyString => EmptyString
  | String c s' =>
      match skip with
      | S k => replace_from old new k s'
      | O =>
          if String.prefix old s
          then new +:+ replace_from old new (String.length old - 1) s'
          else String c (replace_from old new 0 s')
      end
  end.

Definition replace (s old new : string) : string := replace_from old new 0 s.

(** [s.rstrip(chars)], [s.lstrip(chars)] for a predicate on characters. *)
Fixpoint rstrip_by (p : ascii → bool) (s : string) : string :=
  match s with
  | EmptyString => EmptyString
  | String c s' =>
      match rstrip_by p s' with
      | EmptyString => if p c then EmptyString else String c EmptyString
      | r => String c r
      end
  end.

Fixpoint lstrip_by (p : ascii → bool) (s : string) : string :=
  match s with
  | EmptyString => EmptyString
  | String c s' => if p c then lstrip_by p s' else s
  end.

Definition is_newline (c : ascii) : bool := Ascii.eqb c "010"%char.

(** [s.rstrip('\n')] *)
Definition rstrip_newline (s : string) : string := rstrip_by is_newline s.

(** The characters below 256 that [str.isspace] accepts. *)
Definition is_whitespace (c : ascii) : bool :=
  let n := nat_of_ascii c in
  ((9 <=? n) && (n <=? 13)) || ((28 <=? n) && (n <=? 32))
  || (n =? 133) || (n =? 160).

(** [s.strip()] *)
Definition strip (s : string) : string :=
  rstrip_by is_whitespace (lstrip_by is_whitespace s).

(** [s.split(" ")]: an explicit separator keeps the empty fields. *)
Fixpoint split_char (sep : ascii) (s : string) : list string :=
  match s with
  | EmptyString => [EmptyString]
  | String c s' =>
      if Ascii.eqb c sep then EmptyString :: split_char sep s'
      else match split_char sep s' with
           | [] => [String c EmptyString]
           | w :: ws => String c w :: ws
           end
  end.

(** ["T" * n] *)
Fixpoint repeat_char (c : ascii) (n : nat) : string :=
  match n with
  | O => EmptyString
  | S n' => String c (repeat_char c n')
  end.

(** [str(n)] and ["%s" % n] for a non-negative integer. *)
Definition str_of_nat (n : nat) : string := pretty n.

End PyStr.

(** ** Exceptions *)

(** The exception classes the shell's handlers tell apart, all of them
    subclasses of [Exception].  [WebSocketConnectionClosedException] is a
    [WebSocketException]; [IOError] is [OSError]; [OtherException] stands for
    every other subclass ([AttributeError], [IndexError], [ValueError], ...). *)
Inductive exn_class :=
| WebSocketConnectionClosedException
| WebSocketException
| IOError
| OtherException.

(** [exn_str e] is [str(e)]. *)
Record exn := Exn { exn_kind : exn_class; exn_str : string }.

Definition is_WebSocketException (e : exn) : bool :=
  match exn_kind e with
  | WebSocketConnectionClosedException | WebSocketException => true
  | _ => false
  end.

Definition is_WebSocketConnectionClosedException (e : exn) : bool :=
  match exn_kind e with
  | WebSocketConnectionClosedException => true
  | _ => false
  end.

Definition is_IOError (e : exn) : bool :=
  match exn_kind e with
  | IOError => true
  | _ => false
  end.

(** A library call returns a value or raises an [Exception]. *)
Inductive result (A : Type) :=
| Ok (a : A)
| Raise (e : exn).
Arguments Ok {A} a.
Arguments Raise {A} e.

(** A shell computation may also leave through [SystemExit], which [argparse]
    raises on a command line it rejects: a [BaseException] that no
    [except Exception] catches. *)
Inductive outcome (A : Type) :=
| Return (a : A)
| Raised (e : exn)
| SystemExit.
Arguments Return {A} a.
Arguments Raised {A} e.
Arguments SystemExit {A}.

Definition outcome_of_result {A} (r : result A) : outcome A :=
  match r with
  | Ok a => Return a
  | Raise e => Raised e
  end.

(** ** Payload combinator: [__build_fuzzing_dicts] *)

Abbreviation binding := (gmap string string).

Definition payload_placeholder_key (current_position : nat) : string :=
  "payload_" +:+ PyStr.str_of_nat current_position.

(** [readlines path] is [open(path).readlines()]: the lines of the file, each
    still carrying its newline, or the error of [open]. *)
Fixpoint build_fuzzing_dicts (readlines : string → result (list string))
    (payload_files_list : list string) (payload_combinations : list binding)
    (current_position : nat) : result (list binding) :=
  match payload_files_list with
  | current_payload_file :: payload_files_list' =>
      match readlines current_payload_file with
      | Raise e => Raise e
      | Ok payloads =>
          let key := payload_placeholder_key current_position in
          match payload_combinations with
          | [] =>
              build_fuzzing_dicts readlines payload_files_list'
                ((λ payload, {[ key := PyStr.rstrip_newline payload ]}) <$> payloads)
                (current_position + 1)
          | _ =>
              let new_payload_combinations :=
                payload_combination ← payload_combinations;
                (λ payload : string,
                   payload_combination ∪ {[ key := PyStr.rstrip_newline payload ]})
                  <$> payloads in
              build_fuzzing_dicts readlines payload_files_list'
                new_payload_combinations (current_position + 1)
          end
      end
  | [] => Ok payload_combinations
  end.

(** The call [do_fuzz] makes. *)
Definition combine (readlines : string → result (list string))
    (payload_files : list string) : result (list binding) :=
  build_fuzzing_dicts readlines payload_files [] 1.

(** The product as the specification words it: the first file seeds one binding
    per line, each later file multiplies the current bindings by its lines
    (for each existing binding, the new lines in file order); no file gives
    the single empty binding. *)
Fixpoint product_expand (position : nat) (bindings : list binding)
    (files : list (list string)) : list binding :=
  match files with
  | [] => bindings
  | lines :: files' =>
      product_expand (position + 1)
        (b ← bindings;
         (λ line : string, <[ payload_placeholder_key position := line ]> b) <$> lines)
        files'
  end.

Definition cartesian_bindings (files : list (list string)) : list binding :=
  product_expand 1 [∅] files.


(** ** The environment of the shell *)

(** What [parser.parse_args] returns for the four options of [connect]. *)
Record namespace := Namespace {
  endpoint : option string;
  origin : option string;
  extra_http_headers : option string;
  subprotocols : option string;
}.

(** The keyword arguments of [create_connection]. *)
Record connection_request := ConnectionRequest {
  url : option string;
  timeout : Z;
  header : gmap string string;
  request_origin : option string;
  request_subprotocols : list string;
}.

(** websocket-client, [time.clock] and [argparse].  Every transport call reads
    and changes the state of the outside world.  [recv] returns text whenever
    it returns.  [round2_elapsed start stop] is [round(stop - start, 2)],
    counted in hundredths of a second. *)
Class Environment := {
  World : Type;
  connection : Type;
  Time : Type;
  create_connection : connection_request → World → World * result connection;
  ws_send : connection → string → World → World * result unit;
  ws_recv : connection → World → World * result string;
  ws_close : connection → World → World * result unit;
  time_clock : World → World * Time;
  round2_elapsed : Time → Time → Z;
  parse_args : list string → outcome namespace;
}.

(** One entry of [self.__exchanges]; [RESPONSE_TIME] is in hundredths of a
    second (the value is rounded to two decimals when it is stored). *)
Record Exchange := {
  REQUEST : string;
  RESPONSE : string;
  IS_ERROR : bool;
  RESPONSE_TIME : Z;
  REQUEST_LENGTH : nat;
  RESPONSE_LENGTH : nat;
}.

(** What the shell prints, without the colours. *)
Inductive message :=
| MissingParameters
| Connecting
| Connected
| ConnectionStateNotConfirmed
| ConnectionFailed (error : string)
| CheckingConnection
| ConnectionAvailable
| ConnectionClosed
| CloseConnectionFailed (error : string)
| SendingMessages
| ExchangeSuccessful (idx : nat)
| ExchangeError (idx : nat) (error : string)
| MessagesSent (total errors success : nat)
| ProbingLength
| LengthReached (idx : Z)
| MaxLengthIdentified (max_length : Z)
| MaxLengthNotIdentified (max_probing_limit : Z)
| ProbingFailed (error : string)
| InitialConnectionRequired
| ProbingConnections
| ConnectionsReached (idx : Z)
| MaxConnectionsIdentified (max_connection : Z)
| MaxConnectionsNotIdentified (max_probing_limit : Z)
| ReleasingConnections
| ConnectionsReleased (released not_released : nat)
| TestingProtocol (protocol_to_test msg_prefix : string)
| ProtocolSupported (msg_prefix protocol_to_test : string)
| ProtocolNoResponse (msg_prefix protocol_to_test : string)
| ProtocolNotSupported (msg_prefix protocol_to_test error : string).

(** ** State and exceptions as a monad *)

Definition M (S A : Type) : Type := S → S * outcome A.

Definition ret {S A} (a : A) : M S A := λ s, (s, Return a).

Definition bind {S A B} (c : M S A) (k : A → M S B) : M S B :=
  λ s, match c s with
       | (s', Return a) => k a s'
       | (s', Raised e) => (s', Raised e)
       | (s', SystemExit) => (s', SystemExit)
       end.

Definition raise {S A} (e : exn) : M S A := λ s, (s, Raised e).

(** [try: body except <classes> as e: handler e] *)
Definition try_except {S A} (body : M S A) (catches : exn → bool)
    (handler : exn → M S A) : M S A :=
  λ s, match body s with
       | (s', Raised e) => if catches e then handler e s' else (s', Raised e)
       | r => r
       end.

Definition Exception (e : exn) : bool := true.

Definition lift_outcome {S A} (o : outcome A) : M S A := λ s, (s, o).

(** The state a computation leaves. *)
Definition state_after {S A} (c : M S A) (s : S) : S := (c s).1.

Notation "x <- c ;; k" := (bind c (λ x, k))
  (at level 100, c at next level, right associativity).
Notation "c ;; k" := (bind c (λ _, k))
  (at level 100, right associativity).

(** A [str] is never [None]: the test [recv() is not None] always holds. *)
Definition is_not_None (response : string) : bool := true.

Definition section_sign : ascii := "167"%char.
Definition equals_sign : ascii := "="%char.
Definition space : ascii := " "%char.

(** The loop that fills [extra_headers]; [parts[1]] raises [IndexError] on a
    pair without [=]. *)
Fixpoint build_extra_headers (pairs : list string)
    (extra_headers : gmap string string) : result (gmap string string) :=
  match pairs with
  | [] => Ok extra_headers
  | pair_ :: pairs' =>
      match PyStr.split_char equals_sign pair_ with
      | name :: value :: _ =>
          build_extra_headers pairs' (<[ name := value ]> extra_headers)
      | _ => Raise (Exn OtherException "list index out of range")
      end
  end.

(** Headers map, subprotocol list and the call's arguments, as [do_connect]
    and the two probes build them from the parsed line. *)
Definition build_request (args : namespace) : result connection_request :=
  match
    match extra_http_headers args with
    | Some e => build_extra_headers (PyStr.split_char section_sign e) ∅
    | None => Ok ∅
    end
  with
  | Raise e => Raise e
  | Ok extra_headers =>
      let subprotocols_set :=
        match subprotocols args with
        | Some p => PyStr.split_char section_sign p
        | None => []
        end in
      Ok {| url := endpoint args; timeout := 10; header := extra_headers;
            request_origin := origin args;
            request_subprotocols := subprotocols_set |}
  end.

(** [len(range(start, stop, step))] for a positive step. *)
Definition range_length (start stop step : Z) : nat :=
  Z.to_nat ((stop - start + step - 1) / step).

(** Lines 491-497 of [do_probe_connection_channels_supported]. *)
Definition protocol_to_test (endpoint : string) : string :=
  if PyStr.startswith (PyStr.lower endpoint) "wss://" then "ws://" else "wss://".

Definition msg_prefix (endpoint : string) : string :=
  if PyStr.startswith (PyStr.lower endpoint) "wss://" then "Insecure" else "Secure".

Definition target_endpoint (endpoint : string) : string :=
  let target_endpoint := PyStr.lower endpoint in
  protocol_to_test endpoint
  +:+ PyStr.replace (PyStr.replace target_endpoint "wss://" "") "ws://" "".

(** ** The shell *)

Section Engine.
Context `{Env : Environment}.

(** The transport calls made so far, kept to state what was attempted. *)
Inductive call :=
| CallCreate (request : connection_request)
| CallSend (c : connection) (msg : string)
| CallRecv (c : connection)
| CallClose (c : connection).

(** The three attributes of [WSProbingShell]. *)
Record Shell := MkShell {
  client : option connection;
  exchanges : gmap nat Exchange;
  client_connection_parameters : option string;
}.

Record Sys := MkSys {
  world : World;
  shell : Shell;
  output : list message;
  calls : list call;
}.

Definition library {A} (ev : call) (f : World → World * result A) : M Sys A :=
  λ s, let '(w, r) := f (world s) in
       ({| world := w; shell := shell s; output := output s;
           calls := calls s ++ [ev] |}, outcome_of_result r).

Definition print (m : message) : M Sys unit :=
  λ s, ({| world := world s; shell := shell s; output := output s ++ [m];
           calls := calls s |}, Return tt).

Definition get {A} (f : Shell → A) : M Sys A := λ s, (s, Return (f (shell s))).

Definition put (f : Shell → Shell) : M Sys unit :=
  λ s, ({| world := world s; shell := f (shell s); output := output s;
           calls := calls s |}, Return tt).

Definition set_client (c : option connection) (sh : Shell) : Shell :=
  {| client := c; exchanges := exchanges sh;
     client_connection_parameters := client_connection_parameters sh |}.

Definition set_client_connection_parameters (p : option string) (sh : Shell)
  : Shell :=
  {| client := client sh; exchanges := exchanges sh;
     client_connection_parameters := p |}.

Definition set_exchanges (ex : gmap nat Exchange) (sh : Shell) : Shell :=
  {| client := client sh; exchanges := ex;
     client_connection_parameters := client_connection_parameters sh |}.

Definition clock : M Sys Time :=
  λ s, let '(w, t) := time_clock (world s) in
       ({| world := w; shell := shell s; output := output s;
           calls := calls s |}, Return t).

(** [self.__client.send(msg)], [self.__client.recv()]: with no client the
    attribute lookup on [None] raises [AttributeError]. *)
Definition client_send (msg : string) : M Sys unit :=
  cl <- get client;;
  match cl with
  | Some c => library (CallSend c msg) (ws_send c msg)
  | None => raise (Exn OtherException "'NoneType' object has no attribute 'send'")
  end.

Definition client_recv : M Sys string :=
  cl <- get client;;
  match cl with
  | Some c => library (CallRecv c) (ws_recv c)
  | None => raise (Exn OtherException "'NoneType' object has no attribute 'recv'")
  end.

(** [do_connect] *)
Definition do_connect (line : option string) : M Sys unit :=
  try_except
    (match line with
     | None => print MissingParameters
     | Some l =>
         if String.eqb (PyStr.strip l) "" || negb (PyStr.contains "-t" l)
         then print MissingParameters
         else
           args <- lift_outcome (parse_args (PyStr.split_char space l));;
           request <- lift_outcome (outcome_of_result (build_request args));;
           print Connecting;;
           c <- library (CallCreate request) (create_connection request);;
           put (set_client (Some c));;
           client_send "hello";;
           response <- client_recv;;
           if is_not_None response
           then put (set_client_connection_parameters line);; print Connected
           else print ConnectionStateNotConfirmed
     end)
    Exception
    (λ error, print (ConnectionFailed (exn_str error))).

(** [__check_connection_availability] *)
Definition check_connection_availability : M Sys unit :=
  print CheckingConnection;;
  cl <- get client;;
  match cl with
  | None =>
      parameters <- get client_connection_parameters;;
      do_connect parameters
  | Some _ =>
      try_except
        (client_send "TestAliveState";;
         response <- client_recv;;
         if is_not_None response then print ConnectionAvailable else ret tt)
        is_WebSocketConnectionClosedException
        (λ wse, parameters <- get client_connection_parameters;;
                do_connect parameters)
  end.

(** [do_disconnect] *)
Definition do_disconnect : M Sys unit :=
  cl <- get client;;
  match cl with
  | Some c =>
      try_except
        (library (CallClose c) (ws_close c);;
         put (set_client None);;
         print ConnectionClosed)
        Exception
        (λ error, print (CloseConnectionFailed (exn_str error)))
  | None => ret tt
  end.

(** The statements of the [try] block of [__send_messages] that can raise:
    the availability check, the send and the receive. *)
Definition exchange_attempt (msg : string) : M Sys string :=
  check_connection_availability;;
  client_send msg;;
  client_recv.

(** The body of the [for] loop of [__send_messages]: one message, stored
    under [idx]; the result is the new [error_count].  The entry is written
    once here, with the three fields of the [try] or [except] branch and the
    three added after it. *)
Definition send_message (msg : string) (idx error_count : nat) : M Sys nat :=
  start <- clock;;
  attempt <-
    try_except
      (response <- exchange_attempt msg;;
       print (ExchangeSuccessful idx);;
       ret (response, false, error_count))
      Exception
      (λ err, print (ExchangeError idx (exn_str err));;
              ret (exn_str err, true, error_count + 1));;
  let '(response, is_error, error_count) := attempt in
  stop <- clock;;
  ex <- get exchanges;;
  put (set_exchanges
         (<[ idx := {| REQUEST := msg; RESPONSE := response;
                       IS_ERROR := is_error;
                       RESPONSE_TIME := round2_elapsed start stop;
                       REQUEST_LENGTH := String.length msg;
                       RESPONSE_LENGTH := String.length response |} ]> ex));;
  ret error_count.

Fixpoint send_messages_loop (messages_list : list string)
    (idx error_count : nat) : M Sys nat :=
  match messages_list with
  | [] => ret error_count
  | msg :: messages_list' =>
      error_count <- send_message msg idx error_count;;
      send_messages_loop messages_list' (idx + 1) error_count
  end.

(** [__send_messages] *)
Definition send_messages (messages_list : list string) : M Sys unit :=
  let repetition_count := length messages_list in
  print SendingMessages;;
  error_count <- send_messages_loop messages_list 0 0;;
  print (MessagesSent repetition_count error_count
           (repetition_count - error_count)).

Definition WebSocketException_or_IOError (e : exn) : bool :=
  is_WebSocketException e || is_IOError e.

(** The [for idx in range(10, max_probing_limit, 10)] loop of
    [do_probe_request_length_limit]; [fuel] is the number of values the
    range still holds.  The result is [max_length]: [idx - 10] after the
    [break], the initial 0 when the range is used up. *)
Fixpoint length_probe_loop (fuel : nat) (idx : Z) : M Sys Z :=
  match fuel with
  | O => ret 0%Z
  | S fuel' =>
      broke <-
        try_except
          (let msg := PyStr.repeat_char "T" (Z.to_nat idx) in
           (if (idx mod 1000 =? 0)%Z then print (LengthReached idx) else ret tt);;
           client_send msg;;
           ret false)
          WebSocketException_or_IOError
          (λ _, ret true);;
      if broke : bool then ret (idx - 10)%Z
      else length_probe_loop fuel' (idx + 10)%Z
  end.

(** [do_probe_request_length_limit] *)
Definition do_probe_request_length_limit : M Sys unit :=
  try_except
    (check_connection_availability;;
     print ProbingLength;;
     let max_probing_limit := 1000000000%Z in
     max_length <-
       length_probe_loop (range_length 10 max_probing_limit 10) 10%Z;;
     if (0 <? max_length)%Z
     then print (MaxLengthIdentified max_length)
     else print (MaxLengthNotIdentified max_probing_limit))
    Exception
    (λ error, print (ProbingFailed (exn_str error))).

(** The [for idx in range(1, max_probing_limit)] loop of
    [do_probe_request_connection_limit]: the result is [max_connection] and
    the connections held. *)
Fixpoint connection_probe_loop (request : connection_request) (fuel : nat)
    (idx : Z) (connections_references_list : list connection)
  : M Sys (Z * list connection) :=
  match fuel with
  | O => ret (0%Z, connections_references_list)
  | S fuel' =>
      opened <-
        try_except
          ((if (idx mod 10 =? 0)%Z then print (ConnectionsReached idx) else ret tt);;
           c <- library (CallCreate request) (create_connection request);;
           ret (Some c))
          WebSocketException_or_IOError
          (λ _, ret None);;
      match opened with
      | Some c =>
          connection_probe_loop request fuel' (idx + 1)%Z
            (connections_references_list ++ [c])
      | None => ret ((idx - 1)%Z, connections_references_list)
      end
  end.

(** The release loop: only [IOError] is counted, anything else raised by
    [close] leaves the loop. *)
Fixpoint release_loop (connections_references_list : list connection)
    (connection_not_released_count : nat) : M Sys nat :=
  match connections_references_list with
  | [] => ret connection_not_released_count
  | c :: connections_references_list' =>
      connection_not_released_count <-
        try_except
          (library (CallClose c) (ws_close c);;
           ret connection_not_released_count)
          is_IOError
          (λ _, ret (connection_not_released_count + 1));;
      release_loop connections_references_list' connection_not_released_count
  end.

(** [do_probe_request_connection_limit] *)
Definition do_probe_request_connection_limit : M Sys unit :=
  try_except
    (parameters <- get client_connection_parameters;;
     match parameters with
     | None => print InitialConnectionRequired
     | Some p =>
         args <- lift_outcome (parse_args (PyStr.split_char space p));;
         request <- lift_outcome (outcome_of_result (build_request args));;
         print ProbingConnections;;
         let max_probing_limit := 1000000000%Z in
         grown <-
           connection_probe_loop request (range_length 1 max_probing_limit 1)
             1%Z [];;
         let '(max_connection, connections_references_list) := grown in
         (if (0 <? max_connection)%Z
          then print (MaxConnectionsIdentified max_connection)
          else print (MaxConnectionsNotIdentified max_probing_limit));;
         print ReleasingConnections;;
         connection_not_released_count <-
           release_loop connections_references_list 0;;
         print (ConnectionsReleased
                  (length connections_references_list
                   - connection_not_released_count)
                  connection_not_released_count)
     end)
    Exception
    (λ error, print (ProbingFailed (exn_str error))).

(** [do_probe_connection_channels_supported] *)
Definition do_probe_connection_channels_supported : M Sys unit :=
  try_except
    (parameters <- get client_connection_parameters;;
     match parameters with
     | None => print InitialConnectionRequired
     | Some p =>
         args <- lift_outcome (parse_args (PyStr.split_char space p));;
         request <- lift_outcome (outcome_of_result (build_request args));;
         match endpoint args with
         | None =>
             raise (Exn OtherException
                      "'NoneType' object has no attribute 'lower'")
         | Some e =>
             let probe :=
               {| url := Some (target_endpoint e); timeout := 10;
                  header := header request;
                  request_origin := request_origin request;
                  request_subprotocols := request_subprotocols request |} in
             print (TestingProtocol (protocol_to_test e)
                      (PyStr.lower (msg_prefix e)));;
             try_except
               (test_connection <-
                  library (CallCreate probe) (create_connection probe);;
                library (CallSend test_connection "hello")
                  (ws_send test_connection "hello");;
                response <-
                  library (CallRecv test_connection) (ws_recv test_connection);;
                if is_not_None response
                then print (ProtocolSupported (msg_prefix e) (protocol_to_test e))
                else print (ProtocolNoResponse (msg_prefix e) (protocol_to_test e)))
               WebSocketException_or_IOError
               (λ err, print (ProtocolNotSupported (msg_prefix e)
                                (protocol_to_test e) (exn_str err)))
         end
     end)
    Exception
    (λ error, print (ProbingFailed (exn_str error))).

End Engine.

Arguments Sys {Env}.
Arguments Shell {Env}.
Arguments call {Env}.

(** *** What the properties speak about *)

Section Observations.
Context `{Env : Environment}.

(** How many times the message [m] was handed to [send]. *)
Fixpoint sends_of (m : string) (cs : list call) : nat :=
  match cs with
  | [] => 0
  | CallSend _ m' :: cs' => (if String.eqb m m' then 1 else 0) + sends_of m cs'
  | _ :: cs' => sends_of m cs'
  end.

(** The connections [close] was called on, in call order. *)
Fixpoint closes_of (cs : list call) : list connection :=
  match cs with
  | [] => []
  | CallClose c :: cs' => c :: closes_of cs'
  | _ :: cs' => closes_of cs'
  end.

(** The saved parameters, if any, are a line [argparse] accepts: [do_connect]
    saves a line only after it has parsed it. *)
Definition saved_parameters_parse (sh : Shell) : Prop :=
  ∀ l, client_connection_parameters sh = Some l →
       ∃ args, parse_args (PyStr.split_char space l) = Return args.

(** The entry [e] is the record of the one attempt that ended in [o]. *)
Definition records (e : Exchange) (msg : string) (o : outcome string) : Prop :=
  REQUEST e = msg
  ∧ REQUEST_LENGTH e = String.length msg
  ∧ RESPONSE_LENGTH e = String.length (RESPONSE e)
  ∧ match o with
    | Return response => IS_ERROR e = false ∧ RESPONSE e = response
    | Raised err => IS_ERROR e = true ∧ RESPONSE e = exn_str err
    | SystemExit => False
    end.

(** The number of entries flagged as errors among the indices below [n]. *)
Definition is_error_at (ex : gmap nat Exchange) (idx : nat) : bool :=
  match ex !! idx with
  | Some e => IS_ERROR e
  | None => false
  end.

Definition error_entries (ex : gmap nat Exchange) (n : nat) : nat :=
  length (List.filter (is_error_at ex) (seq 0 n)).

(** The number of times [m] occurs in a list of messages. *)
Definition occurrences (m : string) (msgs : list string) : nat :=
  length (List.filter (String.eqb m) msgs).

(** What the transport does to a connect: the handshake fails, the handshake
    succeeds and the send or the receive of the validation fails, or all
    three calls succeed. *)
Inductive connect_result :=
| Handshake_failed (e : exn)
| Liveness_failed (c : connection) (e : exn)
| Validated (c : connection).

Definition connect_transport (request : connection_request) (w : World)
  : connect_result :=
  match create_connection request w with
  | (_, Raise e) => Handshake_failed e
  | (w1, Ok c) =>
      match ws_send c "hello" w1 with
      | (_, Raise e) => Liveness_failed c e
      | (w2, Ok _) =>
          match ws_recv c w2 with
          | (_, Raise e) => Liveness_failed c e
          | (_, Ok _) => Validated c
          end
      end
  end.

(** What the transport does to a message handed to it on the state [s] the
    availability check left: there is no client to send on, [send] raises,
    [recv] raises, or the endpoint answers. *)
Inductive exchange_result :=
| No_client (e : exn)
| Send_failed (c : connection) (e : exn)
| Receive_failed (c : connection) (e : exn)
| Answered (c : connection) (response : string).

Definition exchange_transport (msg : string) (s : Sys) : exchange_result :=
  match client (shell s) with
  | None => No_client (Exn OtherException "'NoneType' object has no attribute 'send'")
  | Some c =>
      match ws_send c msg (world s) with
      | (_, Raise e) => Send_failed c e
      | (w1, Ok _) =>
          match ws_recv c w1 with
          | (_, Raise e) => Receive_failed c e
          | (_, Ok response) => Answered c response
          end
      end
  end.

(** The transport calls of that exchange. *)
Definition exchange_calls (msg : string) (r : exchange_result) : list call :=
  match r with
  | No_client _ => []
  | Send_failed c _ => [CallSend c msg]
  | Receive_failed c _ | Answered c _ => [CallSend c msg; CallRecv c]
  end.

(** The state of a bulk run of [msgs] started on [s] when the turn of the
    message [idx] comes, which is the state the message before it left. *)
Definition turn (msgs : list string) (idx : nat) (s : Sys) : Sys :=
  state_after (send_messages_loop (take idx msgs) 0 0)
    (state_after (print SendingMessages) s).

(** The test on the line that [do_connect] makes before it parses it. *)
Definition missing_parameters (l : string) : bool :=
  String.eqb (PyStr.strip l) "" || negb (PyStr.contains "-t" l).

(** What the connection manager leaves alone: the store, the parsing of the
    saved parameters, and the number of times any message other than the two
    liveness messages was sent. *)
Definition keeps (s s' : Sys) : Prop :=
  exchanges (shell s') = exchanges (shell s)
  ∧ (saved_parameters_parse (shell s) → saved_parameters_parse (shell s'))
  ∧ (∀ m, m ≠ "hello" → m ≠ "TestAliveState" →
          sends_of m (calls s') = sends_of m (calls s)).

(** The filler message of the length probe. *)
Definition filler (idx : Z) : string := PyStr.repeat_char "T" (Z.to_nat idx).

(** [sends_accepted c w idx k] is the world after the fillers of sizes [idx],
    [idx + 10], ... ([k] of them) were sent on [c] from the world [w], when
    the endpoint accepted them all. *)
Fixpoint sends_accepted (c : connection) (w : World) (idx : Z) (k : nat)
  : option World :=
  match k with
  | O => Some w
  | S k' =>
      match ws_send c (filler idx) w with
      | (w', Ok _) => sends_accepted c w' (idx + 10)%Z k'
      | (_, Raise _) => None
      end
  end.

(** [opens_accepted request w k] is the world and the connections after [k]
    open calls that all succeeded. *)
Fixpoint opens_accepted (request : connection_request) (w : World) (k : nat)
  : option (World * list connection) :=
  match k with
  | O => Some (w, [])
  | S k' =>
      match create_connection request w with
      | (w', Ok c) =>
          match opens_accepted request w' k' with
          | Some (w'', cs) => Some (w'', c :: cs)
          | None => None
          end
      | (_, Raise _) => None
      end
  end.

(** Closing the connections in order when [close] succeeds or raises
    [IOError] on each: the world after, and the number of [IOError]s. *)
Fixpoint releases (cs : list connection) (w : World) : option (World * nat) :=
  match cs with
  | [] => Some (w, 0)
  | c :: cs' =>
      match ws_close c w with
      | (w', Ok _) => releases cs' w'
      | (w', Raise e) =>
          if is_IOError e
          then match releases cs' w' with
               | Some (w'', n) => Some (w'', S n)
               | None => None
               end
          else None
      end
  end.

End Observations.

(** ** Timing aggregation: the first analysis of [do_analyze] *)

(** [int(x)] for a time [x] kept in hundredths: truncation towards zero. *)
Definition int_of_time (hundredths : Z) : Z := (hundredths ÷ 100)%Z.

(** [if k not in d: d[k] = ""] followed by [d[k] += s], on a dictionary kept
    in insertion order. *)
Fixpoint gather (k : Z) (s : string) (d : list (Z * string)) : list (Z * string) :=
  match d with
  | [] => [(k, "" +:+ s)]
  | (k', v) :: d' =>
      if (k =? k')%Z then (k', v +:+ s) :: d' else (k', v) :: gather k s d'
  end.

(** The loop [for idx in range(0, total)]; [exchanges[idx]] raises [KeyError]
    on a missing index. *)
Fixpoint gather_response_times (exchanges : gmap nat Exchange)
    (indices : list nat) (exchanges_gathered : list (Z * string))
  : result (list (Z * string)) :=
  match indices with
  | [] => Ok exchanges_gathered
  | idx :: indices' =>
      match exchanges !! idx with
      | None => Raise (Exn OtherException (PyStr.str_of_nat idx))
      | Some exchange =>
          let response_time := int_of_time (RESPONSE_TIME exchange) in
          gather_response_times exchanges indices'
            (gather response_time (" " +:+ PyStr.str_of_nat idx) exchanges_gathered)
      end
  end.

(** The rows of the first table [do_analyze] prints, for a non-empty store:
    [OrderedDict(exchanges_gathered)] iterates in insertion order. *)
Definition do_analyze_response_times (exchanges : gmap nat Exchange)
  : result (list (Z * string)) :=
  let total := size exchanges in
  match gather_response_times exchanges (seq 0 total) [] with
  | Raise e => Raise e
  | Ok exchanges_gathered =>
      Ok ((λ row : Z * string, (row.1, PyStr.strip row.2)) <$> exchanges_gathered)
  end.

(** ** JSON export: [__store_exchanges_to_file] *)

(** The Python values the store is made of, and JSON documents.  The text of
    a document (indentation, escapes, digits) is the [json] module's; the
    module is taken at its conversion table between values and documents. *)
Inductive pykey :=
| KInt (n : Z)
| KStr (s : string).

Inductive pyvalue :=
| PyBool (b : bool)
| PyInt (n : Z)
| PyFloat (hundredths : Z)
| PyStr (s : string)
| PyDict (items : list (pykey * pyvalue)).

Inductive json :=
| JBool (b : bool)
| JInt (n : Z)
| JReal (hundredths : Z)
| JString (s : string)
| JObject (members : list (string * json)).

(** The order [sorted(dct.items())] uses on keys of one kind. *)
Definition pykey_leb (k1 k2 : pykey) : bool :=
  match k1, k2 with
  | KInt a, KInt b => (a <=? b)%Z
  | KStr a, KStr b => String.leb a b
  | KInt _, KStr _ => true
  | KStr _, KInt _ => false
  end.

Definition item_le {A} (i1 i2 : pykey * A) : Prop := pykey_leb i1.1 i2.1 = true.

#[global] Instance item_le_dec {A} (i1 i2 : pykey * A) : Decision (item_le i1 i2).
Proof. unfold item_le. apply _. Defined.

(** A key becomes a JSON member name: an [int] key is written as [str(key)]. *)
Definition member_name (k : pykey) : string :=
  match k with
  | KInt n => pretty n
  | KStr s => s
  end.

(** [json.dumps(v, sort_keys=True)] *)
Fixpoint json_dumps (v : pyvalue) : json :=
  match v with
  | PyBool b => JBool b
  | PyInt n => JInt n
  | PyFloat h => JReal h
  | PyStr s => JString s
  | PyDict items =>
      JObject
        ((λ i : pykey * json, (member_name i.1, i.2))
           <$> merge_sort item_le
                 ((λ i : pykey * pyvalue, (i.1, json_dumps i.2)) <$> items))
  end.

(** [json.loads]: every member name comes back as a [str] key. *)
Fixpoint json_loads (j : json) : pyvalue :=
  match j with
  | JBool b => PyBool b
  | JInt n => PyInt n
  | JReal h => PyFloat h
  | JString s => PyStr s
  | JObject members =>
      PyDict ((λ m : string * json, (KStr m.1, json_loads m.2)) <$> members)
  end.

Definition pykey_eqb (k1 k2 : pykey) : bool :=
  match k1, k2 with
  | KInt a, KInt b => (a =? b)%Z
  | KStr a, KStr b => String.eqb a b
  | _, _ => false
  end.

(** [d[k]] on a dictionary value, [None] for a missing key or a non-dict. *)
Fixpoint items_lookup (k : pykey) (items : list (pykey * pyvalue)) : option pyvalue :=
  match items with
  | [] => None
  | (k', v) :: items' => if pykey_eqb k k' then Some v else items_lookup k items'
  end.

Definition py_lookup (k : pykey) (v : pyvalue) : option pyvalue :=
  match v with
  | PyDict items => items_lookup k items
  | _ => None
  end.

(** An entry of the store as the dictionary [__send_messages] builds. *)
Definition exchange_value (e : Exchange) : pyvalue :=
  PyDict [ (KStr "REQUEST", PyStr (REQUEST e));
           (KStr "RESPONSE", PyStr (RESPONSE e));
           (KStr "IS_ERROR", PyBool (IS_ERROR e));
           (KStr "RESPONSE_TIME", PyFloat (RESPONSE_TIME e));
           (KStr "REQUEST_LENGTH", PyInt (Z.of_nat (REQUEST_LENGTH e)));
           (KStr "RESPONSE_LENGTH", PyInt (Z.of_nat (RESPONSE_LENGTH e))) ].

(** [self.__exchanges] as a Python value: [int] keys. *)
Definition exchanges_value (exchanges : gmap nat Exchange) : pyvalue :=
  PyDict ((λ kv : nat * Exchange, (KInt (Z.of_nat kv.1), exchange_value kv.2))
            <$> map_to_list exchanges).

(** The document [__store_exchanges_to_file] writes. *)
Definition store_exchanges_to_file (exchanges : gmap nat Exchange) : json :=
  json_dumps (exchanges_value exchanges).

(** *** More of the analysis and the export *)

(** The index a member of the export stands for. *)
Definition index_of_key (k : pykey) : nat :=
  match k with
  | KInt n => Z.to_nat n
  | KStr _ => 0
  end.

(** The dictionary [found] of [do_search]: a word, the text of the indices. *)
Definition found_value (found : list (string * string)) : pyvalue :=
  PyDict ((λ kv : string * string, (KStr kv.1, PyStr kv.2)) <$> found).

(** The document [__store_data_to_file] writes. *)
Definition store_data_to_file (data : pyvalue) : json := json_dumps data.

(** *** [int], [repr] and the ports of [do_scan] *)

(** [int(s)] for a text: white space around, a sign, then decimal digits with
    single underscores between them.  The white space [int] skips is not that
    of [str.strip]: the separators 28 to 31 are not part of it.  [None] is
    [ValueError].  The number of digits is not bounded here; an interpreter
    that bounds it (4300 digits by default since Python 3.11) raises
    [ValueError] beyond its bound. *)
Definition is_digit (c : ascii) : bool :=
  let n := nat_of_ascii c in (48 <=? n) && (n <=? 57).

Definition digit_value (c : ascii) : Z := Z.of_nat (nat_of_ascii c - 48).

Definition is_int_space (c : ascii) : bool :=
  let n := nat_of_ascii c in
  ((9 <=? n) && (n <=? 13)) || (n =? 32) || (n =? 133) || (n =? 160).

Fixpoint int_digits (s : string) (acc : Z) (after_digit : bool) : option Z :=
  match s with
  | EmptyString => if after_digit then Some acc else None
  | String c s' =>
      if is_digit c then int_digits s' (10 * acc + digit_value c) true
      else if Ascii.eqb c "_"%char && after_digit then int_digits s' acc false
      else None
  end.

Definition py_int (s : string) : option Z :=
  let t := PyStr.rstrip_by is_int_space (PyStr.lstrip_by is_int_space s) in
  match t with
  | String "-" r => Z.opp <$> int_digits r 0 false
  | String "+" r => int_digits r 0 false
  | _ => int_digits t 0 false
  end.

(** [repr(s)] for a text, as the message of [ValueError] shows it. *)
Definition double_quote : ascii := ascii_of_nat 34.
Definition single_quote : ascii := ascii_of_nat 39.
Definition backslash : ascii := ascii_of_nat 92.

Definition hex_digit (n : nat) : ascii :=
  if n <? 10 then ascii_of_nat (48 + n) else ascii_of_nat (87 + n).

Definition repr_char (quote c : ascii) : string :=
  let n := nat_of_ascii c in
  if Ascii.eqb c quote || Ascii.eqb c backslash
  then String backslash (String c "")
  else if n =? 9 then String backslash "t"
  else if n =? 10 then String backslash "n"
  else if n =? 13 then String backslash "r"
  else if (n <? 32) || ((127 <=? n) && (n <=? 160)) || (n =? 173)
  then String backslash
         (String "x" (String (hex_digit (n / 16)) (String (hex_digit (n mod 16)) "")))
  else String c "".

Fixpoint repr_chars (quote : ascii) (s : string) : string :=
  match s with
  | EmptyString => EmptyString
  | String c s' => repr_char quote c +:+ repr_chars quote s'
  end.

Definition py_repr (s : string) : string :=
  let quote :=
    if PyStr.contains (String single_quote "") s
       && negb (PyStr.contains (String double_quote "") s)
    then double_quote else single_quote in
  String quote (repr_chars quote s +:+ String quote "").

(** The [ValueError] of [int]: the argument is shown up to 200 characters. *)
Definition invalid_literal (s : string) : exn :=
  Exn OtherException
    ("invalid literal for int() with base 10: "
     +:+ String.substring 0 200 (py_repr s)).

Definition int_of (s : string) : result Z :=
  match py_int s with
  | Some n => Ok n
  | None => Raise (invalid_literal s)
  end.

(** [str(port)] for each [port] of [range(start, end, 1)]. *)
Definition range_texts (start stop : Z) : list string :=
  (λ i, pretty (start + Z.of_nat i)%Z) <$> seq 0 (Z.to_nat (stop - start)).

(** The ports [do_scan] goes through, each as the text the target is built
    with: the fields of a set, the numbers of a range, or the one port. *)
Definition ports_to_scan (ports : string) : result (list string) :=
  if PyStr.contains "," ports then Ok (PyStr.split_char "," ports)
  else if PyStr.contains "-" ports then
    match PyStr.split_char "-" (PyStr.strip ports) with
    | p0 :: p1 :: _ =>
        match int_of p0 with
        | Raise e => Raise e
        | Ok start =>
            match int_of p1 with
            | Raise e => Raise e
            | Ok stop => Ok (range_texts start stop)
            end
        end
    | _ => Raise (Exn OtherException "list index out of range")
    end
  else Ok [ports].

(** ** The commands built on the engine: [replay], [fuzz], [search], [quit] *)

(** *** [string.Template.safe_substitute]

    The template of [do_fuzz] is read by Python's [string.Template]: [$$] is a
    dollar sign, [$name] and [${name}] are placeholders whose name is a letter
    or an underscore followed by letters, digits and underscores, taken as
    long as possible; a placeholder the mapping lacks, and a dollar sign that
    starts none of these, stay as they are.  The scan goes through the text
    once; [scan] is where it stands. *)
Definition is_dollar (c : ascii) : bool := Ascii.eqb c "$"%char.

Definition is_identifier_start (c : ascii) : bool :=
  let n := nat_of_ascii c in
  (n =? 95) || ((65 <=? n) && (n <=? 90)) || ((97 <=? n) && (n <=? 122)).

Definition is_identifier_char (c : ascii) : bool :=
  let n := nat_of_ascii c in
  is_identifier_start c || ((48 <=? n) && (n <=? 57)).

Inductive scan :=
| Text
| Dollar
| Named (name : string)
| BraceOpen
| Braced (name : string).

(** The replacement of a placeholder: the value of the mapping, or the
    placeholder as it was written. *)
Definition resolve (mapping : binding) (name written : string) : string :=
  match mapping !! name with
  | Some value => value
  | None => written
  end.

Fixpoint substitute_from (mapping : binding) (st : scan) (s : string) : string :=
  match s with
  | EmptyString =>
      match st with
      | Text => ""
      | Dollar => "$"
      | Named name => resolve mapping name ("$" +:+ name)
      | BraceOpen => "${"
      | Braced name => "${" +:+ name
      end
  | String c s' =>
      let text :=
        if is_dollar c then substitute_from mapping Dollar s'
        else String c (substitute_from mapping Text s') in
      match st with
      | Text => text
      | Dollar =>
          if is_dollar c then "$" +:+ substitute_from mapping Text s'
          else if is_identifier_start c
               then substitute_from mapping (Named (String c "")) s'
          else if Ascii.eqb c "{"%char then substitute_from mapping BraceOpen s'
          else "$" +:+ text
      | Named name =>
          if is_identifier_char c
          then substitute_from mapping (Named (name +:+ String c "")) s'
          else resolve mapping name ("$" +:+ name) +:+ text
      | BraceOpen =>
          if is_identifier_start c
          then substitute_from mapping (Braced (String c "")) s'
          else "${" +:+ text
      | Braced name =>
          if is_identifier_char c
          then substitute_from mapping (Braced (name +:+ String c "")) s'
          else if Ascii.eqb c "}"%char
               then resolve mapping name ("${" +:+ name +:+ "}")
                    +:+ substitute_from mapping Text s'
          else "${" +:+ name +:+ text
      end
  end.

(** [Template(template).safe_substitute(mapping)] *)
Definition safe_substitute (template : string) (mapping : binding) : string :=
  substitute_from mapping Text template.

(** *** The files and parsers of the commands *)

(** What [parse_args] returns for [replay], [fuzz], [search] and [scan]; the
    option [-u] of [scan] has the empty text as its default. *)
Record replay_namespace := ReplayNamespace {
  path_to_message_file : option string;
  repetition_count : option Z;
}.

Record fuzz_namespace := FuzzNamespace {
  path_to_template_message_file : option string;
  payload_files : option (list string);
}.

Record search_namespace := SearchNamespace {
  words : option (list string);
  case_insensitive : bool;
}.

Record scan_namespace := ScanNamespace {
  domain : option string;
  ports : option string;
  uri : string;
}.

(** The local side of the commands: the files they read, whether a file can
    be opened for writing, the parsers and [urllib.parse.unquote]. *)
Class Local := {
  read_text : string → result string;
  readlines : string → result (list string);
  open_to_write : string → result unit;
  parse_replay_args : list string → outcome replay_namespace;
  parse_fuzz_args : list string → outcome fuzz_namespace;
  parse_search_args : list string → outcome search_namespace;
  parse_scan_args : list string → outcome scan_namespace;
  unquote : string → string;
}.

(** What these commands print besides the messages of the engine; the two
    kinds of lines are kept in two lists. *)
Inductive notice :=
| MissingCommandParameters
| ReadingMessage
| MessageRead
| ReadingTemplate
| TemplateRead
| BuildingMessages
| MessagesBuilt (count : nat)
| ExchangesSaved (filename : string)
| AnalysisHint
| ReplayFailed (error : string)
| FuzzingFailed (error : string)
| NoExchangesAvailable
| SearchSaved (filename : string)
| WordsFound (rows : list (string * string))
| SearchFailed (error : string)
| StartScanning (count : nat)
| PortAvailable (port protocol : string)
| ScanFailed (error : string).

(** The [TypeError] of [open(None)], [[message] * None], [for word in None],
    [args.payload_files[:]], ["," in None] and [protocol + None]. *)
Definition open_None : exn :=
  Exn OtherException "expected str, bytes or os.PathLike object, not NoneType".

Definition multiply_None : exn :=
  Exn OtherException "can't multiply sequence by non-int of type 'NoneType'".

Definition iterate_None : exn :=
  Exn OtherException "'NoneType' object is not iterable".

Definition subscript_None : exn :=
  Exn OtherException "'NoneType' object is not subscriptable".

Definition contains_None : exn :=
  Exn OtherException "argument of type 'NoneType' is not iterable".

Definition concatenate_None : exn :=
  Exn OtherException
    ("can only concatenate str (not "
     +:+ String double_quote ("NoneType" +:+ String double_quote ") to str")).

(** [d.setdefault(k, "")] followed by [d[k] += s] on a dictionary keyed by
    text and kept in insertion order. *)
Fixpoint gather_word (k : string) (s : string) (d : list (string * string))
  : list (string * string) :=
  match d with
  | [] => [(k, "" +:+ s)]
  | (k', v) :: d' =>
      if String.eqb k k' then (k', v +:+ s) :: d' else (k', v) :: gather_word k s d'
  end.

Section Commands.
Context `{Env : Environment} `{Loc : Local}.

(** The shell at work: the engine's state, the files written so far with
    their last content, and the notices printed. *)
Record Session := MkSession {
  sys : Sys;
  files : gmap string json;
  notices : list notice;
}.

(** An engine computation run inside a session. *)
Definition on_sys {A} (c : M Sys A) : M Session A :=
  λ d, let '(s, o) := c (sys d) in (MkSession s (files d) (notices d), o).

Definition note (n : notice) : M Session unit :=
  λ d, (MkSession (sys d) (files d) (notices d ++ [n]), Return tt).

Definition lift_result {S A} (r : result A) : M S A :=
  lift_outcome (outcome_of_result r).

(** [with open(filename, "w") as f: f.write(json.dumps(...))] *)
Definition write_file (filename : string) (content : json) : M Session unit :=
  lift_result (open_to_write filename);;
  λ d, (MkSession (sys d) (<[ filename := content ]> (files d)) (notices d), Return tt).

(** [__store_exchanges_to_file] on the session. *)
Definition store_exchanges (filename : string) : M Session unit :=
  ex <- on_sys (get exchanges);;
  write_file filename (store_exchanges_to_file ex).

(** [[message] * n]: no element for a count that is not positive. *)
Definition repeat_message (message : string) (n : Z) : list string :=
  replicate (Z.to_nat n) message.

(** [do_replay] *)
Definition do_replay (line : string) : M Session unit :=
  try_except
    (if String.eqb (PyStr.strip line) "" || negb (PyStr.contains "-m" line)
        || negb (PyStr.contains "-n" line)
     then note MissingCommandParameters
     else
       args <- lift_outcome (parse_replay_args (PyStr.split_char space line));;
       note ReadingMessage;;
       message <- lift_result
                    match path_to_message_file args with
                    | Some p => read_text p
                    | None => Raise open_None
                    end;;
       note MessageRead;;
       on_sys check_connection_availability;;
       messages_list <- lift_result
                          match repetition_count args with
                          | Some n => Ok (repeat_message message n)
                          | None => Raise multiply_None
                          end;;
       on_sys (put (set_exchanges ∅));;
       on_sys (send_messages messages_list);;
       let filename := "exchanges_replay.json" in
       note (ExchangesSaved filename);;
       store_exchanges filename;;
       note AnalysisHint)
    Exception
    (λ error, note (ReplayFailed (exn_str error))).

(** [do_fuzz] *)
Definition do_fuzz (line : string) : M Session unit :=
  try_except
    (if String.eqb (PyStr.strip line) "" || negb (PyStr.contains "-m" line)
        || negb (PyStr.contains "-p" line)
     then note MissingCommandParameters
     else
       args <- lift_outcome (parse_fuzz_args (PyStr.split_char space line));;
       note ReadingTemplate;;
       message_template <- lift_result
                             match path_to_template_message_file args with
                             | Some p => read_text p
                             | None => Raise open_None
                             end;;
       note TemplateRead;;
       on_sys check_connection_availability;;
       note BuildingMessages;;
       payload_files_copy <- lift_result
                               match payload_files args with
                               | Some fs => Ok fs
                               | None => Raise subscript_None
                               end;;
       payloads <- lift_result (build_fuzzing_dicts readlines payload_files_copy [] 1);;
       let messages_list := safe_substitute message_template <$> payloads in
       note (MessagesBuilt (length messages_list));;
       on_sys (put (set_exchanges ∅));;
       on_sys (send_messages messages_list);;
       let filename := "exchanges_fuzzing.json" in
       note (ExchangesSaved filename);;
       store_exchanges filename;;
       note AnalysisHint)
    Exception
    (λ error, note (FuzzingFailed (exn_str error))).

(** The words of one response: the inner loop of [do_search]. *)
Fixpoint search_words (resp : string) (ci : bool) (idx : nat) (ws : list string)
    (found : list (string * string)) : list (string * string) :=
  match ws with
  | [] => found
  | word :: ws' =>
      let searched_word := unquote word in
      let searched_word := if ci then PyStr.lower searched_word else searched_word in
      search_words resp ci idx ws'
        (if PyStr.contains searched_word resp
         then gather_word word (" " +:+ PyStr.str_of_nat idx) found
         else found)
  end.

(** The outer loop of [do_search], over the indices. *)
Fixpoint search_exchanges (exchanges : gmap nat Exchange) (ci : bool)
    (ws : list string) (indices : list nat) (found : list (string * string))
  : result (list (string * string)) :=
  match indices with
  | [] => Ok found
  | idx :: indices' =>
      match exchanges !! idx with
      | None => Raise (Exn OtherException (PyStr.str_of_nat idx))
      | Some exchange =>
          let resp := RESPONSE exchange in
          let resp := if ci then PyStr.lower resp else resp in
          search_exchanges exchanges ci ws indices'
            (search_words resp ci idx ws found)
      end
  end.

(** [do_search] *)
Definition do_search (line : string) : M Session unit :=
  try_except
    (if String.eqb (PyStr.strip line) "" || negb (PyStr.contains "-w" line)
     then note MissingCommandParameters
     else
       ex <- on_sys (get exchanges);;
       if size ex =? 0 then note NoExchangesAvailable
       else
         args <- lift_outcome (parse_search_args (PyStr.split_char space line));;
         ws <- lift_result
                 match words args with
                 | Some ws => Ok ws
                 | None => Raise iterate_None
                 end;;
         found <- lift_result
                    (search_exchanges ex (case_insensitive args) ws
                       (seq 0 (size ex)) []);;
         let filename := "exchanges_searching.json" in
         note (SearchSaved filename);;
         write_file filename (store_data_to_file (found_value found));;
         note (WordsFound ((λ row : string * string, (row.1, PyStr.strip row.2))
                             <$> found)))
    Exception
    (λ error, note (SearchFailed (exn_str error))).

(** The keyword arguments of [create_connection] in [do_scan]: the target
    and a timeout of 3 seconds; the other arguments are left out, which the
    library reads as no header, no origin and no subprotocol. *)
Definition scan_request (target : string) : connection_request :=
  ConnectionRequest (Some target) 3 ∅ None [].

(** One protocol on one port: the body of the inner loop of [do_scan]. *)
Definition scan_attempt (args : scan_namespace) (port protocol : string)
  : M Session unit :=
  try_except
    (target <- lift_result
                 match domain args with
                 | Some d => Ok (protocol +:+ d +:+ ":" +:+ port +:+ uri args)
                 | None => Raise concatenate_None
                 end;;
     test_connection <- on_sys (library (CallCreate (scan_request target))
                                  (create_connection (scan_request target)));;
     note (PortAvailable port protocol);;
     on_sys (library (CallClose test_connection) (ws_close test_connection)))
    WebSocketException_or_IOError
    (λ _, ret tt).

Fixpoint scan_protocols (args : scan_namespace) (port : string)
    (protocols : list string) : M Session unit :=
  match protocols with
  | [] => ret tt
  | protocol :: protocols' =>
      scan_attempt args port protocol;;
      scan_protocols args port protocols'
  end.

Fixpoint scan_ports (args : scan_namespace) (ports_to_scan : list string)
  : M Session unit :=
  match ports_to_scan with
  | [] => ret tt
  | port :: ports' =>
      scan_protocols args port ["ws://"; "wss://"];;
      scan_ports args ports'
  end.

(** [do_scan] *)
Definition do_scan (line : string) : M Session unit :=
  try_except
    (if String.eqb (PyStr.strip line) "" || negb (PyStr.contains "-t" line)
        || negb (PyStr.contains "-p" line)
     then note MissingCommandParameters
     else
       args <- lift_outcome (parse_scan_args (PyStr.split_char space line));;
       ports_to_scan <- lift_result
                          match ports args with
                          | Some p => ports_to_scan p
                          | None => Raise contains_None
                          end;;
       note (StartScanning (length ports_to_scan));;
       scan_ports args ports_to_scan)
    Exception
    (λ error, note (ScanFailed (exn_str error))).

(** [do_quit]: the result [True] ends the command loop. *)
Definition do_quit : M Session bool :=
  on_sys do_disconnect;;
  ret true.

End Commands.

Arguments Session {Env}.

(** ** Concrete inputs *)

Definition newline : string := String "010"%char EmptyString.

(** Three payload files: two letters, two digits, and a file without lines. *)
Definition example_files (path : string) : result (list string) :=
  if String.eqb path "letters.txt" then Ok ["x" +:+ newline; "y" +:+ newline]
  else if String.eqb path "digits.txt" then Ok ["1" +:+ newline; "2" +:+ newline]
  else if String.eqb path "empty.txt" then Ok []
  else Raise (Exn IOError "No such file or directory").

(** A store whose exchanges took the given times (in hundredths of a second),
    in index order. *)
Definition exchange_taking (response_time : Z) : Exchange :=
  {| REQUEST := "ping"; RESPONSE := "pong"; IS_ERROR := false;
     RESPONSE_TIME := response_time; REQUEST_LENGTH := 4; RESPONSE_LENGTH := 4 |}.

Definition store_of_times (times : list Z) : gmap nat Exchange :=
  map_seq 0 (exchange_taking <$> times).

(** The endpoint with the other scheme as the specification words it: the
    scheme token alone is replaced, the rest is kept as it is. *)
Definition complementary_endpoint (endpoint : string) : string :=
  let lowered := PyStr.lower endpoint in
  if PyStr.startswith lowered "wss://"
  then "ws://" +:+ String.substring 6 (String.length endpoint - 6) endpoint
  else if PyStr.startswith lowered "ws://"
  then "wss://" +:+ String.substring 5 (String.length endpoint - 5) endpoint
  else "wss://" +:+ endpoint.

(** *** A scripted endpoint

    An environment for examples: the world counts the calls made, and a
    script answers each call from the count and the arguments.  Connections
    are numbered in the order they were opened. *)
Record counters := Counters {
  opened : nat;
  sent : nat;
  received : nat;
  closed : nat;
  ticks : nat;
}.

Record script := Script {
  on_create : nat → connection_request → result unit;
  on_send : nat → string → result unit;
  on_recv : nat → result string;
  on_close : nat → nat → result unit;
}.

(** The reading of a command line made of option and value pairs; anything
    else is rejected the way [argparse] rejects a line, by [SystemExit]. *)
Fixpoint example_parse_args (tokens : list string) (ns : namespace) : outcome namespace :=
  match tokens with
  | [] => Return ns
  | flag :: value :: tokens' =>
      if String.eqb flag "-t" then
        example_parse_args tokens'
          (Namespace (Some value) (origin ns) (extra_http_headers ns) (subprotocols ns))
      else if String.eqb flag "-o" then
        example_parse_args tokens'
          (Namespace (endpoint ns) (Some value) (extra_http_headers ns) (subprotocols ns))
      else if String.eqb flag "-e" then
        example_parse_args tokens'
          (Namespace (endpoint ns) (origin ns) (Some value) (subprotocols ns))
      else if String.eqb flag "-p" then
        example_parse_args tokens'
          (Namespace (endpoint ns) (origin ns) (extra_http_headers ns) (Some value))
      else SystemExit
  | _ => SystemExit
  end.

Definition scripted (sc : script) : Environment := {|
  World := counters;
  connection := nat;
  Time := nat;
  create_connection request w :=
    (Counters (S (opened w)) (sent w) (received w) (closed w) (ticks w),
     match on_create sc (opened w) request with
     | Ok _ => Ok (opened w)
     | Raise e => Raise e
     end);
  ws_send c msg w :=
    (Counters (opened w) (S (sent w)) (received w) (closed w) (ticks w),
     on_send sc (sent w) msg);
  ws_recv c w :=
    (Counters (opened w) (sent w) (S (received w)) (closed w) (ticks w),
     on_recv sc (received w));
  ws_close c w :=
    (Counters (opened w) (sent w) (received w) (S (closed w)) (ticks w),
     on_close sc (closed w) c);
  time_clock w :=
    (Counters (opened w) (sent w) (received w) (closed w) (S (ticks w)), ticks w);
  round2_elapsed start stop := Z.of_nat (stop - start);
  parse_args tokens := example_parse_args tokens (Namespace None None None None);
|}.

(** The shell as [__init__] leaves it, before any call. *)
Definition initial_sys (sc : script) : @Sys (scripted sc) :=
  @MkSys (scripted sc) (Counters 0 0 0 0 0) (@MkShell (scripted sc) None ∅ None) [] [].

(** The line of [connect -t ws://echo.websocket.org] and the shell after it. *)
Definition connect_line : string := "-t ws://echo.websocket.org".

Definition connected_sys (sc : script) : @Sys (scripted sc) :=
  state_after (do_connect (Some connect_line)) (initial_sys sc).

(** An endpoint that answers every call. *)
Definition echo_script : script :=
  Script (λ _ _, Ok tt) (λ _ _, Ok tt) (λ _, Ok "echo") (λ _ _, Ok tt).

(** An endpoint on which sending the message [m3] fails. *)
Definition m3_fails_script : script :=
  Script (λ _ _, Ok tt)
    (λ _ msg, if String.eqb msg "m3"
              then Raise (Exn WebSocketException "socket is already closed.")
              else Ok tt)
    (λ _, Ok "echo") (λ _ _, Ok tt).

(** An endpoint that refuses the messages of [limit] characters or more. *)
Definition size_limit_script (limit : nat) : script :=
  Script (λ _ _, Ok tt)
    (λ _ msg, if limit <=? String.length msg
              then Raise (Exn WebSocketException "Message too big.")
              else Ok tt)
    (λ _, Ok "echo") (λ _ _, Ok tt).

(** An endpoint whose [k]-th open call (counted from 0) raises [e], and on
    which closing the connection [bad] raises [IOError]. *)
Definition open_limit_script (k : nat) (e : exn) (bad : nat) : script :=
  Script (λ n _, if n =? k then Raise e else Ok tt)
    (λ _ _, Ok tt) (λ _, Ok "echo")
    (λ _ c, if c =? bad then Raise (Exn IOError "Broken pipe") else Ok tt).

(** An endpoint that goes mute after its first answer: the first send is
    accepted, every later one fails. *)
Definition mute_script : script :=
  Script (λ _ _, Ok tt)
    (λ n _, if n =? 0 then Ok tt
            else Raise (Exn WebSocketException "Connection is already closed."))
    (λ _, Ok "echo") (λ _ _, Ok tt).

Definition echo_request : connection_request :=
  ConnectionRequest (Some "ws://echo.websocket.org") 10 ∅ None [].

(** An endpoint that answers the first open call and refuses the later ones. *)
Definition one_connection_script : script :=
  Script (λ n _, if n =? 0 then Ok tt
                 else Raise (Exn WebSocketException "Handshake status 503"))
    (λ _ _, Ok tt) (λ _, Ok "echo") (λ _ _, Ok tt).

(** An exception of the handshake that is neither a [WebSocketException] nor
    an [IOError]: the [ValueError] of a status line that does not parse. *)
Definition unexpected_error : exn :=
  Exn OtherException "invalid literal for int() with base 10".

(** The shell after [connect] and [disconnect] on an endpoint that refuses
    the messages of [limit] characters or more. *)
Definition disconnected_sys (limit : nat) : @Sys (scripted (size_limit_script limit)) :=
  state_after (do_disconnect (Env := scripted (size_limit_script limit)))
    (connected_sys (size_limit_script limit)).

(** An endpoint on which the sends from the [n]-th on (counted from 0) fail
    with [IOError]. *)
Definition broken_pipe_script (n : nat) : script :=
  Script (λ _ _, Ok tt)
    (λ k _, if n <=? k then Raise (Exn IOError "[Errno 32] Broken pipe") else Ok tt)
    (λ _, Ok "echo") (λ _ _, Ok tt).

(** An endpoint that closes the connection after its first answer: every
    later send fails with [WebSocketConnectionClosedException]. *)
Definition closing_script : script :=
  Script (λ _ _, Ok tt)
    (λ n _, if n =? 0 then Ok tt
            else Raise (Exn WebSocketConnectionClosedException
                          "Connection is already closed."))
    (λ _, Ok "echo") (λ _ _, Ok tt).

(** An endpoint on which every [close] fails. *)
Definition stuck_script : script :=
  Script (λ _ _, Ok tt) (λ _ _, Ok tt) (λ _, Ok "echo")
    (λ _ _, Raise (Exn WebSocketException "socket is already closed.")).

(** *** A scripted working directory

    The local side for examples: a message file, a template file and the
    payload files above; a directory that can be written or not; parsers for
    the option layouts the examples use, which reject anything else the way
    [argparse] does; [%20] as the one escape [unquote] knows. *)
Fixpoint digits_value (s : string) (acc : Z) : option Z :=
  match s with
  | EmptyString => Some acc
  | String c s' =>
      let n := nat_of_ascii c in
      if (48 <=? n) && (n <=? 57)
      then digits_value s' (10 * acc + Z.of_nat (n - 48))
      else None
  end.

Definition int_of_text (s : string) : option Z :=
  match s with
  | EmptyString => None
  | String "-" (String c s') => Z.opp <$> digits_value (String c s') 0
  | _ => digits_value s 0
  end.

Definition example_local (writable : bool) : Local := {|
  read_text path :=
    if String.eqb path "message.txt" then Ok "ping"
    else if String.eqb path "template.txt"
    then Ok "Hello $payload_1 from $payload_2 !"
    else Raise (Exn IOError "[Errno 2] No such file or directory");
  readlines := example_files;
  open_to_write filename :=
    if writable then Ok tt else Raise (Exn IOError "[Errno 13] Permission denied");
  parse_replay_args tokens :=
    match tokens with
    | [m; p; n; count] =>
        if String.eqb m "-m" && String.eqb n "-n"
        then match int_of_text count with
             | Some v => Return (ReplayNamespace (Some p) (Some v))
             | None => SystemExit
             end
        else SystemExit
    | _ => SystemExit
    end;
  parse_fuzz_args tokens :=
    match tokens with
    | m :: p :: f :: file :: more =>
        if String.eqb m "-m" && String.eqb f "-p"
        then Return (FuzzNamespace (Some p) (Some (file :: more)))
        else SystemExit
    | _ => SystemExit
    end;
  parse_search_args tokens :=
    match tokens with
    | flag :: word :: more =>
        if String.eqb flag "-w"
        then Return (SearchNamespace (Some (word :: more)) false)
        else match more with
             | word' :: more' =>
                 if String.eqb flag "-i" && String.eqb word "-w"
                 then Return (SearchNamespace (Some (word' :: more')) true)
                 else SystemExit
             | [] => SystemExit
             end
    | _ => SystemExit
    end;
  parse_scan_args tokens :=
    match tokens with
    | [t; d; p; range] =>
        if String.eqb t "-t" && String.eqb p "-p"
        then Return (ScanNamespace (Some d) (Some range) "")
        else SystemExit
    | _ => SystemExit
    end;
  unquote word := PyStr.replace word "%20" " ";
|}.

(** A session on the scripted endpoint, connected, with no file written. *)
Definition connected_session (sc : script) : @Session (scripted sc) :=
  @MkSession (scripted sc) (connected_sys sc) ∅ [].

(** A store of exchanges with the given responses, in index order. *)
Definition exchange_answering (response : string) : Exchange :=
  {| REQUEST := "ping"; RESPONSE := response; IS_ERROR := false;
     RESPONSE_TIME := 1; REQUEST_LENGTH := 4;
     RESPONSE_LENGTH := String.length response |}.

Definition store_of_responses (responses : list string) : gmap nat Exchange :=
  map_seq 0 (exchange_answering <$> responses).

Definition example_responses : list string :=
  ["Hello World"; "SQLException at line 3"; "hello again"].

(** *** Definitions used by the proofs *)

(** The payloads of each file: its lines without their newline. *)
Definition line_lists (files : list (list string)) : list (list string) :=
  (λ lines : list string, PyStr.rstrip_newline <$> lines) <$> files.

(** Every binding leaves the placeholders from [position] on unset. *)
Definition unset_from (position : nat) (bindings : list binding) : Prop :=
  ∀ b j, b ∈ bindings → position ≤ j → b !! payload_placeholder_key j = None.

(** The items of a dictionary once written and parsed back. *)
Definition parsed_back (items : list (pykey * pyvalue)) : list (pykey * pyvalue) :=
  (λ i : pykey * pyvalue, (KStr (member_name i.1), json_loads (json_dumps i.2)))
    <$> items.

(** The whole seconds of the exchange stored under an index. *)
Definition seconds_at (exchanges : gmap nat Exchange) (idx : nat) : option Z :=
  (λ e, int_of_time (RESPONSE_TIME e)) <$> exchanges !! idx.

(** The text gathered under the key [k]: one space and one index for every
    index of the list whose exchange took [k] whole seconds, in list order. *)
Fixpoint index_pieces (exchanges : gmap nat Exchange) (k : Z) (indices : list nat)
  : string :=
  match indices with
  | [] => ""
  | idx :: indices' =>
      (if decide (seconds_at exchanges idx = Some k)
       then " " +:+ PyStr.str_of_nat idx else "")
      +:+ index_pieces exchanges k indices'
  end.

(** The value a key has in the gathering dictionary, [""] for a key it lacks. *)
Fixpoint gathered_value (k : Z) (d : list (Z * string)) : string :=
  match d with
  | [] => ""
  | (k', v) :: d' => if (k =? k')%Z then v else gathered_value k d'
  end.

(** Every character of [s] passes [p]. *)
Fixpoint all_chars (p : ascii → bool) (s : string) : bool :=
  match s with
  | EmptyString => true
  | String c s' => p c && all_chars p s'
  end.

(** A text without dollar sign, a placeholder name, and a text that does not
    go on with the name before it. *)
Definition plain (s : string) : bool := all_chars (λ c, negb (is_dollar c)) s.

Definition is_identifier (name : string) : bool :=
  match name with
  | EmptyString => false
  | String c name' => is_identifier_start c && all_chars is_identifier_char name'
  end.

Definition ends_name (rest : string) : bool :=
  match rest with
  | EmptyString => true
  | String c _ => negb (is_identifier_char c)
  end.

(** A text of ASCII characters only. *)
Definition is_ascii_text (s : string) : bool :=
  all_chars (λ c, nat_of_ascii c <? 128) s.

(** Whether [do_search] finds [word] in the response [resp]. *)
Definition word_found `{Loc : Local} (ci : bool) (word resp : string) : bool :=
  PyStr.contains (if ci then PyStr.lower (unquote word) else unquote word)
                 (if ci then PyStr.lower resp else resp).

(** The requests of the open calls of a trace, in order. *)
Fixpoint creates_of `{Env : Environment} (cs : list call) : list connection_request :=
  match cs with
  | [] => []
  | CallCreate request :: cs' => request :: creates_of cs'
  | _ :: cs' => creates_of cs'
  end.

(** The two targets [do_scan] builds for a port. *)
Definition scan_targets (d u port : string) : list connection_request :=
  [ scan_request ("ws://" +:+ d +:+ ":" +:+ port +:+ u);
    scan_request ("wss://" +:+ d +:+ ":" +:+ port +:+ u) ].

(** The ports [do_scan] printed as available, with the protocol. *)
Fixpoint ports_reported (ns : list notice) : list (string * string) :=
  match ns with
  | [] => []
  | PortAvailable port protocol :: ns' => (port, protocol) :: ports_reported ns'
  | _ :: ns' => ports_reported ns'
  end.

(** What a scan adds to a session: the open calls [added], one [close] per
    port printed as available, and nothing else. *)
Definition scanned `{Env : Environment} (d d' : Session)
    (added : list connection_request) : Prop :=
  creates_of (calls (sys d')) = creates_of (calls (sys d)) ++ added
  ∧ shell (sys d') = shell (sys d)
  ∧ files d' = files d
  ∧ ∃ cs reported,
      closes_of (calls (sys d')) = closes_of (calls (sys d)) ++ cs
      ∧ ports_reported (notices d') = ports_reported (notices d) ++ reported
      ∧ length cs = length reported.

(** *** Tactics *)

(** Unfolds the monad's operations. *)
Ltac unfold_monad :=
  unfold bind, ret, raise, try_except, lift_outcome, library, print, get, put,
    clock, outcome_of_result, state_after, Exception, is_not_None in *.

(** A key is none of the listed keys, all given as literals. *)
Ltac distinct_key :=
  let H := fresh in
  intros H;
  repeat (apply elem_of_cons in H as [H|H]; [discriminate H|]);
  by apply elem_of_nil in H.

(** * Properties *)

(** ** Payload combinator *)

Section Combinator.
Variable readlines : string → result (list string).

Lemma payload_placeholder_key_inj i j :
  payload_placeholder_key i = payload_placeholder_key j → i = j.
Proof.
  unfold payload_placeholder_key, PyStr.str_of_nat. intros E.
  apply (inj pretty). by simplify_eq.
Qed.

Lemma unset_from_step position bindings (lines : list string) :
  unset_from position bindings →
  unset_from (position + 1)
    (b ← bindings;
     (λ line : string, <[ payload_placeholder_key position := line ]> b) <$> lines).
Proof.
  intros U b j Hb Hj.
  apply list_elem_of_bind in Hb as (b0 & Hb & Hb0).
  apply list_elem_of_fmap in Hb as (line & -> & _).
  rewrite lookup_insert_ne.
  - apply (U b0); [done | lia].
  - intros E. apply payload_placeholder_key_inj in E. lia.
Qed.

Lemma expand_nonempty (bindings : list binding) (lines : list string)
    (f : binding → string → binding) :
  bindings ≠ [] → lines ≠ [] → (b ← bindings; f b <$> lines) ≠ [].
Proof.
  destruct bindings as [|b bs]; [done|]. destruct lines as [|l ls]; [done|].
  intros _ _. simpl. discriminate.
Qed.

(** With a non-empty accumulator and files that all have a line, the
    recursion is the product's expansion. *)
Lemma build_fuzzing_dicts_expand paths : ∀ files bindings position,
  Forall2 (λ path lines, readlines path = Ok lines) paths files →
  Forall (λ lines : list string, lines ≠ []) files →
  bindings ≠ [] →
  unset_from position bindings →
  build_fuzzing_dicts readlines paths bindings position
  = Ok (product_expand position bindings
          (line_lists files)).
Proof.
  induction paths as [|path paths IH]; intros files bindings position HR HN HB HU.
  - apply Forall2_nil_inv_l in HR as ->. reflexivity.
  - apply Forall2_cons_inv_l in HR as (lines & files' & Hl & HR & ->).
    apply Forall_cons in HN as [Hne HN].
    cbn [build_fuzzing_dicts]. rewrite Hl.
    destruct bindings as [|b0 bs] eqn:Eb; [done|]. rewrite <- Eb in *.
    unfold line_lists. rewrite fmap_cons. fold (line_lists files').
    cbn [product_expand].
    assert (Hstep :
      (payload_combination ← bindings;
       (λ payload : string,
          payload_combination
          ∪ {[ payload_placeholder_key position := PyStr.rstrip_newline payload ]})
         <$> lines)
      = (b ← bindings;
         (λ line : string, <[ payload_placeholder_key position := line ]> b)
           <$> (PyStr.rstrip_newline <$> lines))).
    { clear -HU. induction bindings as [|b bs IHb]; [done|].
      cbn [mbind list_bind]. f_equal.
      - rewrite <- list_fmap_compose. apply list_fmap_ext. intros _ payload _. simpl.
        rewrite insert_union_singleton_r; [done|].
        apply (HU b); [left | lia].
      - apply IHb. intros b' j Hb'. apply HU. by right. }
    rewrite Hstep. apply IH; try done.
    + apply expand_nonempty; [done|]. by destruct lines.
    + by apply unset_from_step.
Qed.

(** For a non-empty list of files that all have at least one line, [combine]
    is the Cartesian product of the line lists, in the product's order. *)
Lemma combine_cartesian paths files :
  paths ≠ [] →
  Forall2 (λ path lines, readlines path = Ok lines) paths files →
  Forall (λ lines : list string, lines ≠ []) files →
  combine readlines paths
  = Ok (cartesian_bindings (line_lists files)).
Proof.
  intros Hp HR HN. destruct paths as [|path paths]; [done|].
  apply Forall2_cons_inv_l in HR as (lines & files' & Hl & HR & ->).
  apply Forall_cons in HN as [Hne HN].
  unfold combine, cartesian_bindings. cbn [build_fuzzing_dicts]. rewrite Hl.
  unfold line_lists. rewrite fmap_cons. fold (line_lists files').
  cbn [product_expand mbind list_bind].
  rewrite app_nil_r, <- list_fmap_compose.
  rewrite (list_fmap_ext
             ((λ line : string, <[ payload_placeholder_key 1 := line ]> (∅ : binding))
              ∘ PyStr.rstrip_newline)
             (λ payload : string,
                {[ payload_placeholder_key 1 := PyStr.rstrip_newline payload ]})).
  2: { intros _ x _. simpl. by rewrite insert_empty. }
  apply build_fuzzing_dicts_expand; try done.
  - by destruct lines.
  - intros b j Hb Hj. apply list_elem_of_fmap in Hb as (l & -> & _).
    apply lookup_singleton_ne. intros E. apply payload_placeholder_key_inj in E. lia.
Qed.

End Combinator.

Lemma length_expand_step (bindings : list binding) (lines : list string)
    (f : binding → string → binding) :
  length (b ← bindings; f b <$> lines) = length bindings * length lines.
Proof.
  induction bindings as [|b bs IH]; [done|].
  cbn [mbind list_bind]. rewrite length_app, length_fmap, IH. simpl. lia.
Qed.

(** The product has as many bindings as the line counts multiply to. *)
Lemma length_cartesian_bindings files :
  length (cartesian_bindings files) = foldr Nat.mul 1 (length <$> files).
Proof.
  unfold cartesian_bindings.
  assert (G : ∀ position bindings,
             length (product_expand position bindings files)
             = length bindings * foldr Nat.mul 1 (length <$> files)).
  { induction files as [|lines files IH]; intros position bindings.
    - simpl. lia.
    - cbn [product_expand]. rewrite IH, length_expand_step.
      rewrite fmap_cons. cbn [foldr]. lia. }
  rewrite G. simpl. lia.
Qed.

(** The files of the specification's test: letters then digits. *)
Example combine_letters_digits :
  combine example_files ["letters.txt"; "digits.txt"]
  = Ok [ {[ "payload_1" := "x"; "payload_2" := "1" ]};
         {[ "payload_1" := "x"; "payload_2" := "2" ]};
         {[ "payload_1" := "y"; "payload_2" := "1" ]};
         {[ "payload_1" := "y"; "payload_2" := "2" ]} ].
Proof. vm_compute. reflexivity. Qed.

(** C1.  [combine] is the ordered Cartesian product of the files' line lists
    for every non-empty list of files: the code breaks this when a file has
    no line.  After [empty.txt] (no line) the accumulator is empty again, so
    [digits.txt] is taken for the first file and seeds one binding per line;
    the result is two bindings with [payload_2] alone, where the product of
    no line with two lines has no element. *)
Theorem combine_empty_file_reseeds :
  combine example_files ["empty.txt"; "digits.txt"]
  = Ok [ {[ "payload_2" := "1" ]}; {[ "payload_2" := "2" ]} ]
  ∧ cartesian_bindings
      (line_lists [ []; ["1" +:+ newline; "2" +:+ newline] ]) = [].
Proof. split; vm_compute; reflexivity. Qed.

(** C8, as stated, fails: without files [combine] returns no binding at all,
    not the single empty binding. *)
Lemma combine_no_file_not_singleton :
  combine example_files [] ≠ Ok [ ∅ ].
Proof. unfold combine. simpl. intros E. inversion E. Qed.

(** C8, amended.  For the empty list of files [combine] returns the empty
    sequence of bindings: the accumulator the recursion starts from. *)
Theorem combine_no_file (readlines : string → result (list string)) :
  combine readlines [] = Ok [].
Proof. reflexivity. Qed.

(** ** Channel capability prober *)

(** On an endpoint in lower case whose only scheme token is its prefix the
    derived endpoint is the complementary one. *)
Example target_endpoint_lower_case :
  target_endpoint "ws://echo.websocket.org:8080/chat" = "wss://echo.websocket.org:8080/chat"
  ∧ target_endpoint "WSS://echo.websocket.org" = "ws://echo.websocket.org".
Proof. split; vm_compute; reflexivity. Qed.

(** Every later scheme token is removed too, not only the prefix. *)
Example target_endpoint_inner_token :
  target_endpoint "ws://proxy.example.org/ws://inner" = "wss://proxy.example.org/inner".
Proof. vm_compute. reflexivity. Qed.

(** The derived endpoint never keeps an upper-case letter: it is its own
    lower-casing whatever the saved endpoint was. *)
Lemma lower_char_idempotent c : PyStr.lower_char (PyStr.lower_char c) = PyStr.lower_char c.
Proof.
  destruct c as [[] [] [] [] [] [] [] []]; vm_compute; reflexivity.
Qed.

Lemma lower_idempotent s : PyStr.lower (PyStr.lower s) = PyStr.lower s.
Proof.
  induction s as [|c s IH]; [done|]. simpl. by rewrite lower_char_idempotent, IH.
Qed.

Lemma lower_app s t : PyStr.lower (s +:+ t) = PyStr.lower s +:+ PyStr.lower t.
Proof. induction s as [|c s IH]; [done|]. simpl. by rewrite IH. Qed.

Lemma lower_replace_from old new skip s :
  PyStr.lower old = old → PyStr.lower new = new →
  PyStr.lower (PyStr.replace_from old new skip (PyStr.lower s))
  = PyStr.replace_from old new skip (PyStr.lower s).
Proof.
  intros Ho Hn. revert skip. induction s as [|c s IH]; intros skip; [done|].
  cbn [PyStr.lower PyStr.replace_from]. destruct skip as [|k]; [|apply IH].
  destruct (String.prefix old _).
  - by rewrite lower_app, Hn, IH.
  - cbn [PyStr.lower]. by rewrite lower_char_idempotent, IH.
Qed.

Lemma target_endpoint_lowered endpoint :
  PyStr.lower (target_endpoint endpoint) = target_endpoint endpoint.
Proof.
  unfold target_endpoint, PyStr.replace. rewrite lower_app. f_equal.
  - unfold protocol_to_test. by destruct (PyStr.startswith _ _).
  - set (r := PyStr.replace_from "wss://" "" 0 (PyStr.lower endpoint)).
    assert (Hr : PyStr.lower r = r) by (by apply lower_replace_from).
    rewrite <- Hr. by apply lower_replace_from.
Qed.

(** C7.  The derived endpoint keeps host, port and path as they are, with
    their character case: the code breaks this, because it lower-cases the
    whole saved endpoint before it swaps the scheme and never goes back to the
    original text.  For [ws://Example.org:8080/Chat] the probe targets
    [wss://example.org:8080/chat], not [wss://Example.org:8080/Chat]. *)
Theorem target_endpoint_loses_case :
  target_endpoint "ws://Example.org:8080/Chat" = "wss://example.org:8080/chat"
  ∧ complementary_endpoint "ws://Example.org:8080/Chat" = "wss://Example.org:8080/Chat"
  ∧ target_endpoint "ws://Example.org:8080/Chat"
    ≠ complementary_endpoint "ws://Example.org:8080/Chat".
Proof. repeat split; vm_compute; try reflexivity. discriminate. Qed.

(** ** Timing aggregation *)

(** [gather] appends a key it has not seen and keeps the others in place. *)
Lemma gather_keys k s d :
  (gather k s d).*1 = if decide (k ∈ d.*1) then d.*1 else (d.*1 ++ [k])%list.
Proof.
  induction d as [|[k' v] d IH]; [done|].
  cbn [gather]. destruct (Z.eqb_spec k k') as [->|Hne].
  - rewrite decide_True; [done | simpl; left].
  - rewrite !fmap_cons, IH. cbn [fst].
    destruct (decide (k ∈ d.*1)) as [Hin|Hnin].
    + rewrite decide_True; [done | by right].
    + rewrite decide_False; [done|]. by intros [?|?]%elem_of_cons.
Qed.

Lemma gather_keys_NoDup k s d : NoDup d.*1 → NoDup (gather k s d).*1.
Proof.
  intros Hd. rewrite gather_keys. case_decide; [done|].
  apply NoDup_app. split_and!; [done | | apply NoDup_singleton].
  intros x Hx ->%list_elem_of_singleton. done.
Qed.

(** The keys of the table are pairwise distinct. *)
Lemma do_analyze_response_times_NoDup exchanges rows :
  do_analyze_response_times exchanges = Ok rows → NoDup rows.*1.
Proof.
  unfold do_analyze_response_times.
  assert (G : ∀ indices d d',
             NoDup d.*1 →
             gather_response_times exchanges indices d = Ok d' → NoDup d'.*1).
  { induction indices as [|idx indices IH]; intros d d' Hd; simpl.
    - by intros [= <-].
    - destruct (exchanges !! idx); [|done]. apply IH. by apply gather_keys_NoDup. }
  destruct (gather_response_times _ _ _) as [d|] eqn:E; [|done].
  intros [= <-]. rewrite <- list_fmap_compose.
  rewrite (list_fmap_ext _ fst); [|by intros ? []].
  eapply (G _ [] d); [apply NoDup_nil_2 | exact E].
Qed.

Lemma string_app_assoc (s t u : string) : (s +:+ t) +:+ u = s +:+ (t +:+ u).
Proof.
  induction s as [|c s IH]; [done|].
  change (String c ((s +:+ t) +:+ u) = String c (s +:+ (t +:+ u))). by f_equal.
Qed.

Lemma string_app_empty_r (s : string) : s +:+ "" = s.
Proof.
  induction s as [|c s IH]; [done|].
  change (String c (s +:+ "") = String c s). by f_equal.
Qed.

Lemma gathered_value_gather k k' s d :
  gathered_value k' (gather k s d)
  = if (k' =? k)%Z then gathered_value k' d +:+ s else gathered_value k' d.
Proof.
  induction d as [|[k0 v] d IH].
  - simpl. by destruct (k' =? k)%Z.
  - cbn [gather]. destruct (Z.eqb_spec k k0) as [->|Hne]; cbn [gathered_value].
    + by destruct (k' =? k0)%Z.
    + rewrite IH. destruct (Z.eqb_spec k' k0) as [->|Hne']; [|done].
      destruct (Z.eqb_spec k0 k); [congruence | done].
Qed.

Lemma gathered_value_elem k v d :
  NoDup d.*1 → (k, v) ∈ d → gathered_value k d = v.
Proof.
  induction d as [|[k0 v0] d IH]; intros Hnd Hin; [by apply elem_of_nil in Hin|].
  apply NoDup_cons in Hnd as [Hk0 Hnd]. cbn [gathered_value].
  apply elem_of_cons in Hin as [[= -> ->]|Hin].
  - by rewrite Z.eqb_refl.
  - destruct (Z.eqb_spec k k0) as [->|Hne]; [|by apply IH].
    destruct Hk0. apply list_elem_of_fmap. by exists (k0, v).
Qed.

(** The loop gathers, under each key, the pieces of the indices with that key,
    in index order. *)
Lemma gather_response_times_value exchanges indices : ∀ d d' k,
  gather_response_times exchanges indices d = Ok d' →
  gathered_value k d' = gathered_value k d +:+ index_pieces exchanges k indices.
Proof.
  induction indices as [|idx indices IH]; intros d d' k; simpl.
  - intros [= <-]. by rewrite string_app_empty_r.
  - unfold seconds_at. destruct (exchanges !! idx) as [e|]; [|done]. simpl.
    intros E. rewrite (IH _ _ k E), gathered_value_gather.
    destruct (Z.eqb_spec k (int_of_time (RESPONSE_TIME e))) as [->|Hne].
    + rewrite decide_True by done. by rewrite !string_app_assoc.
    + rewrite decide_False by congruence. done.
Qed.

(** Every row of the table pairs a key with the indices of the exchanges that
    took that many whole seconds, in ascending index order and separated by a
    space. *)
Lemma do_analyze_response_times_rows exchanges rows k v :
  do_analyze_response_times exchanges = Ok rows →
  (k, v) ∈ rows →
  v = PyStr.strip (index_pieces exchanges k (seq 0 (size exchanges))).
Proof.
  unfold do_analyze_response_times.
  destruct (gather_response_times _ _ _) as [d|] eqn:E; [|done].
  intros [= <-] Hin. apply list_elem_of_fmap in Hin as ([k0 v0] & [= -> ->] & Hin).
  simpl. f_equal.
  assert (Hnd : NoDup d.*1).
  { pose proof (do_analyze_response_times_NoDup exchanges) as H.
    unfold do_analyze_response_times in H. rewrite E in H.
    specialize (H _ eq_refl). rewrite <- list_fmap_compose in H.
    by rewrite (list_fmap_ext _ fst) in H by (by intros ? []). }
  rewrite <- (gathered_value_elem k0 v0 d Hnd Hin).
  by rewrite (gather_response_times_value _ _ _ _ k0 E).
Qed.

(** The times of the specification's test: 0.2, 0.9, 1.1 and 1.05 seconds. *)
Example do_analyze_response_times_example :
  do_analyze_response_times (store_of_times [20; 90; 110; 105]%Z)
  = Ok [ (0%Z, "0 1"); (1%Z, "2 3") ].
Proof. vm_compute. reflexivity. Qed.

(** C5.  The table lists the distinct whole-second keys in ascending order:
    the code breaks this, although its comment announces a sort.  The keys
    come out in the order they were first met: with exchange 0 taking 8.05 s
    and exchange 1 taking 1.1 s the rows are key 8, then key 1. *)
Theorem do_analyze_response_times_unsorted :
  do_analyze_response_times (store_of_times [805; 110]%Z)
  = Ok [ (8%Z, "0"); (1%Z, "1") ]
  ∧ ¬ Sorted Z.le [ (8%Z, "0"); (1%Z, "1") ].*1.
Proof.
  split; [vm_compute; reflexivity|].
  intros H. apply Sorted_inv in H as [_ H]. apply HdRel_inv in H. simpl in H. lia.
Qed.

(** ** JSON export *)

Lemma pykey_eqb_eq k1 k2 : pykey_eqb k1 k2 = true ↔ k1 = k2.
Proof.
  destruct k1 as [a|a], k2 as [b|b]; simpl; try (split; discriminate).
  - rewrite Z.eqb_eq. split; congruence.
  - rewrite String.eqb_eq. split; congruence.
Qed.

(** With pairwise distinct keys, [d[k]] is the value paired with [k]. *)
Lemma items_lookup_Some items k v :
  NoDup items.*1 → items_lookup k items = Some v ↔ (k, v) ∈ items.
Proof.
  induction items as [|[k' v'] items IH]; intros Hnd.
  - simpl. split; [done | by intros ?%elem_of_nil].
  - apply NoDup_cons in Hnd as [Hk' Hnd]. cbn [items_lookup].
    destruct (pykey_eqb k k') eqn:E.
    + apply pykey_eqb_eq in E as ->. split.
      * intros [= ->]. left.
      * intros [[= ->]|Hin]%elem_of_cons; [done|].
        destruct Hk'. apply list_elem_of_fmap. by exists (k', v).
    + rewrite IH by done. split; [by right|].
      intros [[= -> ->]|Hin]%elem_of_cons; [|done].
      assert (pykey_eqb k' k' = true) by by apply pykey_eqb_eq. congruence.
Qed.

(** The order of the items does not matter to [d[k]]. *)
Lemma items_lookup_Permutation items items' k :
  NoDup items.*1 → items ≡ₚ items' → items_lookup k items = items_lookup k items'.
Proof.
  intros Hnd Hp.
  assert (Hnd' : NoDup items'.*1) by by rewrite <- Hp.
  destruct (items_lookup k items) as [v|] eqn:E.
  - symmetry. apply items_lookup_Some; [done|]. rewrite <- Hp.
    by apply items_lookup_Some.
  - destruct (items_lookup k items') as [v|] eqn:E'; [|done].
    apply items_lookup_Some in E'; [|done]. rewrite <- Hp in E'.
    apply items_lookup_Some in E'; [|done]. congruence.
Qed.

Lemma json_loads_dumps_dict items :
  ∃ items', json_loads (json_dumps (PyDict items)) = PyDict items'
            ∧ items' ≡ₚ parsed_back items.
Proof.
  eexists. split; [reflexivity|].
  rewrite <- list_fmap_compose, merge_sort_Permutation, <- list_fmap_compose.
  reflexivity.
Qed.

Lemma pretty_Z_of_nat (n : nat) : pretty (Z.of_nat n) = pretty n.
Proof. destruct n; reflexivity. Qed.

(** The items of the exported store, parsed back: one per exchange, under the
    decimal text of its index. *)
Lemma parsed_back_exchanges (exchanges : gmap nat Exchange) :
  parsed_back
    ((λ kv : nat * Exchange, (KInt (Z.of_nat kv.1), exchange_value kv.2))
       <$> map_to_list exchanges)
  = (λ kv : nat * Exchange,
       (KStr (PyStr.str_of_nat kv.1), json_loads (json_dumps (exchange_value kv.2))))
      <$> map_to_list exchanges.
Proof.
  unfold parsed_back. rewrite <- list_fmap_compose. apply list_fmap_ext.
  intros _ [idx e] _. simpl. by rewrite pretty_Z_of_nat.
Qed.

Lemma parsed_back_exchanges_NoDup (exchanges : gmap nat Exchange) :
  NoDup ((λ kv : nat * Exchange,
            (KStr (PyStr.str_of_nat kv.1),
             json_loads (json_dumps (exchange_value kv.2))))
           <$> map_to_list exchanges).*1.
Proof.
  rewrite <- list_fmap_compose.
  rewrite (list_fmap_ext _ ((λ idx : nat, KStr (PyStr.str_of_nat idx)) ∘ fst));
    [|by intros ? []].
  rewrite list_fmap_compose. apply NoDup_fmap_2.
  - intros i j [= E]. by apply (inj pretty) in E.
  - apply NoDup_fst_map_to_list.
Qed.

(** An exchange's dictionary comes back with the same fields and values. *)
Lemma exchange_value_round_trip e :
  ∃ items, json_loads (json_dumps (exchange_value e)) = PyDict items
           ∧ ∀ k, items_lookup k items = py_lookup k (exchange_value e).
Proof.
  destruct (json_loads_dumps_dict
              [ (KStr "REQUEST", PyStr (REQUEST e));
                (KStr "RESPONSE", PyStr (RESPONSE e));
                (KStr "IS_ERROR", PyBool (IS_ERROR e));
                (KStr "RESPONSE_TIME", PyFloat (RESPONSE_TIME e));
                (KStr "REQUEST_LENGTH", PyInt (Z.of_nat (REQUEST_LENGTH e)));
                (KStr "RESPONSE_LENGTH", PyInt (Z.of_nat (RESPONSE_LENGTH e))) ])
    as (items & Hitems & Hp).
  exists items. split; [exact Hitems|]. intros k.
  symmetry. apply items_lookup_Permutation; [|by symmetry].
  cbn. repeat (apply NoDup_cons; split; [distinct_key|]). apply NoDup_nil_2.
Qed.

(** The parsed-back document is a dictionary whose items are, up to order,
    one item per exchange under the decimal text of its index. *)
Lemma parsed_exchanges (exchanges : gmap nat Exchange) :
  ∃ items,
    json_loads (store_exchanges_to_file exchanges) = PyDict items
    ∧ items ≡ₚ (λ kv : nat * Exchange,
                  (KStr (PyStr.str_of_nat kv.1),
                   json_loads (json_dumps (exchange_value kv.2))))
                 <$> map_to_list exchanges.
Proof.
  unfold store_exchanges_to_file, exchanges_value.
  destruct (json_loads_dumps_dict
              ((λ kv : nat * Exchange, (KInt (Z.of_nat kv.1), exchange_value kv.2))
                 <$> map_to_list exchanges)) as (items & E & Hp).
  exists items. split; [exact E|]. by rewrite Hp, parsed_back_exchanges.
Qed.

(** The member names of the export are the indices written in decimal. *)
Lemma parsed_exchanges_keys (exchanges : gmap nat Exchange) s d :
  py_lookup (KStr s) (json_loads (store_exchanges_to_file exchanges)) = Some d →
  ∃ idx, s = PyStr.str_of_nat idx ∧ is_Some (exchanges !! idx).
Proof.
  destruct (parsed_exchanges exchanges) as (items & -> & Hp). simpl. intros E.
  assert (Hnd : NoDup items.*1)
    by (rewrite Hp; apply parsed_back_exchanges_NoDup).
  apply items_lookup_Some in E; [|done]. rewrite Hp in E.
  apply list_elem_of_fmap in E as ([idx e] & [= -> _] & Hin).
  exists idx. split; [done|]. exists e. by apply elem_of_map_to_list.
Qed.

(** C9, as stated, fails on the index: the store is keyed by the integer 0,
    the parsed-back document by the text ["0"], and the integer finds nothing
    in it. *)
Lemma exported_index_is_text :
  let exchanges := store_of_times [20%Z] in
  py_lookup (KInt 0) (exchanges_value exchanges)
  = Some (exchange_value (exchange_taking 20))
  ∧ py_lookup (KInt 0) (json_loads (store_exchanges_to_file exchanges)) = None
  ∧ ∃ d, json_loads (store_exchanges_to_file exchanges) = PyDict [ (KStr "0", d) ].
Proof. repeat split; [vm_compute; reflexivity .. | eexists; vm_compute; reflexivity]. Qed.

(** C9, amended.  Parsing back the exported document gives, for each recorded
    exchange, a dictionary with exactly the fields and values of the recorder
    (request, response, error flag, response time, request and response
    lengths), found under the decimal text of the exchange's index; the index
    itself comes back as that text and not as an integer. *)
Theorem exported_exchanges_parse_back (exchanges : gmap nat Exchange)
    (idx : nat) (e : Exchange) :
  exchanges !! idx = Some e →
  let parsed := json_loads (store_exchanges_to_file exchanges) in
  (∃ d, py_lookup (KStr (PyStr.str_of_nat idx)) parsed = Some d
        ∧ ∀ k, py_lookup k d = py_lookup k (exchange_value e))
  ∧ py_lookup (KInt (Z.of_nat idx)) parsed = None.
Proof.
  intros Hidx parsed. subst parsed.
  destruct (parsed_exchanges exchanges) as (items & -> & Hp).
  pose proof (parsed_back_exchanges_NoDup exchanges) as Hnd.
  assert (Hnd' : NoDup items.*1) by by rewrite Hp.
  cbn [py_lookup]. split.
  - destruct (exchange_value_round_trip e) as (d & Hd & Hfields).
    exists (PyDict d). split; [|exact Hfields].
    apply items_lookup_Some; [done|]. rewrite Hp.
    apply list_elem_of_fmap. exists (idx, e). split.
    + cbn [fst snd]. by rewrite Hd.
    + by apply elem_of_map_to_list.
  - destruct (items_lookup _ items) as [v|] eqn:E; [|done].
    apply items_lookup_Some in E; [|done]. rewrite Hp in E.
    apply list_elem_of_fmap in E as ([] & [=] & _).
Qed.

Lemma exported_exchanges_parse_back_witness :
  store_of_times [20; 90]%Z !! 1 = Some (exchange_taking 90)
  ∧ let parsed := json_loads (store_exchanges_to_file (store_of_times [20; 90]%Z)) in
    (∃ d, py_lookup (KStr (PyStr.str_of_nat 1)) parsed = Some d
          ∧ ∀ k, py_lookup k d = py_lookup k (exchange_value (exchange_taking 90)))
    ∧ py_lookup (KInt (Z.of_nat 1)) parsed = None.
Proof.
  split; [reflexivity|].
  apply (exported_exchanges_parse_back (store_of_times [20; 90]%Z) 1 (exchange_taking 90)).
  reflexivity.
Defined.

(** ** Connection manager *)

Section ConnectionManager.
Context `{Env : Environment}.

(** [do_connect] on a line it accepts: the three things the transport can do,
    and what the shell is left with in each. *)
Lemma do_connect_spec (l : string) args request (sys : Sys) :
  missing_parameters l = false →
  parse_args (PyStr.split_char space l) = Return args →
  build_request args = Ok request →
  match connect_transport request (world sys) with
  | Handshake_failed e =>
      ∃ sys', do_connect (Some l) sys = (sys', Return tt)
              ∧ shell sys' = shell sys
              ∧ last (output sys') = Some (ConnectionFailed (exn_str e))
  | Liveness_failed c e =>
      ∃ sys', do_connect (Some l) sys = (sys', Return tt)
              ∧ client (shell sys') = Some c
              ∧ client_connection_parameters (shell sys')
                = client_connection_parameters (shell sys)
              ∧ exchanges (shell sys') = exchanges (shell sys)
              ∧ last (output sys') = Some (ConnectionFailed (exn_str e))
  | Validated c =>
      ∃ sys', do_connect (Some l) sys = (sys', Return tt)
              ∧ client (shell sys') = Some c
              ∧ client_connection_parameters (shell sys') = Some l
              ∧ exchanges (shell sys') = exchanges (shell sys)
              ∧ last (output sys') = Some Connected
  end.
Proof.
  intros Hg Hp Hb. unfold missing_parameters in Hg.
  unfold connect_transport, do_connect, client_send, client_recv. unfold_monad.
  rewrite Hg, Hp, Hb. simpl.
  destruct (create_connection request (world sys)) as [w1 [c|e]]; simpl.
  - destruct (ws_send c "hello" w1) as [w2 [[]|e]]; simpl.
    + destruct (ws_recv c w2) as [w3 [r|e]]; simpl;
        (eexists; split; [reflexivity|]; simpl; by rewrite !last_snoc).
    + eexists. split; [reflexivity|]. simpl. by rewrite !last_snoc.
  - eexists. split; [reflexivity|]. simpl. rewrite !last_snoc.
    by destruct (shell sys).
Qed.

(** The first transport call of [do_connect] on an accepted line is the
    handshake with the request built from the line. *)
Lemma do_connect_calls (l : string) args request (sys : Sys) :
  missing_parameters l = false →
  parse_args (PyStr.split_char space l) = Return args →
  build_request args = Ok request →
  ∃ rest, calls (state_after (do_connect (Some l)) sys)
          = (calls sys ++ CallCreate request :: rest)%list.
Proof.
  intros Hg Hp Hb. unfold missing_parameters in Hg.
  unfold do_connect, client_send, client_recv. unfold_monad.
  rewrite Hg, Hp, Hb. simpl.
  destruct (create_connection request (world sys)) as [w1 [c|e]]; simpl.
  - destruct (ws_send c "hello" w1) as [w2 [[]|e]]; simpl.
    + destruct (ws_recv c w2) as [w3 [r|e]]; simpl;
        rewrite <- !(assoc_L (++)); by eexists.
    + rewrite <- !(assoc_L (++)). by eexists.
  - by eexists.
Qed.

(** [do_disconnect] returns, and touches nothing but the client handle, which
    it clears exactly when [close] succeeded. *)
Lemma do_disconnect_spec (sys : Sys) :
  (do_disconnect sys).2 = Return tt
  ∧ client_connection_parameters (shell (state_after do_disconnect sys))
    = client_connection_parameters (shell sys)
  ∧ exchanges (shell (state_after do_disconnect sys)) = exchanges (shell sys)
  ∧ match client (shell sys) with
    | None => state_after do_disconnect sys = sys
    | Some c =>
        match ws_close c (world sys) with
        | (_, Ok _) => client (shell (state_after do_disconnect sys)) = None
        | (_, Raise _) => client (shell (state_after do_disconnect sys)) = Some c
        end
    end.
Proof.
  unfold do_disconnect. unfold_monad.
  destruct (client (shell sys)) as [c|] eqn:Ec; simpl; [|done].
  destruct (ws_close c (world sys)) as [w [[]|e]]; simpl; done.
Qed.

(** With no client, the availability check is [do_connect] on the saved
    parameters. *)
Lemma check_connection_availability_reconnects (sys : Sys) :
  client (shell sys) = None →
  check_connection_availability sys
  = do_connect (client_connection_parameters (shell sys))
      (state_after (print CheckingConnection) sys).
Proof.
  intros Hc. unfold check_connection_availability. unfold_monad. simpl.
  by rewrite Hc.
Qed.

(** C6, amended.  A connect that fails, because the handshake fails or because
    the send or the receive of the validation fails, raises nothing: the
    failure is caught and reported, and the saved connection parameters are
    left as they were; when it is the handshake that fails, the live
    connection handle is left as it was too. *)
Theorem do_connect_failure (l : string) args request (sys : Sys) :
  missing_parameters l = false →
  parse_args (PyStr.split_char space l) = Return args →
  build_request args = Ok request →
  (∀ c, connect_transport request (world sys) ≠ Validated c) →
  ∃ sys', do_connect (Some l) sys = (sys', Return tt)
          ∧ client_connection_parameters (shell sys')
            = client_connection_parameters (shell sys)
          ∧ (∃ e, last (output sys') = Some (ConnectionFailed (exn_str e)))
          ∧ (∀ e, connect_transport request (world sys) = Handshake_failed e →
                  client (shell sys') = client (shell sys)).
Proof.
  intros Hg Hp Hb Hfail.
  pose proof (do_connect_spec l args request sys Hg Hp Hb) as H.
  destruct (connect_transport request (world sys)) as [e|c e|c].
  - destruct H as (sys' & E & Hsh & Hout). exists sys'.
    split_and!; [done | by rewrite Hsh | by exists e | intros; by rewrite Hsh].
  - destruct H as (sys' & E & _ & Hpar & _ & Hout). exists sys'.
    split_and!; [done | done | by exists e | intros; discriminate].
  - by destruct (Hfail c).
Qed.

(** C10, amended.  [do_disconnect] changes nothing but the client handle: the
    saved parameters and the exchanges are as before.  It clears the handle
    when [close] returns; when [close] raises it reports the failure and keeps
    the handle.  After a disconnect that left no client, the availability
    check does not fail for lack of a connection: it returns, having opened a
    connection with the request built from the saved parameters, which stay
    saved; when the endpoint answers, the shell holds the new connection. *)
Theorem disconnect_then_reconnect (l : string) args request (sys : Sys) :
  client_connection_parameters (shell sys) = Some l →
  missing_parameters l = false →
  parse_args (PyStr.split_char space l) = Return args →
  build_request args = Ok request →
  let sys1 := state_after do_disconnect sys in
  (do_disconnect sys).2 = Return tt
  ∧ client_connection_parameters (shell sys1) = Some l
  ∧ exchanges (shell sys1) = exchanges (shell sys)
  ∧ (∀ c w, client (shell sys) = Some c → ws_close c (world sys) = (w, Ok tt) →
            client (shell sys1) = None)
  ∧ (∀ c w e, client (shell sys) = Some c → ws_close c (world sys) = (w, Raise e) →
              client (shell sys1) = Some c
              ∧ last (output sys1) = Some (CloseConnectionFailed (exn_str e)))
  ∧ (client (shell sys1) = None →
     ∃ sys2, check_connection_availability sys1 = (sys2, Return tt)
             ∧ client_connection_parameters (shell sys2) = Some l
             ∧ (∃ rest, calls sys2 = (calls sys1 ++ CallCreate request :: rest)%list)
             ∧ (∀ c, connect_transport request (world sys1) = Validated c →
                     client (shell sys2) = Some c)).
Proof.
  intros Hl Hg Hp Hb sys1.
  destruct (do_disconnect_spec sys) as (Hret & Hpar & Hex & Hcl).
  fold sys1 in Hpar, Hex, Hcl.
  split_and!; [done | by rewrite Hpar | done | | |].
  - intros c w Hc Hw. by rewrite Hc, Hw in Hcl.
  - intros c w e Hc Hw. split; [by rewrite Hc, Hw in Hcl|].
    unfold sys1, state_after, do_disconnect. unfold_monad.
    rewrite Hc. simpl. rewrite Hw. simpl. by rewrite last_snoc.
  - intros Hnone.
    rewrite (check_connection_availability_reconnects sys1 Hnone), Hpar, Hl.
    set (sys1' := state_after (print CheckingConnection) sys1).
    pose proof (do_connect_spec l args request sys1' Hg Hp Hb) as H.
    destruct (do_connect_calls l args request sys1' Hg Hp Hb) as (rest & Hcalls).
    assert (Hw : world sys1' = world sys1) by done.
    assert (Hs : shell sys1' = shell sys1) by done.
    assert (Hc : calls sys1' = calls sys1) by done.
    rewrite Hw in H. rewrite Hc in Hcalls. unfold state_after in Hcalls.
    destruct (connect_transport request (world sys1)) as [e|c e|c].
    + destruct H as (sys2 & E & Hsh & _). exists sys2. rewrite E in *.
      split_and!; [done | by rewrite Hsh, Hs, Hpar | by exists rest | discriminate].
    + destruct H as (sys2 & E & _ & Hpar2 & _). exists sys2. rewrite E in *.
      split_and!; [done | by rewrite Hpar2, Hs, Hpar | by exists rest | discriminate].
    + destruct H as (sys2 & E & Hc2 & Hpar2 & _). exists sys2. rewrite E in *.
      split_and!; [done | done | by exists rest | by intros ? [= <-]].
Qed.

End ConnectionManager.

(** C6, as stated, fails: when the endpoint accepts the handshake and the
    validation send fails, [do_connect] returns without raising and the shell
    holds the new connection 1 in place of the connection 0 it had. *)
Lemma do_connect_liveness_failure :
  let sys := connected_sys mute_script in
  let after := do_connect (Env := scripted mute_script) (Some connect_line) sys in
  connect_transport (Env := scripted mute_script) echo_request (world sys)
  = @Liveness_failed (scripted mute_script) 1
      (Exn WebSocketException "Connection is already closed.")
  ∧ after.2 = Return tt
  ∧ client (shell sys) = Some 0
  ∧ client (shell after.1) = Some 1.
Proof. repeat split; vm_compute; reflexivity. Qed.

Lemma do_connect_failure_witness :
  let sys := connected_sys one_connection_script in
  ∃ sys', do_connect (Env := scripted one_connection_script) (Some connect_line) sys
          = (sys', Return tt)
          ∧ client_connection_parameters (shell sys')
            = client_connection_parameters (shell sys)
          ∧ (∃ e, last (output sys') = Some (ConnectionFailed (exn_str e)))
          ∧ (∀ e, connect_transport (Env := scripted one_connection_script)
                    echo_request (world sys) = Handshake_failed e →
                  client (shell sys') = client (shell sys)).
Proof.
  intros sys.
  apply (do_connect_failure (Env := scripted one_connection_script) connect_line
           (Namespace (Some "ws://echo.websocket.org") None None None)
           echo_request sys).
  - reflexivity.
  - reflexivity.
  - reflexivity.
  - intros c. vm_compute. discriminate.
Defined.

Lemma disconnect_then_reconnect_witness :
  let sys := connected_sys echo_script in
  let sys1 := state_after (do_disconnect (Env := scripted echo_script)) sys in
  (do_disconnect (Env := scripted echo_script) sys).2 = Return tt
  ∧ client_connection_parameters (shell sys1) = Some connect_line
  ∧ exchanges (shell sys1) = exchanges (shell sys)
  ∧ (∀ c w, client (shell sys) = Some c →
            ws_close (Environment := scripted echo_script) c (world sys) = (w, Ok tt) →
            client (shell sys1) = None)
  ∧ (∀ c w e, client (shell sys) = Some c →
              ws_close (Environment := scripted echo_script) c (world sys)
              = (w, Raise e) →
              client (shell sys1) = Some c
              ∧ last (output sys1) = Some (CloseConnectionFailed (exn_str e)))
  ∧ (client (shell sys1) = None →
     ∃ sys2, check_connection_availability (Env := scripted echo_script) sys1
             = (sys2, Return tt)
             ∧ client_connection_parameters (shell sys2) = Some connect_line
             ∧ (∃ rest, calls sys2 = (calls sys1 ++ CallCreate echo_request :: rest)%list)
             ∧ (∀ c, connect_transport (Env := scripted echo_script) echo_request
                       (world sys1) = Validated c →
                     client (shell sys2) = Some c)).
Proof.
  intros sys.
  apply (disconnect_then_reconnect (Env := scripted echo_script) connect_line
           (Namespace (Some "ws://echo.websocket.org") None None None)
           echo_request sys); reflexivity.
Defined.

(** C10, as stated, fails: on an endpoint where [close] raises, [do_disconnect]
    reports the failure and keeps the handle, and the availability check that
    follows does not reconnect: it makes no open call and goes on with the
    connection that was to be closed. *)
Lemma disconnect_close_fails_no_reconnect :
  let sys := connected_sys stuck_script in
  let sys1 := state_after (do_disconnect (Env := scripted stuck_script)) sys in
  let after := check_connection_availability (Env := scripted stuck_script) sys1 in
  client (shell sys) = Some 0
  ∧ client (shell sys1) = Some 0
  ∧ last (output sys1) = Some (CloseConnectionFailed "socket is already closed.")
  ∧ after.2 = Return tt
  ∧ creates_of (calls after.1) = creates_of (calls sys1)
  ∧ client (shell after.1) = Some 0.
Proof. repeat split; vm_compute; reflexivity. Qed.

(** ** Bulk exchange driver *)

Section BulkExchange.
Context `{Env : Environment}.

Lemma sends_of_app m (cs1 cs2 : list call) :
  sends_of m (cs1 ++ cs2) = sends_of m cs1 + sends_of m cs2.
Proof.
  induction cs1 as [|[] cs1 IH]; simpl; rewrite ?IH; lia.
Qed.

Lemma eqb_ne m m' : m ≠ m' → String.eqb m m' = false.
Proof. intros. by apply String.eqb_neq. Qed.

Ltac keeps_tac :=
  split_and!; simpl;
  [ done
  | try done
  | intros m Hh Ht; rewrite ?sends_of_app; simpl;
    rewrite ?(eqb_ne _ _ Hh), ?(eqb_ne _ _ Ht); lia ].

(** [do_connect] keeps the store, saves only a line that parses, sends no
    message but its greeting, and leaves only by returning or, on a line
    [argparse] rejects, by [SystemExit]. *)
Lemma do_connect_keeps line (sys : Sys) :
  keeps sys (do_connect line sys).1
  ∧ ((do_connect line sys).2 = Return tt
     ∨ ((do_connect line sys).2 = SystemExit
        ∧ ∃ l, line = Some l ∧ parse_args (PyStr.split_char space l) = SystemExit)).
Proof.
  unfold keeps, do_connect, client_send, client_recv. unfold_monad.
  destruct line as [l|]; simpl; [|split; [keeps_tac | by left]].
  destruct (_ || _); simpl; [split; [keeps_tac | by left]|].
  destruct (parse_args _) as [args|e|] eqn:Hp; simpl;
    [| split; [keeps_tac | by left] | split; [keeps_tac | right; eauto]].
  destruct (build_request args) as [request|e]; simpl; [|split; [keeps_tac | by left]].
  destruct (create_connection request (world sys)) as [w1 [c|e]]; simpl;
    [|split; [keeps_tac | by left]].
  destruct (ws_send c "hello" w1) as [w2 [[]|e]]; simpl;
    [|split; [keeps_tac | by left]].
  destruct (ws_recv c w2) as [w3 [r|e]]; simpl; (split; [keeps_tac | by left]).
  intros _ l' [= <-]. eauto.
Qed.

Lemma do_connect_saved_keeps (sys : Sys) :
  saved_parameters_parse (shell sys) →
  keeps sys (do_connect (client_connection_parameters (shell sys)) sys).1
  ∧ (do_connect (client_connection_parameters (shell sys)) sys).2 = Return tt.
Proof.
  intros Hinv.
  destruct (do_connect_keeps (client_connection_parameters (shell sys)) sys)
    as [Hk [Hr|(_ & l & Hl & Hp)]]; [done|].
  destruct (Hinv l Hl) as [args Hargs]. congruence.
Qed.

Lemma keeps_refl (s : Sys) : keeps s s.
Proof. by split_and!. Qed.

Lemma keeps_trans (s1 s2 s3 : Sys) : keeps s1 s2 → keeps s2 s3 → keeps s1 s3.
Proof.
  intros (E1 & I1 & C1) (E2 & I2 & C2). split_and!.
  - by rewrite E2.
  - auto.
  - intros m Hh Ht. by rewrite C2, C1.
Qed.

(** The availability check keeps the store and the saved parameters, sends
    nothing but liveness messages and, on a shell whose saved parameters
    parse, never leaves by [SystemExit]. *)
Lemma check_connection_availability_keeps (sys : Sys) :
  saved_parameters_parse (shell sys) →
  keeps sys (check_connection_availability sys).1
  ∧ (check_connection_availability sys).2 ≠ SystemExit.
Proof.
  intros Hinv.
  assert (Hreconnect : ∀ s2 : Sys,
            keeps sys s2 →
            keeps sys (do_connect (client_connection_parameters (shell s2)) s2).1
            ∧ (do_connect (client_connection_parameters (shell s2)) s2).2
              ≠ SystemExit).
  { intros s2 K2. destruct (do_connect_saved_keeps s2) as [K E]; [by apply K2|].
    rewrite E. split; [by eapply keeps_trans | done]. }
  unfold check_connection_availability, client_send, client_recv.
  unfold_monad. simpl.
  destruct (client (shell sys)) as [c|] eqn:Ec; simpl; rewrite ?Ec; simpl.
  - destruct (ws_send c "TestAliveState" (world sys)) as [w1 [[]|e]] eqn:Es;
      simpl; rewrite ?Ec; simpl.
    + destruct (ws_recv c w1) as [w2 [r|e]] eqn:Er; simpl.
      * split; [|done]. unfold keeps; keeps_tac.
      * destruct (is_WebSocketConnectionClosedException e); simpl;
          [|split; [unfold keeps; keeps_tac | done]].
        match goal with |- context [do_connect _ ?s] => set (s2 := s) end.
        destruct (Hreconnect s2) as [K E]; [unfold keeps; keeps_tac|].
        simpl in K, E. by destruct (do_connect _ s2) as [s3 []].
    + destruct (is_WebSocketConnectionClosedException e); simpl;
        [|split; [unfold keeps; keeps_tac | done]].
      match goal with |- context [do_connect _ ?s] => set (s2 := s) end.
      destruct (Hreconnect s2) as [K E]; [unfold keeps; keeps_tac|].
      simpl in K, E. by destruct (do_connect _ s2) as [s3 []].
  - match goal with |- context [do_connect _ ?s] => set (s2 := s) end.
    destruct (Hreconnect s2) as [K E]; [unfold keeps; keeps_tac|].
    simpl in K, E. by destruct (do_connect _ s2) as [s3 []].
Qed.

(** One attempt keeps the store and the saved parameters, never leaves by
    [SystemExit], and hands the message to [send] at most once. *)
Lemma exchange_attempt_spec msg (sys : Sys) :
  saved_parameters_parse (shell sys) →
  (exchange_attempt msg sys).2 ≠ SystemExit
  ∧ exchanges (shell (exchange_attempt msg sys).1) = exchanges (shell sys)
  ∧ saved_parameters_parse (shell (exchange_attempt msg sys).1)
  ∧ ∀ m, m ≠ "hello" → m ≠ "TestAliveState" →
         sends_of m (calls (exchange_attempt msg sys).1)
         ≤ sends_of m (calls sys) + (if String.eqb m msg then 1 else 0).
Proof.
  intros Hinv. unfold exchange_attempt.
  destruct (check_connection_availability_keeps sys Hinv) as [(Ex & Inv & Cs) Hne].
  unfold bind.
  destruct (check_connection_availability sys) as [s1 [[]|e|]]; simpl in *;
    [| split_and!; [done | done | by apply Inv | intros m ? ?; rewrite Cs by done; lia]
     | done].
  specialize (Inv Hinv). unfold client_send, client_recv. unfold_monad. simpl.
  destruct (client (shell s1)) as [c|] eqn:Ec; simpl; rewrite ?Ec; simpl;
    [| split_and!; [done | done | done | intros m ? ?; rewrite Cs by done; lia]].
  destruct (ws_send c msg (world s1)) as [w2 [[]|e]]; simpl; rewrite ?Ec; simpl.
  - destruct (ws_recv c w2) as [w3 [r|e]]; simpl;
      (split_and!; [done | done | done |]);
      intros m ? ?; rewrite !sends_of_app, Cs by done; simpl; lia.
  - split_and!; [done | done | done |].
    intros m ? ?; rewrite !sends_of_app, Cs by done; simpl; lia.
Qed.

(** One turn of the loop: it returns, and the store gains at [idx] the record
    of the one attempt made after the clock was read. *)
Lemma send_message_spec msg idx ec (sys : Sys) :
  saved_parameters_parse (shell sys) →
  ∃ sys' e,
    send_message msg idx ec sys
    = (sys', Return (ec + (if IS_ERROR e then 1 else 0)))
    ∧ saved_parameters_parse (shell sys')
    ∧ exchanges (shell sys') = <[ idx := e ]> (exchanges (shell sys))
    ∧ records e msg (exchange_attempt msg (state_after clock sys)).2
    ∧ ∀ m, m ≠ "hello" → m ≠ "TestAliveState" →
           sends_of m (calls sys')
           ≤ sends_of m (calls sys) + (if String.eqb m msg then 1 else 0).
Proof.
  intros Hinv. unfold send_message, state_after, clock.
  unfold bind at 1.
  destruct (time_clock (world sys)) as [w1 start]. cbn beta iota. cbn [fst].
  set (s1 := MkSys w1 (shell sys) (output sys) (calls sys)).
  destruct (exchange_attempt_spec msg s1 Hinv) as (Hne & Ex & Inv & Cs).
  unfold bind at 1, try_except at 1, bind at 1.
  destruct (exchange_attempt msg s1) as [s2 [response|err|]]; simpl in *; [| |done].
  - unfold_monad. simpl. destruct (time_clock (world s2)) as [w3 stop]. simpl.
    eexists _, (Build_Exchange msg response false _ _ _). simpl.
    split_and!; [rewrite Nat.add_0_r; reflexivity | done | by rewrite Ex | done | done].
  - unfold_monad. simpl. destruct (time_clock (world s2)) as [w3 stop]. simpl.
    eexists _, (Build_Exchange msg (exn_str err) true _ _ _). simpl.
    split_and!; [reflexivity | done | by rewrite Ex | done | done].
Qed.

Lemma entry_frame (ex : gmap nat Exchange) idx e j :
  j ≠ idx → <[ idx := e ]> ex !! j = ex !! j.
Proof. intros. by apply lookup_insert_ne. Qed.

(** The loop over the messages. *)
Lemma send_messages_loop_spec msgs : ∀ idx ec (sys : Sys),
  saved_parameters_parse (shell sys) →
  ∃ sys' ec',
    send_messages_loop msgs idx ec sys = (sys', Return ec')
    ∧ saved_parameters_parse (shell sys')
    ∧ (∀ j, j < idx ∨ idx + length msgs ≤ j →
            exchanges (shell sys') !! j = exchanges (shell sys) !! j)
    ∧ (∀ i msg, msgs !! i = Some msg →
         ∃ e, exchanges (shell sys') !! (idx + i) = Some e
              ∧ records e msg
                  (exchange_attempt msg
                     (state_after clock
                        (state_after (send_messages_loop (take i msgs) idx ec) sys))).2)
    ∧ ec' = ec + length (List.filter (is_error_at (exchanges (shell sys')))
                           (seq idx (length msgs)))
    ∧ ∀ m, m ≠ "hello" → m ≠ "TestAliveState" →
           sends_of m (calls sys') ≤ sends_of m (calls sys) + occurrences m msgs.
Proof.
  induction msgs as [|msg msgs IH]; intros idx ec sys Hinv.
  - exists sys, ec. simpl. split_and!; try done; try lia;
      intros; unfold occurrences; simpl; lia.
  - destruct (send_message_spec msg idx ec sys Hinv)
      as (s1 & e & E1 & Inv1 & Ex1 & Rec1 & Cs1).
    destruct (IH (idx + 1) (ec + (if IS_ERROR e then 1 else 0)) s1 Inv1)
      as (sys' & ec' & E & Inv & Frame & Entries & Count & Cs).
    exists sys', ec'.
    assert (Hidx : exchanges (shell sys') !! idx = Some e).
    { rewrite Frame by lia. rewrite Ex1. apply lookup_insert_eq. }
    split_and!.
    + cbn [send_messages_loop]. unfold bind at 1. by rewrite E1.
    + done.
    + intros j Hj. simpl in Hj. rewrite Frame by lia. rewrite Ex1.
      apply lookup_insert_ne. lia.
    + intros [|i] m Hm.
      * injection Hm as <-. exists e. rewrite Nat.add_0_r. by split.
      * destruct (Entries i m Hm) as (e' & He' & Rec).
        exists e'. split; [by replace (idx + S i) with (idx + 1 + i) by lia|].
        cbn [take send_messages_loop]. unfold state_after at 2.
        unfold bind at 1. rewrite E1. exact Rec.
    + rewrite Count. cbn [length seq List.filter].
      unfold is_error_at at 2. rewrite Hidx.
      replace (idx + 1) with (S idx) by lia. destruct (IS_ERROR e); simpl; lia.
    + intros m Hh Ht. specialize (Cs m Hh Ht). specialize (Cs1 m Hh Ht).
      unfold occurrences in *. cbn [List.filter].
      destruct (String.eqb m msg); simpl; lia.
Qed.

(** The hypothesis on the saved parameters holds when the shell starts, and
    every [do_connect] keeps it ([do_connect_keeps]). *)
Lemma saved_parameters_parse_initial (sh : Shell) :
  client_connection_parameters sh = None → saved_parameters_parse sh.
Proof. intros Hn l Hl. congruence. Qed.

(** The attempt made for a message is the availability check followed, when
    the check returns, by the exchange on the transport. *)
Lemma exchange_attempt_transport msg (s : Sys) :
  match (check_connection_availability s).2 with
  | Return _ =>
      let s1 := (check_connection_availability s).1 in
      calls (exchange_attempt msg s).1 = calls s1 ++ exchange_calls msg (exchange_transport msg s1)
      ∧ (exchange_attempt msg s).2
        = match exchange_transport msg s1 with
          | Answered _ response => Return response
          | No_client e | Send_failed _ e | Receive_failed _ e => Raised e
          end
  | Raised e =>
      exchange_attempt msg s = ((check_connection_availability s).1, Raised e)
  | SystemExit =>
      exchange_attempt msg s = ((check_connection_availability s).1, SystemExit)
  end.
Proof.
  unfold exchange_attempt, exchange_transport, client_send, client_recv.
  unfold_monad.
  destruct (check_connection_availability s) as [s1 [[]|e|]]; cbn [fst snd]; [|done..].
  simpl.
  destruct (client (shell s1)) as [c|] eqn:Ec; simpl; rewrite ?Ec; simpl;
    [|by rewrite app_nil_r].
  destruct (ws_send c msg (world s1)) as [w2 [[]|e]]; simpl; rewrite ?Ec; simpl; [|done].
  destruct (ws_recv c w2) as [w3 [r|e]]; simpl; by rewrite <- app_assoc.
Qed.

(** One turn of the loop makes the transport calls of its attempt and no
    other. *)
Lemma send_message_calls msg idx ec (s : Sys) :
  calls (send_message msg idx ec s).1
  = calls (exchange_attempt msg (state_after clock s)).1.
Proof.
  unfold send_message, state_after, clock. unfold bind at 1.
  destruct (time_clock (world s)) as [w1 start]. cbn beta iota. cbn [fst].
  unfold bind at 1, try_except at 1, bind at 1.
  destruct (exchange_attempt msg _) as [s2 [response|err|]]; simpl; [| |done].
  - unfold_monad. simpl. by destruct (time_clock (world s2)).
  - unfold_monad. simpl. by destruct (time_clock (world s2)).
Qed.

Lemma send_messages_loop_app l1 l2 : ∀ idx ec (s : Sys),
  send_messages_loop (l1 ++ l2) idx ec s
  = match send_messages_loop l1 idx ec s with
    | (s1, Return ec1) => send_messages_loop l2 (idx + length l1) ec1 s1
    | (s1, Raised e) => (s1, Raised e)
    | (s1, SystemExit) => (s1, SystemExit)
    end.
Proof.
  induction l1 as [|m l1 IH]; intros idx ec s.
  - simpl. unfold ret. by rewrite Nat.add_0_r.
  - cbn [app send_messages_loop length]. unfold bind.
    destruct (send_message m idx ec s) as [s1 [ec1|e|]]; [|done..].
    rewrite IH. by replace (idx + 1 + length l1) with (idx + S (length l1)) by lia.
Qed.

(** The turn after a message is reached by the attempt made for it. *)
Lemma turn_step msgs idx msg (s : Sys) :
  saved_parameters_parse (shell s) →
  msgs !! idx = Some msg →
  calls (turn msgs (S idx) s)
  = calls (exchange_attempt msg (state_after clock (turn msgs idx s))).1.
Proof.
  intros Hinv Hm. unfold turn.
  set (s0 := state_after (print SendingMessages) s).
  rewrite (take_S_r _ _ _ Hm). unfold state_after at 1.
  rewrite send_messages_loop_app.
  destruct (send_messages_loop_spec (take idx msgs) 0 0 s0 Hinv)
    as (s1 & ec & E & _).
  unfold state_after at 2. rewrite E. cbn [fst send_messages_loop].
  unfold bind, ret.
  pose proof (send_message_calls msg (0 + length (take idx msgs)) ec s1) as Hc.
  destruct (send_message msg _ ec s1) as [s2 [ec2|e|]]; exact Hc.
Qed.

(** C2, amended.  Started on an empty store, [__send_messages] returns after
    it has recorded one entry per message under the indices 0 to N-1, in the
    order of the list.  When the turn of a message comes the availability
    check is made first; it sends nothing but liveness messages.  If the
    check returns, the message is handed to the
    transport once: one [send] on the connection of the shell and, when it
    succeeds, one [recv]; the entry holds the response, or the error flag and
    the text of the exception when there is no connection or when [send] or
    [recv] raises.  If the check itself raises, the message is not handed to
    the transport at all, and the entry holds the error flag and the text of
    that exception.  Nothing is retried, the loop goes on to the next
    message, and the error count reported is the number of flagged
    entries. *)
Theorem send_messages_exchanges (msgs : list string) (sys : Sys) :
  exchanges (shell sys) = ∅ →
  saved_parameters_parse (shell sys) →
  ∃ sys',
    send_messages msgs sys = (sys', Return tt)
    ∧ (∀ idx, is_Some (exchanges (shell sys') !! idx) ↔ idx < length msgs)
    ∧ calls (turn msgs 0 sys) = calls sys
    ∧ calls sys' = calls (turn msgs (length msgs) sys)
    ∧ (∀ idx msg, msgs !! idx = Some msg →
         let checked :=
           check_connection_availability (state_after clock (turn msgs idx sys)) in
         ∃ e, exchanges (shell sys') !! idx = Some e
              ∧ REQUEST e = msg
              ∧ REQUEST_LENGTH e = String.length msg
              ∧ RESPONSE_LENGTH e = String.length (RESPONSE e)
              ∧ (∀ m, m ≠ "hello" → m ≠ "TestAliveState" →
                      sends_of m (calls checked.1)
                      = sends_of m (calls (turn msgs idx sys)))
              ∧ match checked.2 with
                | Return _ =>
                    calls (turn msgs (S idx) sys)
                    = calls checked.1
                      ++ exchange_calls msg (exchange_transport msg checked.1)
                    ∧ match exchange_transport msg checked.1 with
                      | Answered _ response =>
                          IS_ERROR e = false ∧ RESPONSE e = response
                      | No_client err | Send_failed _ err | Receive_failed _ err =>
                          IS_ERROR e = true ∧ RESPONSE e = exn_str err
                      end
                | Raised err =>
                    calls (turn msgs (S idx) sys) = calls checked.1
                    ∧ IS_ERROR e = true ∧ RESPONSE e = exn_str err
                | SystemExit => False
                end)
    ∧ last (output sys')
      = Some (MessagesSent (length msgs)
                (error_entries (exchanges (shell sys')) (length msgs))
                (length msgs - error_entries (exchanges (shell sys')) (length msgs)))
    ∧ ∀ m, m ≠ "hello" → m ≠ "TestAliveState" →
           sends_of m (calls sys') ≤ sends_of m (calls sys) + occurrences m msgs.
Proof.
  intros Hempty Hinv. unfold send_messages.
  set (sys0 := state_after (print SendingMessages) sys).
  destruct (send_messages_loop_spec msgs 0 0 sys0 Hinv)
    as (s1 & ec & E & Inv & Frame & Entries & Count & Cs).
  unfold bind at 1. change (print SendingMessages sys) with (sys0, Return tt).
  cbn beta iota. unfold bind at 1. rewrite E. cbn beta iota.
  eexists. split; [reflexivity|]. cbn [shell output calls].
  simpl in Count. fold (error_entries (exchanges (shell s1)) (length msgs)) in Count.
  subst ec. split_and!.
  - intros idx. split.
    + intros Hsome. destruct (decide (idx < length msgs)) as [|Hge]; [done|].
      rewrite Frame in Hsome by (simpl; lia).
      change (exchanges (shell sys0)) with (exchanges (shell sys)) in Hsome.
      rewrite Hempty, lookup_empty in Hsome. by destruct Hsome.
    + intros Hlt. destruct (lookup_lt_is_Some_2 msgs idx Hlt) as [m Hm].
      destruct (Entries idx m Hm) as (e & He & _). by exists e.
  - reflexivity.
  - unfold turn. rewrite firstn_all. fold sys0. unfold state_after at 1.
    by rewrite E.
  - intros idx m Hm.
    set (checked := check_connection_availability
                      (state_after clock (turn msgs idx sys))).
    destruct (Entries idx m Hm) as (e & He & Hreq & Hlen & Hrlen & Rec).
    exists e. split_and!; [done..| |].
    { destruct (send_messages_loop_spec (take idx msgs) 0 0 sys0 Hinv)
        as (st & ect & Et & Invt & _).
      assert (Hturn : turn msgs idx sys = st).
      { unfold turn. fold sys0. unfold state_after. by rewrite Et. }
      assert (Hclock : shell (state_after clock st) = shell st
                       ∧ calls (state_after clock st) = calls st).
      { unfold state_after, clock. by destruct (time_clock (world st)). }
      destruct Hclock as [Hsh Hcs].
      destruct (check_connection_availability_keeps (state_after clock st))
        as [(_ & _ & Hsends) _]; [by rewrite Hsh|].
      intros m0 Hh Ht. unfold checked. rewrite Hturn, (Hsends m0 Hh Ht).
      by rewrite Hcs. }
    change (state_after (send_messages_loop (take idx msgs) 0 0) sys0)
      with (turn msgs idx sys) in Rec.
    rewrite (turn_step msgs idx m sys Hinv Hm).
    pose proof (exchange_attempt_transport m (state_after clock (turn msgs idx sys)))
      as Ht.
    fold checked in Ht. destruct (checked.2) as [[]|err|].
    + cbn zeta in Ht. destruct Ht as [Hcalls Hout]. split; [exact Hcalls|].
      rewrite Hout in Rec. by destruct (exchange_transport m checked.1).
    + rewrite Ht in Rec |- *. by split.
    + rewrite Ht in Rec. exact Rec.
  - by rewrite last_snoc.
  - exact Cs.
Qed.

End BulkExchange.

(** The test of the specification: five messages, the third fails. *)
Example send_messages_third_fails :
  let after :=
    send_messages (Env := scripted m3_fails_script) ["m1"; "m2"; "m3"; "m4"; "m5"]
      (connected_sys m3_fails_script) in
  after.2 = Return tt
  ∧ size (exchanges (shell after.1)) = 5
  ∧ (λ e, (REQUEST e, IS_ERROR e, RESPONSE e)) <$> exchanges (shell after.1) !! 2
    = Some ("m3", true, "socket is already closed.")
  ∧ List.filter (is_error_at (exchanges (shell after.1))) (seq 0 5) = [2]
  ∧ last (output after.1) = Some (MessagesSent 5 1 4)
  ∧ sends_of "m3" (calls after.1) = 1.
Proof. repeat split; vm_compute; reflexivity. Qed.


(** C2, as stated, fails: on an endpoint where every send from the third on
    fails with [IOError], the send of the first message fails, and the two
    messages after it are never handed to the transport: their availability
    check raises, and the three entries are flagged. *)
Lemma send_messages_remaining_not_sent :
  let after :=
    send_messages (Env := scripted (broken_pipe_script 2)) ["m1"; "m2"; "m3"]
      (connected_sys (broken_pipe_script 2)) in
  after.2 = Return tt
  ∧ (λ e, (REQUEST e, IS_ERROR e, RESPONSE e)) <$> exchanges (shell after.1) !! 0
    = Some ("m1", true, "[Errno 32] Broken pipe")
  ∧ List.filter (is_error_at (exchanges (shell after.1))) (seq 0 3) = [0; 1; 2]
  ∧ last (output after.1) = Some (MessagesSent 3 3 0)
  ∧ sends_of "m1" (calls after.1) = 1
  ∧ sends_of "m2" (calls after.1) = 0
  ∧ sends_of "m3" (calls after.1) = 0.
Proof. repeat split; vm_compute; reflexivity. Qed.

Lemma send_messages_exchanges_witness :
  let sys := connected_sys m3_fails_script in
  let msgs := ["m1"; "m2"; "m3"; "m4"; "m5"] in
  ∃ sys',
    send_messages (Env := scripted m3_fails_script) msgs sys = (sys', Return tt)
    ∧ (∀ idx, is_Some (exchanges (shell sys') !! idx) ↔ idx < length msgs)
    ∧ calls (turn msgs 0 sys) = calls sys
    ∧ calls sys' = calls (turn msgs (length msgs) sys)
    ∧ (∀ idx msg, msgs !! idx = Some msg →
         let checked :=
           check_connection_availability (Env := scripted m3_fails_script)
             (state_after clock (turn msgs idx sys)) in
         ∃ e, exchanges (shell sys') !! idx = Some e
              ∧ REQUEST e = msg
              ∧ REQUEST_LENGTH e = String.length msg
              ∧ RESPONSE_LENGTH e = String.length (RESPONSE e)
              ∧ (∀ m, m ≠ "hello" → m ≠ "TestAliveState" →
                      sends_of m (calls checked.1)
                      = sends_of m (calls (turn msgs idx sys)))
              ∧ match checked.2 with
                | Return _ =>
                    calls (turn msgs (S idx) sys)
                    = calls checked.1
                      ++ exchange_calls msg (exchange_transport msg checked.1)
                    ∧ match exchange_transport msg checked.1 with
                      | Answered _ response =>
                          IS_ERROR e = false ∧ RESPONSE e = response
                      | No_client err | Send_failed _ err | Receive_failed _ err =>
                          IS_ERROR e = true ∧ RESPONSE e = exn_str err
                      end
                | Raised err =>
                    calls (turn msgs (S idx) sys) = calls checked.1
                    ∧ IS_ERROR e = true ∧ RESPONSE e = exn_str err
                | SystemExit => False
                end)
    ∧ last (output sys')
      = Some (MessagesSent (length msgs)
                (error_entries (exchanges (shell sys')) (length msgs))
                (length msgs - error_entries (exchanges (shell sys')) (length msgs)))
    ∧ ∀ m, m ≠ "hello" → m ≠ "TestAliveState" →
           sends_of m (calls sys') ≤ sends_of m (calls sys) + occurrences m msgs.
Proof.
  intros sys msgs.
  apply (send_messages_exchanges (Env := scripted m3_fails_script) msgs sys).
  - reflexivity.
  - intros l Hl. vm_compute in Hl. injection Hl as <-. eexists. vm_compute. reflexivity.
Defined.

(** ** Limit probers *)

Section LimitProbers.
Context `{Env : Environment}.

Lemma closes_of_app (cs1 cs2 : list call) :
  closes_of (cs1 ++ cs2) = closes_of cs1 ++ closes_of cs2.
Proof. induction cs1 as [|[] cs1 IH]; simpl; by rewrite ?IH. Qed.

(** The length loop leaves at the first size the endpoint refuses, with the
    size of the step before. *)
Lemma length_probe_loop_breaks k : ∀ fuel idx (sys : Sys) c w' w'' e,
  client (shell sys) = Some c →
  sends_accepted c (world sys) idx k = Some w' →
  ws_send c (filler (idx + 10 * Z.of_nat k)) w' = (w'', Raise e) →
  WebSocketException_or_IOError e = true →
  k < fuel →
  ∃ sys', length_probe_loop fuel idx sys
          = (sys', Return (idx + 10 * Z.of_nat k - 10)%Z)
          ∧ world sys' = w'' ∧ shell sys' = shell sys.
Proof.
  unfold filler.
  induction k as [|k IH]; intros fuel idx sys c w' w'' e Hc Hacc Hfail He Hk;
    (destruct fuel as [|fuel]; [lia|]).
  - simpl in Hacc. injection Hacc as <-.
    replace (idx + 10 * Z.of_nat 0)%Z with idx in * by lia.
    cbn [length_probe_loop]. unfold client_send. unfold_monad.
    destruct (idx mod 1000 =? 0)%Z; simpl; rewrite Hc; simpl;
      rewrite Hfail; simpl; rewrite He; simpl; by eexists.
  - cbn [sends_accepted] in Hacc. unfold filler in Hacc.
    destruct (ws_send c _ (world sys)) as [w1 [[]|e1]] eqn:Es; [|done].
    replace (idx + 10 * Z.of_nat (S k))%Z with (idx + 10 + 10 * Z.of_nat k)%Z in * by lia.
    cbn [length_probe_loop]. unfold client_send. unfold_monad.
    destruct (idx mod 1000 =? 0)%Z; simpl; rewrite Hc; simpl; rewrite Es; simpl.
    + match goal with |- context [length_probe_loop fuel _ ?s] => set (s1 := s) end.
      destruct (IH fuel (idx + 10)%Z s1 c w' w'' e) as (sys' & E & Hw & Hs);
        [done | done | done | done | lia |].
      exists sys'. by rewrite E.
    + match goal with |- context [length_probe_loop fuel _ ?s] => set (s1 := s) end.
      destruct (IH fuel (idx + 10)%Z s1 c w' w'' e) as (sys' & E & Hw & Hs);
        [done | done | done | done | lia |].
      exists sys'. by rewrite E.
Qed.

(** When the endpoint accepts every size of the range, the loop ends with the
    initial [max_length]. *)
Lemma length_probe_loop_exhausted fuel : ∀ idx (sys : Sys) c w',
  client (shell sys) = Some c →
  sends_accepted c (world sys) idx fuel = Some w' →
  ∃ sys', length_probe_loop fuel idx sys = (sys', Return 0%Z)
          ∧ world sys' = w' ∧ shell sys' = shell sys.
Proof.
  induction fuel as [|fuel IH]; intros idx sys c w' Hc Hacc.
  - simpl in Hacc. injection Hacc as <-. by exists sys.
  - cbn [sends_accepted] in Hacc. unfold filler in Hacc.
    destruct (ws_send c _ (world sys)) as [w1 [[]|e1]] eqn:Es; [|done].
    cbn [length_probe_loop]. unfold client_send. unfold_monad.
    destruct (idx mod 1000 =? 0)%Z; simpl; rewrite Hc; simpl; rewrite Es; simpl.
    + match goal with |- context [length_probe_loop fuel _ ?s] => set (s1 := s) end.
      destruct (IH (idx + 10)%Z s1 c w') as (sys' & E & Hw & Hs); [done | done |].
      exists sys'. by rewrite E.
    + match goal with |- context [length_probe_loop fuel _ ?s] => set (s1 := s) end.
      destruct (IH (idx + 10)%Z s1 c w') as (sys' & E & Hw & Hs); [done | done |].
      exists sys'. by rewrite E.
Qed.

(** The report of the length probe when the endpoint first refuses the size
    [10 + 10 * k]: the size before it when that is positive, and the message
    of the unreached ceiling when the very first size is refused. *)
Lemma do_probe_request_length_limit_reports k (sys sys1 : Sys) c w' w'' e :
  check_connection_availability sys = (sys1, Return tt) →
  client (shell sys1) = Some c →
  sends_accepted c (world sys1) 10 k = Some w' →
  ws_send c (filler (10 + 10 * Z.of_nat k)) w' = (w'', Raise e) →
  WebSocketException_or_IOError e = true →
  k < range_length 10 1000000000 10 →
  ∃ sys', do_probe_request_length_limit sys = (sys', Return tt)
          ∧ last (output sys')
            = Some (if (0 <? 10 * Z.of_nat k)%Z
                    then MaxLengthIdentified (10 * Z.of_nat k)
                    else MaxLengthNotIdentified 1000000000).
Proof.
  intros Hcheck Hc Hacc Hfail He Hk.
  unfold do_probe_request_length_limit.
  unfold try_except, bind at 1. rewrite Hcheck. cbn beta iota.
  unfold bind at 1, print at 1. cbn beta iota.
  set (s2 := MkSys _ _ _ _).
  destruct (length_probe_loop_breaks k (range_length 10 1000000000 10) 10 s2
              c w' w'' e) as (s3 & E & Hw & Hs); [done..|].
  unfold bind at 1. rewrite E. cbn beta iota.
  replace (10 + 10 * Z.of_nat k - 10)%Z with (10 * Z.of_nat k)%Z by lia.
  destruct (0 <? 10 * Z.of_nat k)%Z; unfold print; cbn beta iota;
    (eexists; split; [reflexivity|]; cbn [output]; by rewrite last_snoc).
Qed.

(** The report when no size of the range is refused. *)
Lemma do_probe_request_length_limit_ceiling (sys sys1 : Sys) c w' :
  check_connection_availability sys = (sys1, Return tt) →
  client (shell sys1) = Some c →
  sends_accepted c (world sys1) 10 (range_length 10 1000000000 10) = Some w' →
  ∃ sys', do_probe_request_length_limit sys = (sys', Return tt)
          ∧ last (output sys') = Some (MaxLengthNotIdentified 1000000000).
Proof.
  intros Hcheck Hc Hacc.
  unfold do_probe_request_length_limit.
  unfold try_except, bind at 1. rewrite Hcheck. cbn beta iota.
  unfold bind at 1, print at 1. cbn beta iota.
  set (s2 := MkSys _ _ _ _).
  destruct (length_probe_loop_exhausted (range_length 10 1000000000 10) 10 s2 c w')
    as (s3 & E & Hw & Hs); [done..|].
  unfold bind at 1. rewrite E. cbn beta iota.
  change (0 <? 0)%Z with false. unfold print. cbn beta iota.
  eexists; split; [reflexivity|]. cbn [output]. by rewrite last_snoc.
Qed.

(** The growth loop leaves at the first open call the endpoint refuses, with
    the number of connections opened before it, all of them held and none of
    them closed. *)
Lemma connection_probe_loop_breaks request k : ∀ fuel idx held (sys : Sys) w' cs w'' e,
  opens_accepted request (world sys) k = Some (w', cs) →
  create_connection request w' = (w'', Raise e) →
  WebSocketException_or_IOError e = true →
  k < fuel →
  ∃ sys', connection_probe_loop request fuel idx held sys
          = (sys', Return ((idx + Z.of_nat k - 1)%Z, held ++ cs))
          ∧ world sys' = w'' ∧ shell sys' = shell sys
          ∧ closes_of (calls sys') = closes_of (calls sys)
          ∧ ∃ progress, output sys' = output sys ++ progress.
Proof.
  induction k as [|k IH]; intros fuel idx held sys w' cs w'' e Hacc Hfail He Hk;
    (destruct fuel as [|fuel]; [lia|]).
  - simpl in Hacc. injection Hacc as <- <-.
    replace (idx + Z.of_nat 0 - 1)%Z with (idx - 1)%Z by lia. rewrite app_nil_r.
    cbn [connection_probe_loop]. unfold_monad.
    destruct (idx mod 10 =? 0)%Z; simpl; rewrite Hfail; simpl; rewrite He; simpl;
      (eexists; split_and!;
         [ reflexivity | done | done
         | simpl; by rewrite closes_of_app, app_nil_r
         | simpl; first [by eexists | exists []; by rewrite app_nil_r] ]).
  - cbn [opens_accepted] in Hacc.
    destruct (create_connection request (world sys)) as [w1 [c|e1]] eqn:Ec; [|done].
    destruct (opens_accepted request w1 k) as [[w2 cs']|] eqn:Hacc'; [|done].
    injection Hacc as <- <-.
    replace (idx + Z.of_nat (S k) - 1)%Z with (idx + 1 + Z.of_nat k - 1)%Z by lia.
    replace (held ++ c :: cs') with ((held ++ [c]) ++ cs')
      by (by rewrite <- (assoc_L (++))).
    cbn [connection_probe_loop]. unfold_monad.
    destruct (idx mod 10 =? 0)%Z; simpl; rewrite Ec; simpl.
    + match goal with
      | |- context [connection_probe_loop request fuel _ _ ?s] => set (s1 := s) end.
      destruct (IH fuel (idx + 1)%Z (held ++ [c]) s1 w2 cs' w'' e)
        as (sys' & E & Hw & Hs & Hcl & progress & Hout); [done | done | done | lia |].
      exists sys'. rewrite E. split_and!; [done | done | done | |].
      * rewrite Hcl. simpl. by rewrite closes_of_app, app_nil_r.
      * rewrite Hout. simpl. rewrite <- (assoc_L (++)). by eexists.
    + match goal with
      | |- context [connection_probe_loop request fuel _ _ ?s] => set (s1 := s) end.
      destruct (IH fuel (idx + 1)%Z (held ++ [c]) s1 w2 cs' w'' e)
        as (sys' & E & Hw & Hs & Hcl & progress & Hout); [done | done | done | lia |].
      exists sys'. rewrite E. split_and!; [done | done | done | |].
      * rewrite Hcl. simpl. by rewrite closes_of_app, app_nil_r.
      * rewrite Hout. by eexists.
Qed.

(** When an open call raises anything else, the loop raises it: the
    connections opened so far are lost with the loop's list, none closed. *)
Lemma connection_probe_loop_raises request k : ∀ fuel idx held (sys : Sys) w' cs w'' e,
  opens_accepted request (world sys) k = Some (w', cs) →
  create_connection request w' = (w'', Raise e) →
  WebSocketException_or_IOError e = false →
  k < fuel →
  ∃ sys', connection_probe_loop request fuel idx held sys = (sys', Raised e)
          ∧ closes_of (calls sys') = closes_of (calls sys).
Proof.
  induction k as [|k IH]; intros fuel idx held sys w' cs w'' e Hacc Hfail He Hk;
    (destruct fuel as [|fuel]; [lia|]).
  - simpl in Hacc. injection Hacc as <- <-.
    cbn [connection_probe_loop]. unfold_monad.
    destruct (idx mod 10 =? 0)%Z; simpl; rewrite Hfail; simpl; rewrite He; simpl;
      (eexists; split; [reflexivity|]); simpl; by rewrite closes_of_app, app_nil_r.
  - cbn [opens_accepted] in Hacc.
    destruct (create_connection request (world sys)) as [w1 [c|e1]] eqn:Ec; [|done].
    destruct (opens_accepted request w1 k) as [[w2 cs']|] eqn:Hacc'; [|done].
    injection Hacc as <- <-.
    cbn [connection_probe_loop]. unfold_monad.
    destruct (idx mod 10 =? 0)%Z; simpl; rewrite Ec; simpl.
    + match goal with
      | |- context [connection_probe_loop request fuel _ _ ?s] => set (s1 := s) end.
      destruct (IH fuel (idx + 1)%Z (held ++ [c]) s1 w2 cs' w'' e)
        as (sys' & E & Hcl); [done | done | done | lia |].
      exists sys'. rewrite E. split; [done|].
      rewrite Hcl. simpl. by rewrite closes_of_app, app_nil_r.
    + match goal with
      | |- context [connection_probe_loop request fuel _ _ ?s] => set (s1 := s) end.
      destruct (IH fuel (idx + 1)%Z (held ++ [c]) s1 w2 cs' w'' e)
        as (sys' & E & Hcl); [done | done | done | lia |].
      exists sys'. rewrite E. split; [done|].
      rewrite Hcl. simpl. by rewrite closes_of_app, app_nil_r.
Qed.

(** The release loop calls [close] on every connection of its list, in order,
    and counts the [IOError]s, as long as [close] raises nothing else. *)
Lemma release_loop_spec cs : ∀ n (sys : Sys) w' failed,
  releases cs (world sys) = Some (w', failed) →
  ∃ sys', release_loop cs n sys = (sys', Return (n + failed))
          ∧ world sys' = w' ∧ shell sys' = shell sys
          ∧ output sys' = output sys
          ∧ closes_of (calls sys') = closes_of (calls sys) ++ cs.
Proof.
  induction cs as [|c cs IH]; intros n sys w' failed Hrel.
  - simpl in Hrel. injection Hrel as <- <-. exists sys.
    rewrite Nat.add_0_r, app_nil_r. by split_and!.
  - cbn [releases] in Hrel.
    destruct (ws_close c (world sys)) as [w1 [[]|e]] eqn:Ec.
    + cbn [release_loop]. unfold_monad. simpl. rewrite Ec. simpl.
      match goal with |- context [release_loop cs _ ?s] => set (s1 := s) end.
      destruct (IH n s1 w' failed Hrel) as (sys' & E & Hw & Hs & Ho & Hcl).
      exists sys'. rewrite E. split_and!; [done | done | done | done |].
      rewrite Hcl. simpl. rewrite closes_of_app. simpl.
      by rewrite <- (assoc_L (++)).
    + destruct (is_IOError e) eqn:He; [|done].
      destruct (releases cs w1) as [[w2 n']|] eqn:Hrel'; [|done].
      injection Hrel as <- <-.
      cbn [release_loop]. unfold_monad. simpl. rewrite Ec. simpl. rewrite He. simpl.
      match goal with |- context [release_loop cs _ ?s] => set (s1 := s) end.
      destruct (IH (n + 1) s1 w2 n' Hrel') as (sys' & E & Hw & Hs & Ho & Hcl).
      exists sys'. rewrite E. split_and!; [f_equal; f_equal; lia | done | done | done |].
      rewrite Hcl. simpl. rewrite closes_of_app. simpl.
      by rewrite <- (assoc_L (++)).
Qed.

(** An exception of [close] that is no [IOError] ends the release loop: the
    connections after the one that raised are not closed. *)
Lemma release_loop_raises c cs n (sys : Sys) w' e :
  ws_close c (world sys) = (w', Raise e) →
  is_IOError e = false →
  ∃ sys', release_loop (c :: cs) n sys = (sys', Raised e)
          ∧ closes_of (calls sys') = closes_of (calls sys) ++ [c].
Proof.
  intros Hc He. cbn [release_loop]. unfold_monad. simpl.
  rewrite Hc. simpl. rewrite He. simpl.
  eexists. split; [reflexivity|]. simpl. by rewrite closes_of_app.
Qed.

(** The connection probe when an open call is refused with a
    [WebSocketException] or an [IOError] after [k] successes, and [close]
    raises nothing but [IOError]: it reports [k] when [k] is positive and the
    message of the unreached ceiling when [k] is 0, then calls [close] on each
    of the [k] connections and reports how many of these calls failed. *)
Lemma do_probe_request_connection_limit_reports (sys : Sys) l args request
    k w' cs w'' e w3 failed :
  client_connection_parameters (shell sys) = Some l →
  parse_args (PyStr.split_char space l) = Return args →
  build_request args = Ok request →
  opens_accepted request (world sys) k = Some (w', cs) →
  create_connection request w' = (w'', Raise e) →
  WebSocketException_or_IOError e = true →
  k < range_length 1 1000000000 1 →
  releases cs w'' = Some (w3, failed) →
  ∃ sys' progress,
    do_probe_request_connection_limit sys = (sys', Return tt)
    ∧ closes_of (calls sys') = closes_of (calls sys) ++ cs
    ∧ output sys'
      = output sys ++ progress
        ++ [ (if (0 <? Z.of_nat k)%Z
              then MaxConnectionsIdentified (Z.of_nat k)
              else MaxConnectionsNotIdentified 1000000000);
             ReleasingConnections;
             ConnectionsReleased (length cs - failed) failed ].
Proof.
  intros Hl Hp Hb Hacc Hfail He Hk Hrel.
  unfold do_probe_request_connection_limit.
  unfold try_except, bind at 1, get at 1. cbn beta iota. rewrite Hl.
  unfold bind at 1, lift_outcome at 1. rewrite Hp. cbn beta iota.
  unfold bind at 1, lift_outcome at 1. rewrite Hb. cbn beta iota delta [outcome_of_result].
  unfold bind at 1, print at 1. cbn beta iota.
  set (s1 := MkSys _ _ _ _).
  destruct (connection_probe_loop_breaks request k (range_length 1 1000000000 1)
              1 [] s1 w' cs w'' e)
    as (s2 & E & Hw & Hs & Hcl & progress & Hout); [done..|].
  unfold bind at 1. rewrite E. cbn beta iota.
  replace (1 + Z.of_nat k - 1)%Z with (Z.of_nat k) by lia. rewrite app_nil_l.
  set (report := if (0 <? Z.of_nat k)%Z
                 then MaxConnectionsIdentified (Z.of_nat k)
                 else MaxConnectionsNotIdentified 1000000000).
  assert (Hreport :
    ((if (0 <? Z.of_nat k)%Z
      then print (MaxConnectionsIdentified (Z.of_nat k))
      else print (MaxConnectionsNotIdentified 1000000000)) : M Sys unit)
    = print report) by (unfold report; by destruct (0 <? Z.of_nat k)%Z).
  rewrite Hreport. unfold bind at 1, print at 1. cbn beta iota.
  unfold bind at 1, print at 1. cbn beta iota.
  set (s3 := MkSys _ _ _ _).
  destruct (release_loop_spec cs 0 s3 w3 failed)
    as (s4 & E4 & Hw4 & Hs4 & Ho4 & Hcl4); [by subst s3; rewrite Hw|].
  unfold bind at 1. rewrite E4. cbn beta iota. unfold print.
  eexists _, ([ProbingConnections] ++ progress). split_and!; [reflexivity | |].
  - cbn [calls]. rewrite Hcl4. subst s3. cbn [calls]. by rewrite Hcl.
  - cbn [output]. rewrite Ho4. subst s3. cbn [output]. rewrite Hout.
    subst s1. cbn [output]. by rewrite <- !(assoc_L (++)).
Qed.

(** The connection probe when an open call raises any other exception after
    [k] successes: the probe reports a failure and returns, and [close] is
    called on none of the [k] connections it opened. *)
Lemma do_probe_request_connection_limit_leaks (sys : Sys) l args request
    k w' cs w'' e :
  client_connection_parameters (shell sys) = Some l →
  parse_args (PyStr.split_char space l) = Return args →
  build_request args = Ok request →
  opens_accepted request (world sys) k = Some (w', cs) →
  create_connection request w' = (w'', Raise e) →
  WebSocketException_or_IOError e = false →
  k < range_length 1 1000000000 1 →
  ∃ sys',
    do_probe_request_connection_limit sys = (sys', Return tt)
    ∧ closes_of (calls sys') = closes_of (calls sys)
    ∧ last (output sys') = Some (ProbingFailed (exn_str e)).
Proof.
  intros Hl Hp Hb Hacc Hfail He Hk.
  unfold do_probe_request_connection_limit.
  unfold try_except, bind at 1, get at 1. cbn beta iota. rewrite Hl.
  unfold bind at 1, lift_outcome at 1. rewrite Hp. cbn beta iota.
  unfold bind at 1, lift_outcome at 1. rewrite Hb. cbn beta iota delta [outcome_of_result].
  unfold bind at 1, print at 1. cbn beta iota.
  set (s1 := MkSys _ _ _ _).
  destruct (connection_probe_loop_raises request k (range_length 1 1000000000 1)
              1 [] s1 w' cs w'' e) as (s2 & E & Hcl); [done..|].
  unfold bind at 1. rewrite E. cbn beta iota. unfold Exception, print.
  eexists. split_and!; [reflexivity | done | cbn [output]; by rewrite last_snoc].
Qed.

End LimitProbers.

Lemma range_length_probe k : k < 1000 → k < range_length 10 1000000000 10.
Proof.
  unfold range_length.
  change ((1000000000 - 10 + 10 - 1) / 10)%Z with 99999999%Z. lia.
Qed.

(** The test of the specification: the endpoint refuses 53 characters or
    more, the sizes 10 to 50 pass, 60 is refused, and the probe reports 50. *)
Example length_probe_limit_53 :
  ∃ sys', do_probe_request_length_limit (Env := scripted (size_limit_script 53))
            (disconnected_sys 53) = (sys', Return tt)
          ∧ last (output sys') = Some (MaxLengthIdentified 50).
Proof.
  eapply (do_probe_request_length_limit_reports (Env := scripted (size_limit_script 53))
            5 (disconnected_sys 53)
            (state_after (check_connection_availability
                            (Env := scripted (size_limit_script 53)))
               (disconnected_sys 53))).
  - vm_compute. reflexivity.
  - vm_compute. reflexivity.
  - vm_compute. reflexivity.
  - vm_compute. reflexivity.
  - reflexivity.
  - apply range_length_probe. lia.
Qed.

(** C3.  When the first probed size is refused the confirmed maximum is 0,
    an outcome distinct from the one of the unreached ceiling: the code breaks
    this.  On an endpoint that refuses 10 characters or more, the probe
    reconnects (its greeting has 5 characters), the filler of size 10 is
    refused, [max_length] is 0, and the report is the message of the unreached
    ceiling: the limit is said to be above 1000000000. *)
Theorem length_probe_first_size_refused :
  ∃ sys', do_probe_request_length_limit (Env := scripted (size_limit_script 10))
            (disconnected_sys 10) = (sys', Return tt)
          ∧ last (output sys') = Some (MaxLengthNotIdentified 1000000000).
Proof.
  eapply (do_probe_request_length_limit_reports
            (Env := scripted (size_limit_script 10))
            0 (disconnected_sys 10)
            (state_after (check_connection_availability
                            (Env := scripted (size_limit_script 10)))
               (disconnected_sys 10))).
  - vm_compute. reflexivity.
  - vm_compute. reflexivity.
  - vm_compute. reflexivity.
  - vm_compute. reflexivity.
  - reflexivity.
  - apply range_length_probe. lia.
Qed.

Lemma range_length_connections k : k < 1000 → k < range_length 1 1000000000 1.
Proof.
  unfold range_length.
  change ((1000000000 - 1 + 1 - 1) / 1)%Z with 999999999%Z. lia.
Qed.

(** The test of the specification: the eighth open call of the probe is
    refused, the probe reports 7, calls [close] on the seven connections it
    holds, and counts the one [close] that raises [IOError]. *)
Example connection_probe_limit_8 :
  let sc := open_limit_script 8 (Exn WebSocketException "Handshake status 503") 4 in
  ∃ sys' progress,
    do_probe_request_connection_limit (Env := scripted sc) (connected_sys sc)
    = (sys', Return tt)
    ∧ closes_of (calls sys') = [1; 2; 3; 4; 5; 6; 7]
    ∧ output sys'
      = output (connected_sys sc) ++ progress
        ++ [ MaxConnectionsIdentified 7; ReleasingConnections;
             ConnectionsReleased 6 1 ].
Proof.
  intros sc.
  edestruct (do_probe_request_connection_limit_reports (Env := scripted sc)
               (connected_sys sc) connect_line
               (Namespace (Some "ws://echo.websocket.org") None None None)
               echo_request 7)
    as (sys' & progress & E & Hcl & Hout).
  - vm_compute. reflexivity.
  - reflexivity.
  - reflexivity.
  - vm_compute. reflexivity.
  - vm_compute. reflexivity.
  - reflexivity.
  - apply range_length_connections. lia.
  - vm_compute. reflexivity.
  - exists sys', progress. split_and!; [exact E | exact Hcl | exact Hout].
Qed.

(** C4.  A close is attempted on every held connection however the growth
    stopped, and the confirmed maximum is [k - 1] when the [k]-th open call
    fails: the code breaks both.  When the third open call of the probe raises
    an exception that is neither a [WebSocketException] nor an [IOError], the
    probe reports a failure and returns without a single [close], leaving the
    two connections it opened.  When the first open call of the probe is
    refused, the confirmed maximum 0 is reported as the unreached ceiling. *)
Theorem connection_probe_leaks_and_misreports :
  (let sc := open_limit_script 3 unexpected_error 0 in
   ∃ sys',
     do_probe_request_connection_limit (Env := scripted sc) (connected_sys sc)
     = (sys', Return tt)
     ∧ opens_accepted (Env := scripted sc) echo_request (world (connected_sys sc)) 2
       = Some (Counters 3 1 1 0 0, [1; 2])
     ∧ closes_of (calls sys') = []
     ∧ last (output sys') = Some (ProbingFailed (exn_str unexpected_error)))
  ∧ (let sc := one_connection_script in
     ∃ sys' progress,
       do_probe_request_connection_limit (Env := scripted sc) (connected_sys sc)
       = (sys', Return tt)
       ∧ output sys'
         = output (connected_sys sc) ++ progress
           ++ [ MaxConnectionsNotIdentified 1000000000; ReleasingConnections;
                ConnectionsReleased 0 0 ]).
Proof.
  split; intros sc.
  - edestruct (do_probe_request_connection_limit_leaks (Env := scripted sc)
                 (connected_sys sc) connect_line
                 (Namespace (Some "ws://echo.websocket.org") None None None)
                 echo_request 2)
      as (sys' & E & Hcl & Hout).
    + vm_compute. reflexivity.
    + reflexivity.
    + reflexivity.
    + vm_compute. reflexivity.
    + vm_compute. reflexivity.
    + reflexivity.
    + apply range_length_connections. lia.
    + exists sys'. split_and!; [exact E | vm_compute; reflexivity | exact Hcl | exact Hout].
  - edestruct (do_probe_request_connection_limit_reports (Env := scripted sc)
                 (connected_sys sc) connect_line
                 (Namespace (Some "ws://echo.websocket.org") None None None)
                 echo_request 0)
      as (sys' & progress & E & Hcl & Hout).
    + vm_compute. reflexivity.
    + reflexivity.
    + reflexivity.
    + vm_compute. reflexivity.
    + vm_compute. reflexivity.
    + reflexivity.
    + apply range_length_connections. lia.
    + vm_compute. reflexivity.
    + exists sys', progress. split; [exact E | exact Hout].
Qed.

(** * Further properties *)

(** ** Payload combinator, continued *)

Section CombinatorMore.
Variable readlines : string → result (list string).

Lemma line_lists_lengths files :
  length <$> line_lists files = length <$> files.
Proof.
  unfold line_lists. rewrite <- list_fmap_compose. apply list_fmap_ext.
  intros _ lines _. simpl. apply length_fmap.
Qed.

(** For a non-empty list of readable files that all have a line, [combine]
    returns the ordered product of the payloads, which has as many bindings as
    the line counts multiply to. *)
Theorem combine_product paths files :
  paths ≠ [] →
  Forall2 (λ path lines, readlines path = Ok lines) paths files →
  Forall (λ lines : list string, lines ≠ []) files →
  ∃ bindings,
    combine readlines paths = Ok bindings
    ∧ bindings = cartesian_bindings (line_lists files)
    ∧ length bindings = foldr Nat.mul 1 (length <$> files).
Proof.
  intros Hp HR HN. eexists. split; [by apply combine_cartesian|].
  split; [done|]. by rewrite length_cartesian_bindings, line_lists_lengths.
Qed.

Lemma product_expand_keys first files : ∀ position (bindings : list binding),
  first ≤ position →
  (∀ b key, b ∈ bindings →
     is_Some (b !! key)
     ↔ ∃ i, first ≤ i < position ∧ key = payload_placeholder_key i) →
  ∀ b key, b ∈ product_expand position bindings files →
    is_Some (b !! key)
    ↔ ∃ i, first ≤ i < position + length files ∧ key = payload_placeholder_key i.
Proof.
  induction files as [|lines files IH]; intros position bindings Hle Hinv b key Hb.
  - simpl in *. rewrite Nat.add_0_r. by apply Hinv.
  - cbn [product_expand] in Hb.
    replace (position + length (lines :: files))
      with (position + 1 + length files) by (simpl; lia).
    revert b key Hb. apply IH; [lia|]. intros b key Hb.
    apply list_elem_of_bind in Hb as (b0 & Hb & Hb0).
    apply list_elem_of_fmap in Hb as (line & -> & _).
    rewrite lookup_insert_is_Some, (Hinv b0 key Hb0). split.
    + intros [<-|[Hne (i & Hi & ->)]]; [exists position | exists i]; split; try done; lia.
    + intros (i & Hi & ->). destruct (decide (i = position)) as [->|Hne]; [by left|].
      right. split.
      * intros E. by apply payload_placeholder_key_inj in E.
      * exists i. split; [lia | done].
Qed.

(** Every binding of the product of [N] files sets exactly the placeholders
    [payload_1] to [payload_N]. *)
Theorem combine_placeholders paths files bindings :
  paths ≠ [] →
  Forall2 (λ path lines, readlines path = Ok lines) paths files →
  Forall (λ lines : list string, lines ≠ []) files →
  combine readlines paths = Ok bindings →
  ∀ b key, b ∈ bindings →
    is_Some (b !! key)
    ↔ ∃ i, 1 ≤ i ≤ length paths ∧ key = payload_placeholder_key i.
Proof.
  intros Hp HR HN E b key Hb.
  rewrite (combine_cartesian readlines paths files Hp HR HN) in E.
  injection E as <-. unfold cartesian_bindings in Hb.
  rewrite (product_expand_keys 1 (line_lists files) 1 [∅] (le_n 1)
             ltac:(intros b0 k0 ->%list_elem_of_singleton;
                   rewrite lookup_empty; split;
                   [by intros [] | intros (i & ? & _); lia]) b key Hb).
  unfold line_lists. rewrite length_fmap, <- (Forall2_length _ _ _ HR).
  split; intros (i & Hi & ->); exists i; (split; [lia | done]).
Qed.

(** The first file that cannot be opened ends [combine] with the error of
    [open], whatever the files after it hold. *)
Theorem combine_unreadable_file readable bad later e :
  Forall (λ path, ∃ lines, readlines path = Ok lines) readable →
  readlines bad = Raise e →
  combine readlines (readable ++ bad :: later) = Raise e.
Proof.
  intros Hr Hbad. unfold combine. generalize 1 at 1. generalize (@nil binding).
  induction Hr as [|path readable [lines Hl] Hr IH]; intros acc position.
  - simpl. by rewrite Hbad.
  - cbn [app build_fuzzing_dicts]. rewrite Hl. destruct acc; apply IH.
Qed.

End CombinatorMore.

Lemma combine_product_witness :
  ["letters.txt"; "digits.txt"] ≠ []
  ∧ ∃ bindings,
      combine example_files ["letters.txt"; "digits.txt"] = Ok bindings
      ∧ bindings
        = cartesian_bindings
            (line_lists [ ["x" +:+ newline; "y" +:+ newline];
                          ["1" +:+ newline; "2" +:+ newline] ])
      ∧ length bindings
        = foldr Nat.mul 1
            (length <$> [ ["x" +:+ newline; "y" +:+ newline];
                          ["1" +:+ newline; "2" +:+ newline] ]).
Proof.
  split; [discriminate|].
  apply (combine_product example_files ["letters.txt"; "digits.txt"]
           [ ["x" +:+ newline; "y" +:+ newline]; ["1" +:+ newline; "2" +:+ newline] ]).
  - discriminate.
  - repeat constructor.
  - repeat constructor; discriminate.
Defined.

Lemma combine_placeholders_witness :
  combine example_files ["letters.txt"]
  = Ok [ ({[ "payload_1" := "x" ]} : binding); {[ "payload_1" := "y" ]} ]
  ∧ ∀ b key,
      b ∈ [ ({[ "payload_1" := "x" ]} : binding); {[ "payload_1" := "y" ]} ] →
      is_Some (b !! key)
      ↔ ∃ i, 1 ≤ i ≤ length ["letters.txt"] ∧ key = payload_placeholder_key i.
Proof.
  split; [vm_compute; reflexivity|].
  apply (combine_placeholders example_files ["letters.txt"]
           [ ["x" +:+ newline; "y" +:+ newline] ]).
  - discriminate.
  - repeat constructor.
  - repeat constructor; discriminate.
  - vm_compute. reflexivity.
Defined.

Lemma combine_unreadable_file_witness :
  combine example_files (["letters.txt"] ++ "missing.txt" :: ["digits.txt"])
  = Raise (Exn IOError "No such file or directory").
Proof.
  apply (combine_unreadable_file example_files ["letters.txt"] "missing.txt"
           ["digits.txt"]).
  - repeat constructor. by eexists.
  - reflexivity.
Defined.

(** ** Connection manager, continued *)

Section ConnectionMore.
Context `{Env : Environment}.

(** A connect that the endpoint validates makes exactly the three calls of the
    handshake and its validation, holds the new connection and saves the
    line. *)
Theorem do_connect_validated (l : string) args request (sys : Sys) c :
  missing_parameters l = false →
  parse_args (PyStr.split_char space l) = Return args →
  build_request args = Ok request →
  connect_transport request (world sys) = Validated c →
  ∃ sys', do_connect (Some l) sys = (sys', Return tt)
          ∧ client (shell sys') = Some c
          ∧ client_connection_parameters (shell sys') = Some l
          ∧ exchanges (shell sys') = exchanges (shell sys)
          ∧ calls sys' = calls sys ++ [CallCreate request; CallSend c "hello"; CallRecv c]
          ∧ output sys' = output sys ++ [Connecting; Connected].
Proof.
  intros Hg Hp Hb. unfold missing_parameters in Hg.
  unfold connect_transport, do_connect, client_send, client_recv. unfold_monad.
  rewrite Hg, Hp, Hb. simpl.
  destruct (create_connection request (world sys)) as [w1 [c1|e]]; simpl; [|done].
  destruct (ws_send c1 "hello" w1) as [w2 [[]|e]]; simpl; [|done].
  destruct (ws_recv c1 w2) as [w3 [r|e]]; simpl; [|done].
  intros [= ->]. eexists. split; [reflexivity|]. simpl.
  by rewrite <- !(assoc_L (++)).
Qed.

(** Without a line, on a blank line or on a line without [-t], [do_connect]
    prints that parameters are missing and does nothing else: no transport
    call, and the shell as it was. *)
Theorem do_connect_missing_parameters (line : option string) (sys : Sys) :
  (∀ l, line = Some l → missing_parameters l = true) →
  do_connect line sys
  = (MkSys (world sys) (shell sys) (output sys ++ [MissingParameters]) (calls sys),
     Return tt).
Proof.
  intros Hmiss. unfold do_connect. unfold_monad.
  destruct line as [l|]; [|done].
  specialize (Hmiss l eq_refl). unfold missing_parameters in Hmiss.
  by rewrite Hmiss.
Qed.

(** A line that [argparse] rejects ends [do_connect], and with it the shell,
    by [SystemExit], which [except Exception] does not catch: the client, the
    saved parameters and the store are as they were, and no transport call is
    made.  What [argparse] itself writes before it exits is not part of the
    state. *)
Theorem do_connect_rejected_line (l : string) (sys : Sys) :
  missing_parameters l = false →
  parse_args (PyStr.split_char space l) = SystemExit →
  ∃ sys', do_connect (Some l) sys = (sys', SystemExit)
          ∧ shell sys' = shell sys
          ∧ calls sys' = calls sys.
Proof.
  intros Hg Hp. unfold missing_parameters in Hg.
  unfold do_connect. unfold_monad. rewrite Hg, Hp. by eexists.
Qed.

(** When [close] raises, [do_disconnect] reports it and keeps the handle: the
    shell still holds the connection it failed to close. *)
Theorem do_disconnect_close_error (sys : Sys) c w e :
  client (shell sys) = Some c →
  ws_close c (world sys) = (w, Raise e) →
  do_disconnect sys
  = (MkSys w (shell sys) (output sys ++ [CloseConnectionFailed (exn_str e)])
       (calls sys ++ [CallClose c]),
     Return tt).
Proof.
  intros Hc Hw. unfold do_disconnect. unfold_monad. simpl.
  rewrite Hc. simpl. by rewrite Hw.
Qed.

(** A disconnect that left no client is not repeated: [do_disconnect] on the
    state it leaves changes nothing and calls nothing. *)
Theorem do_disconnect_idempotent (sys : Sys) :
  client (shell (state_after do_disconnect sys)) = None →
  do_disconnect (state_after do_disconnect sys)
  = (state_after do_disconnect sys, Return tt).
Proof.
  intros Hnone. unfold do_disconnect at 1. unfold bind at 1, get at 1.
  cbn beta iota. by rewrite Hnone.
Qed.

(** With a connection that answers the keep-alive message, the availability
    check makes these two calls and nothing else: no reconnection, and the
    shell as it was. *)
Theorem check_connection_availability_alive (sys : Sys) c w1 w2 r :
  client (shell sys) = Some c →
  ws_send c "TestAliveState" (world sys) = (w1, Ok tt) →
  ws_recv c w1 = (w2, Ok r) →
  check_connection_availability sys
  = (MkSys w2 (shell sys) (output sys ++ [CheckingConnection; ConnectionAvailable])
       (calls sys ++ [CallSend c "TestAliveState"; CallRecv c]),
     Return tt).
Proof.
  intros Hc Hs Hr. unfold check_connection_availability, client_send, client_recv.
  unfold_monad. simpl. repeat (progress (rewrite ?Hc, ?Hs, ?Hr; simpl)).
  by rewrite <- !(assoc_L (++)).
Qed.

(** A keep-alive send that fails with anything but
    [WebSocketConnectionClosedException] is raised to the caller: the check
    does not reconnect, and the shell keeps the connection. *)
Theorem check_connection_availability_propagates (sys : Sys) c w1 e :
  client (shell sys) = Some c →
  ws_send c "TestAliveState" (world sys) = (w1, Raise e) →
  is_WebSocketConnectionClosedException e = false →
  check_connection_availability sys
  = (MkSys w1 (shell sys) (output sys ++ [CheckingConnection])
       (calls sys ++ [CallSend c "TestAliveState"]),
     Raised e).
Proof.
  intros Hc Hs He. unfold check_connection_availability, client_send, client_recv.
  unfold_monad. simpl. repeat (progress (rewrite ?Hc, ?Hs, ?He; simpl)). done.
Qed.

(** A keep-alive send that fails with [WebSocketConnectionClosedException]
    makes the check reconnect: what follows is [do_connect] on the saved
    parameters. *)
Theorem check_connection_availability_closed (sys : Sys) c w1 e :
  client (shell sys) = Some c →
  ws_send c "TestAliveState" (world sys) = (w1, Raise e) →
  is_WebSocketConnectionClosedException e = true →
  check_connection_availability sys
  = do_connect (client_connection_parameters (shell sys))
      (MkSys w1 (shell sys) (output sys ++ [CheckingConnection])
         (calls sys ++ [CallSend c "TestAliveState"])).
Proof.
  intros Hc Hs He. unfold check_connection_availability, client_send, client_recv.
  unfold_monad. simpl. repeat (progress (rewrite ?Hc, ?Hs, ?He; simpl)). done.
Qed.

End ConnectionMore.
Lemma do_connect_validated_witness :
  let sys := initial_sys echo_script in
  ∃ sys', do_connect (Env := scripted echo_script) (Some connect_line) sys
          = (sys', Return tt)
          ∧ client (shell sys') = Some 0
          ∧ client_connection_parameters (shell sys') = Some connect_line
          ∧ exchanges (shell sys') = exchanges (shell sys)
          ∧ calls sys'
            = calls sys ++ [@CallCreate (scripted echo_script) echo_request;
                            @CallSend (scripted echo_script) 0 "hello";
                            @CallRecv (scripted echo_script) 0]
          ∧ output sys' = output sys ++ [Connecting; Connected].
Proof.
  intros sys.
  apply (do_connect_validated (Env := scripted echo_script) connect_line
           (Namespace (Some "ws://echo.websocket.org") None None None)
           echo_request sys 0); reflexivity.
Defined.

Lemma do_connect_rejected_line_witness :
  let sys := initial_sys echo_script in
  ∃ sys', do_connect (Env := scripted echo_script)
            (Some "-t ws://echo.websocket.org -x") sys
          = (sys', SystemExit)
          ∧ shell sys' = shell sys
          ∧ calls sys' = calls sys.
Proof.
  intros sys.
  apply (do_connect_rejected_line (Env := scripted echo_script)
           "-t ws://echo.websocket.org -x" sys); reflexivity.
Defined.

Lemma do_disconnect_close_error_witness :
  let sys := connected_sys stuck_script in
  do_disconnect (Env := scripted stuck_script) sys
  = (@MkSys (scripted stuck_script) (Counters 1 1 1 1 0) (shell sys)
       (output sys
        ++ [CloseConnectionFailed "socket is already closed."])
       (calls sys ++ [@CallClose (scripted stuck_script) 0]),
     Return tt).
Proof.
  intros sys.
  apply (do_disconnect_close_error (Env := scripted stuck_script) sys 0
           (Counters 1 1 1 1 0) (Exn WebSocketException "socket is already closed."));
    reflexivity.
Defined.

Lemma check_connection_availability_propagates_witness :
  let sys := connected_sys mute_script in
  check_connection_availability (Env := scripted mute_script) sys
  = (@MkSys (scripted mute_script) (Counters 1 2 1 0 0) (shell sys)
       (output sys ++ [CheckingConnection])
       (calls sys ++ [@CallSend (scripted mute_script) 0 "TestAliveState"]),
     Raised (Exn WebSocketException "Connection is already closed.")).
Proof.
  intros sys.
  apply (check_connection_availability_propagates (Env := scripted mute_script) sys 0
           (Counters 1 2 1 0 0)
           (Exn WebSocketException "Connection is already closed."));
    reflexivity.
Defined.

Lemma check_connection_availability_closed_witness :
  let sys := connected_sys closing_script in
  check_connection_availability (Env := scripted closing_script) sys
  = do_connect (Env := scripted closing_script)
      (client_connection_parameters (shell sys))
      (@MkSys (scripted closing_script) (Counters 1 2 1 0 0) (shell sys)
         (output sys ++ [CheckingConnection])
         (calls sys ++ [@CallSend (scripted closing_script) 0 "TestAliveState"])).
Proof.
  intros sys.
  apply (check_connection_availability_closed (Env := scripted closing_script) sys 0
           (Counters 1 2 1 0 0)
           (Exn WebSocketConnectionClosedException "Connection is already closed."));
    reflexivity.
Defined.


(** ** Bulk exchange driver, continued *)

Section BulkMore.
Context `{Env : Environment}.

(** [__send_messages] writes the indices below the number of messages and no
    other: an entry a previous run left at a later index is still there, which
    is why [do_replay] and [do_fuzz] clear the store first. *)
Theorem send_messages_keeps_later_entries (msgs : list string) (sys : Sys) j :
  saved_parameters_parse (shell sys) →
  length msgs ≤ j →
  exchanges (shell (state_after (send_messages msgs) sys)) !! j
  = exchanges (shell sys) !! j.
Proof.
  intros Hinv Hj. unfold state_after, send_messages.
  set (sys0 := state_after (print SendingMessages) sys).
  destruct (send_messages_loop_spec msgs 0 0 sys0 Hinv)
    as (s1 & ec & E & _ & Frame & _).
  unfold bind at 1. change (print SendingMessages sys) with (sys0, Return tt).
  cbn beta iota. unfold bind at 1. rewrite E. cbn beta iota. cbn [fst shell].
  unfold print. cbn [fst shell]. rewrite Frame by (simpl; lia). done.
Qed.

Lemma dense_size (ex : gmap nat Exchange) n :
  (∀ idx, is_Some (ex !! idx) ↔ idx < n) → size ex = n.
Proof.
  intros Hdense. rewrite <- size_dom.
  assert (Hdom : dom ex = set_seq 0 n).
  { apply set_eq. intros idx. rewrite elem_of_dom, elem_of_set_seq, Hdense. lia. }
  rewrite Hdom. apply size_set_seq.
Qed.

Lemma gather_response_times_dense (ex : gmap nat Exchange) indices : ∀ d,
  Forall (λ idx, is_Some (ex !! idx)) indices →
  ∃ d', gather_response_times ex indices d = Ok d'.
Proof.
  induction indices as [|idx indices IH]; intros d Hall; [by eexists|].
  apply Forall_cons in Hall as [[e He] Hall]. simpl. rewrite He. by apply IH.
Qed.

(** The store a bulk run leaves never makes the timing analysis raise
    [KeyError]: its indices are dense. *)
Theorem send_messages_then_analyze (msgs : list string) (sys : Sys) :
  exchanges (shell sys) = ∅ →
  saved_parameters_parse (shell sys) →
  ∃ rows,
    do_analyze_response_times
      (exchanges (shell (state_after (send_messages msgs) sys)))
    = Ok rows.
Proof.
  intros Hempty Hinv. unfold state_after, send_messages.
  set (sys0 := state_after (print SendingMessages) sys).
  destruct (send_messages_loop_spec msgs 0 0 sys0 Hinv)
    as (s1 & ec & E & _ & Frame & Entries & _).
  unfold bind at 1. change (print SendingMessages sys) with (sys0, Return tt).
  cbn beta iota. unfold bind at 1. rewrite E. cbn beta iota. cbn [fst shell].
  unfold print. cbn [fst shell].
  assert (Hdense : ∀ idx, is_Some (exchanges (shell s1) !! idx) ↔ idx < length msgs).
  { intros idx. split.
    - intros Hsome. destruct (decide (idx < length msgs)) as [|Hge]; [done|].
      rewrite Frame in Hsome by (simpl; lia).
      change (exchanges (shell sys0)) with (exchanges (shell sys)) in Hsome.
      rewrite Hempty, lookup_empty in Hsome. by destruct Hsome.
    - intros Hlt. destruct (lookup_lt_is_Some_2 msgs idx Hlt) as [m Hm].
      destruct (Entries idx m Hm) as (e & He & _). by exists e. }
  unfold do_analyze_response_times. rewrite (dense_size _ _ Hdense).
  destruct (gather_response_times_dense (exchanges (shell s1))
              (seq 0 (length msgs)) []) as [d' ->]; [|by eexists].
  apply Forall_forall. intros idx Hin%elem_of_seq. apply Hdense. lia.
Qed.

End BulkMore.
Lemma send_messages_keeps_later_entries_witness :
  let sys := state_after (send_messages (Env := scripted echo_script) ["a"; "b"; "c"])
               (connected_sys echo_script) in
  exchanges (shell (state_after (send_messages (Env := scripted echo_script) ["x"]) sys))
    !! 2
  = exchanges (shell sys) !! 2.
Proof.
  intros sys.
  apply (send_messages_keeps_later_entries (Env := scripted echo_script) ["x"] sys 2).
  - intros l Hl. vm_compute in Hl. injection Hl as <-. eexists. vm_compute. reflexivity.
  - simpl. lia.
Defined.

Lemma send_messages_then_analyze_witness :
  let sys := connected_sys m3_fails_script in
  ∃ rows,
    do_analyze_response_times
      (exchanges (shell (state_after
                           (send_messages (Env := scripted m3_fails_script)
                              ["m1"; "m2"; "m3"])
                           sys)))
    = Ok rows.
Proof.
  intros sys.
  apply (send_messages_then_analyze (Env := scripted m3_fails_script)
           ["m1"; "m2"; "m3"] sys).
  - reflexivity.
  - intros l Hl. vm_compute in Hl. injection Hl as <-. eexists. vm_compute. reflexivity.
Defined.


(** ** Limit probers, continued *)

Section ProbersMore.
Context `{Env : Environment}.

(** When the endpoint accepts the fillers of [k] sizes, [k] at least 1, and
    refuses the next one with a [WebSocketException] or an [IOError], the
    length probe reports the last accepted size, 10 times [k]. *)
Theorem length_probe_reports_last_accepted k (sys sys1 : Sys) c w' w'' e :
  0 < k →
  check_connection_availability sys = (sys1, Return tt) →
  client (shell sys1) = Some c →
  sends_accepted c (world sys1) 10 k = Some w' →
  ws_send c (filler (10 + 10 * Z.of_nat k)) w' = (w'', Raise e) →
  WebSocketException_or_IOError e = true →
  k < range_length 10 1000000000 10 →
  ∃ sys', do_probe_request_length_limit sys = (sys', Return tt)
          ∧ last (output sys') = Some (MaxLengthIdentified (10 * Z.of_nat k)).
Proof.
  intros Hk Hcheck Hc Hacc Hfail He Hfuel.
  destruct (do_probe_request_length_limit_reports k sys sys1 c w' w'' e)
    as (sys' & E & Hlast); [done..|].
  exists sys'. split; [done|].
  rewrite Hlast. by destruct (Z.ltb_spec 0 (10 * Z.of_nat k)); [|lia].
Qed.

(** When the endpoint accepts the filler of every size of the range, the
    length probe reports that the limit lies above the ceiling. *)
Theorem length_probe_reports_ceiling (sys sys1 : Sys) c w' :
  check_connection_availability sys = (sys1, Return tt) →
  client (shell sys1) = Some c →
  sends_accepted c (world sys1) 10 (range_length 10 1000000000 10) = Some w' →
  ∃ sys', do_probe_request_length_limit sys = (sys', Return tt)
          ∧ last (output sys') = Some (MaxLengthNotIdentified 1000000000).
Proof. apply do_probe_request_length_limit_ceiling. Qed.

(** When the availability check raises, the length probe sends no filler: it
    reports the failure and returns. *)
Theorem length_probe_check_fails (sys sys1 : Sys) e :
  check_connection_availability sys = (sys1, Raised e) →
  do_probe_request_length_limit sys
  = (MkSys (world sys1) (shell sys1) (output sys1 ++ [ProbingFailed (exn_str e)])
       (calls sys1),
     Return tt).
Proof.
  intros Hcheck. unfold do_probe_request_length_limit.
  unfold try_except, bind at 1. by rewrite Hcheck.
Qed.

(** When [k] open calls succeed, [k] at least 1, the next one is refused with
    a [WebSocketException] or an [IOError], and [close] raises nothing but
    [IOError], the connection probe reports [k], then calls [close] once on
    each of the [k] connections it holds, in the order it opened them, and
    reports how many of these calls failed. *)
Theorem connection_probe_reports_and_releases (sys : Sys) l args request
    k w' cs w'' e w3 failed :
  0 < k →
  client_connection_parameters (shell sys) = Some l →
  parse_args (PyStr.split_char space l) = Return args →
  build_request args = Ok request →
  opens_accepted request (world sys) k = Some (w', cs) →
  create_connection request w' = (w'', Raise e) →
  WebSocketException_or_IOError e = true →
  k < range_length 1 1000000000 1 →
  releases cs w'' = Some (w3, failed) →
  ∃ sys' progress,
    do_probe_request_connection_limit sys = (sys', Return tt)
    ∧ closes_of (calls sys') = closes_of (calls sys) ++ cs
    ∧ length cs = k
    ∧ shell sys' = shell sys
    ∧ output sys'
      = output sys ++ progress
        ++ [ MaxConnectionsIdentified (Z.of_nat k); ReleasingConnections;
             ConnectionsReleased (k - failed) failed ].
Proof.
  intros Hk Hl Hp Hb Hacc Hfail He Hfuel Hrel.
  assert (Hlen : length cs = k).
  { clear -Hacc. revert cs w' Hacc. generalize (world sys).
    induction k as [|k IH]; intros w cs w'; simpl.
    - by intros [= <- <-].
    - destruct (create_connection request w) as [w1 [c|e1]]; [|done].
      destruct (opens_accepted request w1 k) as [[w2 cs']|] eqn:E; [|done].
      intros [= <- <-]. simpl. f_equal. by eapply IH. }
  unfold do_probe_request_connection_limit.
  unfold try_except, bind at 1, get at 1. cbn beta iota. rewrite Hl.
  unfold bind at 1, lift_outcome at 1. rewrite Hp. cbn beta iota.
  unfold bind at 1, lift_outcome at 1. rewrite Hb.
  cbn beta iota delta [outcome_of_result].
  unfold bind at 1, print at 1. cbn beta iota.
  set (s1 := MkSys _ _ _ _).
  destruct (connection_probe_loop_breaks request k (range_length 1 1000000000 1)
              1 [] s1 w' cs w'' e)
    as (s2 & E & Hw & Hs & Hcl & progress & Hout); [done..|].
  unfold bind at 1. rewrite E. cbn beta iota.
  replace (1 + Z.of_nat k - 1)%Z with (Z.of_nat k) by lia. rewrite app_nil_l.
  destruct (Z.ltb_spec 0 (Z.of_nat k)); [|lia].
  unfold bind at 1, print at 1. cbn beta iota.
  unfold bind at 1, print at 1. cbn beta iota.
  set (s3 := MkSys _ _ _ _).
  destruct (release_loop_spec cs 0 s3 w3 failed)
    as (s4 & E4 & Hw4 & Hs4 & Ho4 & Hcl4); [by subst s3; rewrite Hw|].
  unfold bind at 1. rewrite E4. cbn beta iota. unfold print.
  eexists _, ([ProbingConnections] ++ progress).
  split_and!; [reflexivity | | done | |].
  - cbn [calls]. rewrite Hcl4. subst s3. cbn [calls]. by rewrite Hcl.
  - cbn [shell]. rewrite Hs4. subst s3. cbn [shell]. by rewrite Hs.
  - cbn [output]. rewrite Ho4. subst s3. cbn [output]. rewrite Hout.
    subst s1. cbn [output]. rewrite Hlen. by rewrite <- !(assoc_L (++)).
Qed.

(** Without saved parameters the connection probe asks for a first connect
    and makes no transport call. *)
Theorem connection_probe_without_context (sys : Sys) :
  client_connection_parameters (shell sys) = None →
  do_probe_request_connection_limit sys
  = (MkSys (world sys) (shell sys) (output sys ++ [InitialConnectionRequired])
       (calls sys),
     Return tt).
Proof.
  intros Hn. unfold do_probe_request_connection_limit.
  unfold try_except, bind at 1, get at 1. cbn beta iota. by rewrite Hn.
Qed.

(** The release loop ends at the first [close] that raises something other
    than [IOError]: the connections before it were closed, the ones after it
    are not. *)
Theorem release_loop_stops before c after : ∀ n (sys : Sys) w' failed w'' e,
  releases before (world sys) = Some (w', failed) →
  ws_close c w' = (w'', Raise e) →
  is_IOError e = false →
  ∃ sys', release_loop (before ++ c :: after) n sys = (sys', Raised e)
          ∧ closes_of (calls sys') = closes_of (calls sys) ++ before ++ [c].
Proof.
  induction before as [|c0 before IH]; intros n sys w' failed w'' e Hrel Hc He.
  - simpl in Hrel. injection Hrel as <- <-.
    destruct (release_loop_raises c after n sys w'' e Hc He) as (sys' & E & Hcl).
    by exists sys'.
  - cbn [releases] in Hrel. cbn [app release_loop]. unfold_monad. simpl.
    destruct (ws_close c0 (world sys)) as [w1 [[]|e0]] eqn:Ec0; simpl.
    + match goal with |- context [release_loop _ _ ?s] => set (s1 := s) end.
      destruct (IH n s1 w' failed w'' e Hrel Hc He) as (sys' & E & Hcl).
      exists sys'. rewrite E. split; [done|]. rewrite Hcl. simpl.
      rewrite closes_of_app. simpl. by rewrite <- !(assoc_L (++)).
    + destruct (is_IOError e0) eqn:He0; [|done]. simpl.
      destruct (releases before w1) as [[w2 n']|] eqn:Hrel'; [|done].
      injection Hrel as <- <-.
      match goal with |- context [release_loop _ _ ?s] => set (s1 := s) end.
      destruct (IH (n + 1) s1 w2 n' w'' e Hrel' Hc He) as (sys' & E & Hcl).
      exists sys'. rewrite E. split; [done|]. rewrite Hcl. simpl.
      rewrite closes_of_app. simpl. by rewrite <- !(assoc_L (++)).
Qed.

End ProbersMore.
Lemma length_probe_reports_last_accepted_witness :
  let sc := size_limit_script 35 in
  ∃ sys', do_probe_request_length_limit (Env := scripted sc) (connected_sys sc)
          = (sys', Return tt)
          ∧ last (output sys') = Some (MaxLengthIdentified (10 * Z.of_nat 3)).
Proof.
  intros sc.
  eapply (length_probe_reports_last_accepted (Env := scripted sc) 3
            (connected_sys sc)
            (state_after (check_connection_availability (Env := scripted sc))
               (connected_sys sc))).
  - lia.
  - vm_compute. reflexivity.
  - vm_compute. reflexivity.
  - vm_compute. reflexivity.
  - vm_compute. reflexivity.
  - reflexivity.
  - unfold range_length.
    change ((1000000000 - 10 + 10 - 1) / 10)%Z with 99999999%Z. lia.
Defined.

Lemma connection_probe_reports_and_releases_witness :
  let sc := open_limit_script 4 (Exn WebSocketException "Handshake status 503") 2 in
  ∃ sys' progress,
    do_probe_request_connection_limit (Env := scripted sc) (connected_sys sc)
    = (sys', Return tt)
    ∧ closes_of (calls sys') = closes_of (calls (connected_sys sc)) ++ [1; 2; 3]
    ∧ length [1; 2; 3] = 3
    ∧ shell sys' = shell (connected_sys sc)
    ∧ output sys'
      = output (connected_sys sc) ++ progress
        ++ [ MaxConnectionsIdentified (Z.of_nat 3); ReleasingConnections;
             ConnectionsReleased (3 - 1) 1 ].
Proof.
  intros sc.
  eapply (connection_probe_reports_and_releases (Env := scripted sc)
            (connected_sys sc) connect_line
            (Namespace (Some "ws://echo.websocket.org") None None None)
            echo_request 3).
  - lia.
  - vm_compute. reflexivity.
  - reflexivity.
  - reflexivity.
  - vm_compute. reflexivity.
  - vm_compute. reflexivity.
  - reflexivity.
  - unfold range_length.
    change ((1000000000 - 1 + 1 - 1) / 1)%Z with 999999999%Z. lia.
  - vm_compute. reflexivity.
Defined.


(** ** Channel capability prober, continued *)

Lemma replace_from_absent old new s :
  PyStr.contains old s = false → PyStr.replace_from old new 0 s = s.
Proof.
  induction s as [|c s IH]; [done|].
  cbn [PyStr.contains PyStr.replace_from].
  intros [Hp Hc]%orb_false_elim. rewrite Hp. f_equal. by apply IH.
Qed.

Lemma replace_wss_in_ws rest :
  PyStr.replace_from "wss://" "" 0 ("ws://" +:+ rest)
  = "ws://" +:+ PyStr.replace_from "wss://" "" 0 rest.
Proof. destruct rest; reflexivity. Qed.

Lemma replace_ws_in_ws rest :
  PyStr.replace_from "ws://" "" 0 ("ws://" +:+ rest)
  = PyStr.replace_from "ws://" "" 0 rest.
Proof. destruct rest; reflexivity. Qed.

Lemma replace_wss_in_wss rest :
  PyStr.replace_from "wss://" "" 0 ("wss://" +:+ rest)
  = PyStr.replace_from "wss://" "" 0 rest.
Proof. destruct rest; reflexivity. Qed.

Lemma startswith_wss_ws rest :
  PyStr.startswith ("ws://" +:+ rest) "wss://" = false
  ∧ PyStr.startswith ("wss://" +:+ rest) "wss://" = true.
Proof. split; destruct rest; reflexivity. Qed.

(** For a saved endpoint in lower case whose only scheme token is its prefix,
    the probe targets the same endpoint under the other scheme. *)
Theorem target_endpoint_complementary (rest : string) :
  PyStr.lower rest = rest →
  PyStr.contains "ws://" rest = false →
  PyStr.contains "wss://" rest = false →
  target_endpoint ("ws://" +:+ rest) = "wss://" +:+ rest
  ∧ target_endpoint ("wss://" +:+ rest) = "ws://" +:+ rest.
Proof.
  intros Hlow Hws Hwss. unfold target_endpoint, protocol_to_test, PyStr.replace.
  destruct (startswith_wss_ws rest) as [Hs1 Hs2].
  rewrite !lower_app, Hlow.
  change (PyStr.lower "ws://") with "ws://".
  change (PyStr.lower "wss://") with "wss://".
  rewrite Hs1, Hs2. split.
  - rewrite replace_wss_in_ws, (replace_from_absent "wss://" "" rest Hwss).
    by rewrite replace_ws_in_ws, (replace_from_absent "ws://" "" rest Hws).
  - rewrite replace_wss_in_wss, (replace_from_absent "wss://" "" rest Hwss).
    by rewrite (replace_from_absent "ws://" "" rest Hws).
Qed.

Lemma target_endpoint_complementary_witness :
  target_endpoint ("ws://" +:+ "echo.websocket.org/chat") = "wss://" +:+ "echo.websocket.org/chat"
  ∧ target_endpoint ("wss://" +:+ "echo.websocket.org/chat") = "ws://" +:+ "echo.websocket.org/chat".
Proof.
  apply (target_endpoint_complementary "echo.websocket.org/chat"); reflexivity.
Defined.

Section ChannelMore.
Context `{Env : Environment}.

(** The channel probe works on a connection of its own: it never touches the
    shell's client, saved parameters or store, and it never calls [close],
    not even on the connection it opened.  On a shell whose saved parameters
    are a line [argparse] accepts, as [do_connect] saves them, it returns:
    every exception is caught and reported. *)
Theorem channel_probe_frame (sys : Sys) :
  shell (state_after do_probe_connection_channels_supported sys) = shell sys
  ∧ closes_of (calls (state_after do_probe_connection_channels_supported sys))
    = closes_of (calls sys)
  ∧ (saved_parameters_parse (shell sys) →
     (do_probe_connection_channels_supported sys).2 = Return tt).
Proof.
  unfold do_probe_connection_channels_supported. unfold_monad.
  destruct (client_connection_parameters (shell sys)) as [p|] eqn:Hp; simpl; [|done].
  destruct (parse_args _) as [args|e|] eqn:Hparse; simpl; [|done|].
  2:{ split_and!; [done|done|]. intros Hinv.
      destruct (Hinv p Hp) as [args Hargs]. congruence. }
  destruct (build_request args) as [request|e]; simpl; [|done].
  destruct (endpoint args) as [ep|]; simpl; [|done].
  destruct (create_connection _ (world sys)) as [w1 [c|e]]; simpl.
  - destruct (ws_send c "hello" w1) as [w2 [[]|e]]; simpl.
    + destruct (ws_recv c w2) as [w3 [r|e]]; simpl.
      * split_and!; [done | by rewrite !closes_of_app, !app_nil_r | done].
      * destruct (WebSocketException_or_IOError e); simpl;
          (split_and!; [done | by rewrite !closes_of_app, !app_nil_r | done]).
    + destruct (WebSocketException_or_IOError e); simpl;
        (split_and!; [done | by rewrite !closes_of_app, !app_nil_r | done]).
  - destruct (WebSocketException_or_IOError e); simpl;
      (split_and!; [done | by rewrite !closes_of_app, !app_nil_r | done]).
Qed.

(** The probe opens its connection at the derived endpoint, with the headers,
    origin and subprotocols of the saved parameters, and reports the protocol
    as supported exactly when the endpoint validates it; a
    [WebSocketException] or an [IOError] is reported as not supported, with
    its text. *)
Theorem channel_probe_outcome (sys : Sys) l args request ep :
  client_connection_parameters (shell sys) = Some l →
  parse_args (PyStr.split_char space l) = Return args →
  build_request args = Ok request →
  endpoint args = Some ep →
  let probe :=
    ConnectionRequest (Some (target_endpoint ep)) 10 (header request)
      (request_origin request) (request_subprotocols request) in
  let after := state_after do_probe_connection_channels_supported sys in
  (∃ rest, calls after = calls sys ++ CallCreate probe :: rest)
  ∧ match connect_transport probe (world sys) with
    | Validated _ =>
        last (output after)
        = Some (ProtocolSupported (msg_prefix ep) (protocol_to_test ep))
    | Handshake_failed e | Liveness_failed _ e =>
        last (output after)
        = Some (if WebSocketException_or_IOError e
                then ProtocolNotSupported (msg_prefix ep) (protocol_to_test ep)
                       (exn_str e)
                else ProbingFailed (exn_str e))
    end.
Proof.
  intros Hl Hp Hb He probe after. subst after.
  unfold connect_transport, do_probe_connection_channels_supported. unfold_monad.
  rewrite Hl. simpl. rewrite Hp. simpl. rewrite Hb. simpl. rewrite He. simpl.
  fold probe.
  destruct (create_connection probe (world sys)) as [w1 [c|e]]; simpl.
  - destruct (ws_send c "hello" w1) as [w2 [[]|e]]; simpl.
    + destruct (ws_recv c w2) as [w3 [r|e]]; simpl.
      * split; [rewrite <- !(assoc_L (++)); by eexists | by rewrite last_snoc].
      * destruct (WebSocketException_or_IOError e); simpl;
          (split; [rewrite <- !(assoc_L (++)); by eexists | by rewrite last_snoc]).
    + destruct (WebSocketException_or_IOError e); simpl;
        (split; [rewrite <- !(assoc_L (++)); by eexists | by rewrite last_snoc]).
  - destruct (WebSocketException_or_IOError e); simpl;
      (split; [by eexists | by rewrite last_snoc]).
Qed.

End ChannelMore.
Lemma channel_probe_frame_witness :
  let sys := connected_sys echo_script in
  let probe :=
    do_probe_connection_channels_supported (Env := scripted echo_script) in
  shell (state_after probe sys) = shell sys
  ∧ closes_of (calls (state_after probe sys)) = closes_of (calls sys)
  ∧ (probe sys).2 = Return tt.
Proof.
  intros sys probe.
  destruct (channel_probe_frame (Env := scripted echo_script) sys)
    as (Hshell & Hcloses & Hreturns).
  split_and!; [exact Hshell | exact Hcloses |].
  apply Hreturns.
  intros l Hl. vm_compute in Hl. injection Hl as <-. eexists. vm_compute. reflexivity.
Defined.

Lemma channel_probe_outcome_witness :
  let sys := connected_sys one_connection_script in
  let ep := "ws://echo.websocket.org" in
  let probe :=
    ConnectionRequest (Some (target_endpoint ep)) 10 (header echo_request)
      (request_origin echo_request) (request_subprotocols echo_request) in
  let after :=
    state_after (do_probe_connection_channels_supported
                   (Env := scripted one_connection_script)) sys in
  (∃ rest, calls after
           = calls sys ++ @CallCreate (scripted one_connection_script) probe :: rest)
  ∧ match connect_transport (Env := scripted one_connection_script) probe (world sys) with
    | Validated _ =>
        last (output after)
        = Some (ProtocolSupported (msg_prefix ep) (protocol_to_test ep))
    | Handshake_failed e | Liveness_failed _ e =>
        last (output after)
        = Some (if WebSocketException_or_IOError e
                then ProtocolNotSupported (msg_prefix ep) (protocol_to_test ep)
                       (exn_str e)
                else ProbingFailed (exn_str e))
    end.
Proof.
  intros sys ep.
  apply (channel_probe_outcome (Env := scripted one_connection_script) sys connect_line
           (Namespace (Some "ws://echo.websocket.org") None None None)
           echo_request ep); reflexivity.
Defined.


(** ** Analysis and export, continued *)

Lemma gather_response_times_keys exchanges indices : ∀ d d' k,
  gather_response_times exchanges indices d = Ok d' →
  k ∈ d'.*1 ↔ k ∈ d.*1 ∨ ∃ idx, idx ∈ indices ∧ seconds_at exchanges idx = Some k.
Proof.
  induction indices as [|idx indices IH]; intros d d' k; simpl.
  - intros [= <-]. split; [by left|].
    intros [|(idx & Hnil & _)]; [done | by apply elem_of_nil in Hnil].
  - unfold seconds_at in *. destruct (exchanges !! idx) as [e|] eqn:He; [|done].
    intros E. rewrite (IH _ _ k E), gather_keys. split.
    + intros [Hin|(i & Hi & Hk)].
      * case_decide as Hd; [by left|].
        apply elem_of_app in Hin as [Hin|Hin]; [by left|].
        apply list_elem_of_singleton in Hin as ->.
        right. exists idx. split; [left | by rewrite He].
      * right. exists i. split; [by right | done].
    + intros [Hin|(i & Hi & Hk)].
      * left. case_decide; [done | apply elem_of_app; by left].
      * apply elem_of_cons in Hi as [->|Hi].
        -- left. rewrite He in Hk. injection Hk as <-.
           case_decide; [done | apply elem_of_app; right; left].
        -- right. by exists i.
Qed.

(** The timing table has one row for each number of whole seconds some
    exchange took, no key twice, and each row lists the indices of the
    exchanges with that key in ascending order. *)
Theorem timing_aggregation_groups exchanges rows :
  do_analyze_response_times exchanges = Ok rows →
  NoDup rows.*1
  ∧ (∀ k v, (k, v) ∈ rows →
       v = PyStr.strip (index_pieces exchanges k (seq 0 (size exchanges))))
  ∧ (∀ k, k ∈ rows.*1
          ↔ ∃ idx, idx < size exchanges ∧ seconds_at exchanges idx = Some k).
Proof.
  intros E. split_and!.
  - by apply (do_analyze_response_times_NoDup exchanges).
  - intros k v. by apply do_analyze_response_times_rows.
  - intros k. unfold do_analyze_response_times in E.
    destruct (gather_response_times _ _ _) as [d|] eqn:Eg; [|done].
    injection E as <-. rewrite <- list_fmap_compose.
    rewrite (list_fmap_ext _ fst) by (by intros ? []).
    rewrite (gather_response_times_keys _ _ _ _ k Eg). split.
    + intros [Hnil|(idx & Hin%elem_of_seq & Hk)]; [by apply elem_of_nil in Hnil|].
      exists idx. split; [lia|done].
    + intros (idx & Hlt & Hk). right. exists idx. split; [apply elem_of_seq; lia | done].
Qed.

Lemma timing_aggregation_groups_witness :
  let exchanges := store_of_times [805; 110; 820]%Z in
  let rows := [ (8%Z, "0 2"); (1%Z, "1") ] in
  NoDup rows.*1
  ∧ (∀ k v, (k, v) ∈ rows →
       v = PyStr.strip (index_pieces exchanges k (seq 0 (size exchanges))))
  ∧ (∀ k, k ∈ rows.*1
          ↔ ∃ idx, idx < size exchanges ∧ seconds_at exchanges idx = Some k).
Proof.
  apply (timing_aggregation_groups (store_of_times [805; 110; 820]%Z)).
  vm_compute. reflexivity.
Defined.

(** The member names of the exported document are exactly the indices of the
    store, written in decimal. *)
Theorem export_member_names (exchanges : gmap nat Exchange) s :
  is_Some (py_lookup (KStr s) (json_loads (store_exchanges_to_file exchanges)))
  ↔ ∃ idx, s = PyStr.str_of_nat idx ∧ is_Some (exchanges !! idx).
Proof.
  split.
  - intros [d Hd]. by apply (parsed_exchanges_keys exchanges s d).
  - intros (idx & -> & e & He).
    destruct (parsed_exchanges exchanges) as (items & -> & Hp).
    pose proof (parsed_back_exchanges_NoDup exchanges) as Hnd.
    assert (Hnd' : NoDup items.*1) by by rewrite Hp.
    eexists. cbn [py_lookup]. apply items_lookup_Some; [done|]. rewrite Hp.
    apply list_elem_of_fmap. exists (idx, e). split; [reflexivity|].
    by apply elem_of_map_to_list.
Qed.

#[global] Instance item_le_total {A} : Total (@item_le A).
Proof.
  intros [k1 a1] [k2 a2]. unfold item_le. simpl.
  destruct k1 as [n1|s1], k2 as [n2|s2]; simpl; auto.
  - destruct (Z.leb_spec n1 n2), (Z.leb_spec n2 n1); auto; lia.
  - apply String.leb_total.
Qed.

Lemma Sorted_weaken {A} (R R' : relation A) (P : A → Prop) l :
  (∀ a b, P a → P b → R a b → R' a b) →
  Forall P l → Sorted R l → Sorted R' l.
Proof.
  intros HR HP HS. induction HS as [|a l HS IH Hd]; [constructor|].
  apply Forall_cons in HP as [Ha HP]. constructor; [by apply IH|].
  destruct Hd as [|b l Hab]; constructor.
  apply Forall_cons in HP as [Hb _]. by apply HR.
Qed.

(** [sort_keys=True] orders the members of the export by index, as numbers:
    the names are the decimal texts of the indices of the store, each once,
    in ascending order. *)
Theorem export_sorted_by_index (exchanges : gmap nat Exchange) :
  ∃ members idxs,
    store_exchanges_to_file exchanges = JObject members
    ∧ members.*1 = PyStr.str_of_nat <$> idxs
    ∧ Sorted Nat.le idxs
    ∧ NoDup idxs
    ∧ ∀ idx, idx ∈ idxs ↔ is_Some (exchanges !! idx).
Proof.
  unfold store_exchanges_to_file, exchanges_value. cbn [json_dumps].
  rewrite <- list_fmap_compose.
  set (L := (_ <$> map_to_list exchanges)).
  set (S := merge_sort item_le L).
  assert (HL : L.*1 = (λ idx : nat, KInt (Z.of_nat idx)) <$> (map_to_list exchanges).*1).
  { subst L. rewrite <- !list_fmap_compose. by apply list_fmap_ext. }
  assert (Hperm : S.*1 ≡ₚ L.*1) by (subst S; by rewrite merge_sort_Permutation).
  assert (Hkeys : Forall (λ i : pykey * json, ∃ idx : nat, i.1 = KInt (Z.of_nat idx)) S).
  { apply Forall_forall. intros i Hi.
    assert (Hin : i.1 ∈ L.*1).
    { rewrite <- Hperm. apply list_elem_of_fmap. by exists i. }
    rewrite HL in Hin. apply list_elem_of_fmap in Hin as (idx & -> & _). by exists idx. }
  assert (Hidx : (index_of_key <$> S.*1) ≡ₚ (map_to_list exchanges).*1).
  { rewrite Hperm, HL, <- list_fmap_compose.
    rewrite (list_fmap_ext _ id); [by rewrite list_fmap_id|].
    intros _ idx _. simpl. apply Nat2Z.id. }
  exists ((λ i : pykey * json, (member_name i.1, i.2)) <$> S),
         (index_of_key <$> S.*1).
  split_and!.
  - reflexivity.
  - rewrite <- !list_fmap_compose. apply list_fmap_ext.
    intros n i Hi. simpl.
    destruct (proj1 (Forall_forall _ _) Hkeys i) as [idx Hk];
      [by eapply list_elem_of_lookup_2|].
    rewrite Hk. simpl. by rewrite Nat2Z.id, pretty_Z_of_nat.
  - rewrite <- list_fmap_compose.
    apply (Sorted_fmap _ (λ a b : pykey * json, index_of_key a.1 ≤ index_of_key b.1)
             Nat.le); [done|].
    eapply (Sorted_weaken item_le); [| exact Hkeys | apply Sorted_merge_sort, _].
    intros a b [ia Ha] [ib Hb] Hab. unfold item_le in Hab. simpl.
    rewrite Ha, Hb in *. simpl in *. rewrite !Nat2Z.id.
    apply Z.leb_le in Hab. lia.
  - rewrite Hidx. apply NoDup_fst_map_to_list.
  - intros idx. rewrite Hidx. rewrite list_elem_of_fmap. split.
    + intros ([i e] & -> & Hin%elem_of_map_to_list). by exists e.
    + intros [e He]. exists (idx, e). split; [done | by apply elem_of_map_to_list].
Qed.

(** A dictionary keyed by words, as [do_search] stores it, comes back from its
    export as it was: the same keys, kept as text, and the same values. *)
Theorem store_data_round_trip (found : list (string * string)) k :
  NoDup found.*1 →
  py_lookup k (json_loads (store_data_to_file (found_value found)))
  = py_lookup k (found_value found).
Proof.
  intros Hnd. unfold store_data_to_file, found_value.
  destruct (json_loads_dumps_dict
              ((λ kv : string * string, (KStr kv.1, PyStr kv.2)) <$> found))
    as (items & -> & Hp).
  cbn [py_lookup]. symmetry.
  assert (Hpb : parsed_back ((λ kv : string * string, (KStr kv.1, PyStr kv.2)) <$> found)
                = (λ kv : string * string, (KStr kv.1, PyStr kv.2)) <$> found).
  { unfold parsed_back. rewrite <- list_fmap_compose. by apply list_fmap_ext. }
  rewrite Hpb in Hp. apply items_lookup_Permutation; [|by symmetry].
  rewrite <- list_fmap_compose.
  rewrite (list_fmap_ext _ (KStr ∘ fst)) by done.
  rewrite list_fmap_compose. apply NoDup_fmap_2; [|done].
  by intros ?? [= ->].
Qed.

Lemma store_data_round_trip_witness :
  NoDup [("SQLException", "0 2"); ("test123", "1")].*1
  ∧ py_lookup (KStr "test123")
      (json_loads (store_data_to_file
                     (found_value [("SQLException", "0 2"); ("test123", "1")])))
    = py_lookup (KStr "test123")
        (found_value [("SQLException", "0 2"); ("test123", "1")]).
Proof.
  assert (H : NoDup [("SQLException", "0 2"); ("test123", "1")].*1).
  { simpl. apply NoDup_cons. split; [|apply NoDup_singleton].
    intros Hin. apply list_elem_of_singleton in Hin. discriminate. }
  split; [exact H|].
  exact (store_data_round_trip [("SQLException", "0 2"); ("test123", "1")]
           (KStr "test123") H).
Defined.
(** ** Message templates of [do_fuzz] *)

Lemma append_cons c (s t : string) : String c s +:+ t = String c (s +:+ t).
Proof. reflexivity. Qed.

Lemma substitute_from_plain mapping pre s :
  plain pre = true →
  substitute_from mapping Text (pre +:+ s) = pre +:+ substitute_from mapping Text s.
Proof.
  induction pre as [|c pre IH]; intros Hplain; [done|].
  apply andb_prop in Hplain as [Hc Hpre]. rewrite !append_cons. cbn [substitute_from].
  apply negb_true_iff in Hc. rewrite Hc. f_equal. by apply IH.
Qed.

Lemma substitute_from_named mapping rest : ∀ name acc,
  all_chars is_identifier_char name = true →
  ends_name rest = true →
  substitute_from mapping (Named acc) (name +:+ rest)
  = resolve mapping (acc +:+ name) ("$" +:+ (acc +:+ name))
    +:+ substitute_from mapping Text rest.
Proof.
  induction name as [|c name IH]; intros acc Hname Hrest.
  - change ("" +:+ rest) with rest. rewrite string_app_empty_r.
    destruct rest as [|c rest]; cbn [substitute_from].
    + by rewrite string_app_empty_r.
    + cbn [ends_name] in Hrest. apply negb_true_iff in Hrest. by rewrite Hrest.
  - apply andb_prop in Hname as [Hc Hname]. rewrite append_cons.
    cbn [substitute_from]. rewrite Hc, (IH _ Hname Hrest).
    by rewrite string_app_assoc.
Qed.

(** A placeholder [$name] of the template is replaced by the value the
    binding gives to [name], and stays as written when the binding has none;
    the text before it, free of dollar signs, is copied, and the rest is
    substituted on its own. *)
Theorem safe_substitute_placeholder (mapping : binding) (pre name rest : string) :
  plain pre = true →
  is_identifier name = true →
  ends_name rest = true →
  safe_substitute (pre +:+ "$" +:+ name +:+ rest) mapping
  = pre +:+ default ("$" +:+ name) (mapping !! name) +:+ safe_substitute rest mapping.
Proof.
  intros Hpre Hname Hrest. unfold safe_substitute.
  rewrite substitute_from_plain by done. f_equal.
  destruct name as [|c name]; [done|]. cbn [is_identifier] in Hname.
  apply andb_prop in Hname as [Hc Hname].
  change ("$" +:+ String c name +:+ rest) with (String "$" (String c (name +:+ rest))).
  cbn [substitute_from].
  assert (Hd : is_dollar c = false).
  { destruct (is_dollar c) eqn:E; [|done]. apply Ascii.eqb_eq in E as ->. done. }
  change (is_dollar "$") with true. cbn iota. rewrite Hd, Hc.
  rewrite (substitute_from_named _ _ _ _ Hname Hrest).
  unfold resolve. change (String c "" +:+ name) with (String c name).
  by destruct (mapping !! String c name).
Qed.

(** [$$] in the template gives one dollar sign, whatever the binding. *)
Theorem safe_substitute_escape (mapping : binding) (pre rest : string) :
  plain pre = true →
  safe_substitute (pre +:+ "$$" +:+ rest) mapping
  = pre +:+ "$" +:+ safe_substitute rest mapping.
Proof.
  intros Hpre. unfold safe_substitute. rewrite substitute_from_plain by done. done.
Qed.

(** A template without dollar sign is sent as it is, for every binding. *)
Theorem safe_substitute_plain (mapping : binding) (template : string) :
  plain template = true →
  safe_substitute template mapping = template.
Proof.
  intros Hplain. unfold safe_substitute.
  rewrite <- (string_app_empty_r template) at 1.
  rewrite substitute_from_plain by done. apply string_app_empty_r.
Qed.

Lemma safe_substitute_placeholder_witness :
  let mapping : binding := <[ "payload_1" := "x" ]> ∅ in
  safe_substitute ("Hello " +:+ "$" +:+ "payload_1" +:+ " and $payload_2") mapping
  = "Hello " +:+ default ("$" +:+ "payload_1") (mapping !! "payload_1")
    +:+ safe_substitute " and $payload_2" mapping.
Proof.
  intros mapping.
  apply (safe_substitute_placeholder mapping "Hello " "payload_1" " and $payload_2");
    reflexivity.
Defined.

Lemma safe_substitute_escape_witness :
  safe_substitute ("cost: " +:+ "$$" +:+ "5 for $payload_1") (<[ "payload_1" := "x" ]> ∅)
  = "cost: " +:+ "$" +:+ safe_substitute "5 for $payload_1" (<[ "payload_1" := "x" ]> ∅).
Proof.
  apply (safe_substitute_escape (<[ "payload_1" := "x" ]> ∅) "cost: " "5 for $payload_1");
    reflexivity.
Defined.

Lemma safe_substitute_plain_witness :
  safe_substitute "ping" (<[ "payload_1" := "x" ]> ∅) = "ping".
Proof.
  apply (safe_substitute_plain (<[ "payload_1" := "x" ]> ∅) "ping"); reflexivity.
Defined.

(** ** The commands [replay] and [fuzz] *)

Section CommandProperties.
Context `{Env : Environment} `{Loc : Local}.

(** The bulk run of [do_replay] and [do_fuzz]: the store is cleared, then one
    exchange is recorded per message, at the index of the message. *)
Lemma send_messages_after_clear (msgs : list string) (s : Sys) :
  saved_parameters_parse (shell s) →
  ∃ s', send_messages msgs (state_after (put (set_exchanges ∅)) s) = (s', Return tt)
        ∧ (∀ idx, is_Some (exchanges (shell s') !! idx) ↔ idx < length msgs)
        ∧ (∀ idx e, exchanges (shell s') !! idx = Some e → msgs !! idx = Some (REQUEST e)).
Proof.
  intros Hinv. unfold send_messages.
  set (s0 := state_after (print SendingMessages) (state_after (put (set_exchanges ∅)) s)).
  assert (Hinv0 : saved_parameters_parse (shell s0)) by exact Hinv.
  destruct (send_messages_loop_spec msgs 0 0 s0 Hinv0)
    as (s1 & ec & E & _ & Frame & Entries & _).
  unfold bind at 1.
  change (print SendingMessages (state_after (put (set_exchanges ∅)) s))
    with (s0, Return tt).
  cbn beta iota. unfold bind at 1. rewrite E. cbn beta iota.
  eexists. split; [reflexivity|]. cbn [shell].
  assert (Hdense : ∀ idx, is_Some (exchanges (shell s1) !! idx) ↔ idx < length msgs).
  { intros idx. split.
    - intros Hsome. destruct (decide (idx < length msgs)) as [|Hge]; [done|].
      rewrite Frame in Hsome by (simpl; lia).
      change (exchanges (shell s0)) with (∅ : gmap nat Exchange) in Hsome.
      rewrite lookup_empty in Hsome. by destruct Hsome.
    - intros Hlt. destruct (lookup_lt_is_Some_2 msgs idx Hlt) as [m Hm].
      destruct (Entries idx m Hm) as (e & He & _). by exists e. }
  split; [exact Hdense|].
  intros idx e He.
  assert (Hlt : idx < length msgs) by (apply Hdense; by exists e).
  destruct (lookup_lt_is_Some_2 msgs idx Hlt) as [m Hm].
  destruct (Entries idx m Hm) as (e' & He' & Hrec & _).
  simpl in He'. rewrite He in He'. injection He' as <-. by rewrite Hrec.
Qed.

Lemma replay_guard line :
  PyStr.strip line ≠ "" →
  PyStr.contains "-m" line = true →
  PyStr.contains "-n" line = true →
  String.eqb (PyStr.strip line) "" || negb (PyStr.contains "-m" line)
  || negb (PyStr.contains "-n" line) = false.
Proof.
  intros Hs -> ->. apply String.eqb_neq in Hs. by rewrite Hs.
Qed.

Lemma fuzz_guard line :
  PyStr.strip line ≠ "" →
  PyStr.contains "-m" line = true →
  PyStr.contains "-p" line = true →
  String.eqb (PyStr.strip line) "" || negb (PyStr.contains "-m" line)
  || negb (PyStr.contains "-p" line) = false.
Proof.
  intros Hs -> ->. apply String.eqb_neq in Hs. by rewrite Hs.
Qed.

Ltac unfold_session :=
  unfold bind, ret, try_except, lift_result, lift_outcome, outcome_of_result,
    on_sys, note, write_file, store_exchanges, get, put, Exception in *.

(** A replay that reads its message file and finds the connection available
    leaves a store of exactly [n] exchanges, none for an [n] below 1, each
    with the message as its request, whatever the store held before; the file
    [exchanges_replay.json] then holds the export of this store. *)
Theorem do_replay_records (line p message : string) (n : Z) (d : Session) s1 :
  PyStr.strip line ≠ "" →
  PyStr.contains "-m" line = true →
  PyStr.contains "-n" line = true →
  parse_replay_args (PyStr.split_char space line)
  = Return (ReplayNamespace (Some p) (Some n)) →
  read_text p = Ok message →
  saved_parameters_parse (shell (sys d)) →
  check_connection_availability (sys d) = (s1, Return tt) →
  open_to_write "exchanges_replay.json" = Ok tt →
  ∃ d', do_replay line d = (d', Return tt)
        ∧ (∀ idx, is_Some (exchanges (shell (sys d')) !! idx) ↔ idx < Z.to_nat n)
        ∧ (∀ idx e, exchanges (shell (sys d')) !! idx = Some e → REQUEST e = message)
        ∧ files d'
          = <[ "exchanges_replay.json"
               := store_exchanges_to_file (exchanges (shell (sys d'))) ]> (files d).
Proof.
  intros Hs Hm Hn Hparse Hread Hinv Hcheck Hopen.
  assert (Hinv1 : saved_parameters_parse (shell s1)).
  { destruct (check_connection_availability_keeps (sys d) Hinv) as [(_ & Hk & _) _].
    rewrite Hcheck in Hk. by apply Hk. }
  destruct (send_messages_after_clear (repeat_message message n) s1 Hinv1)
    as (s2 & Esend & Hdense & Hreq).
  unfold state_after, put in Esend. cbn [fst] in Esend.
  unfold do_replay. rewrite (replay_guard line Hs Hm Hn).
  unfold_session. cbn -[send_messages check_connection_availability].
  rewrite Hparse. cbn -[send_messages check_connection_availability].
  rewrite Hread. cbn -[send_messages check_connection_availability].
  rewrite Hcheck. cbn -[send_messages check_connection_availability].
  rewrite Esend. cbn -[send_messages check_connection_availability].
  rewrite Hopen. cbn -[send_messages check_connection_availability].
  eexists. split; [reflexivity|]. cbn [sys files].
  split_and!; [|intros idx e He|done].
  - intros idx. rewrite Hdense. unfold repeat_message. by rewrite length_replicate.
  - apply Hreq in He. unfold repeat_message in He.
    apply lookup_replicate in He as [He _]. done.
Qed.

(** A replay whose message file cannot be read stops there: nothing is sent,
    the store and the files are as they were, and the error is printed. *)
Theorem do_replay_unreadable_message (line p : string) n (d : Session) e :
  PyStr.strip line ≠ "" →
  PyStr.contains "-m" line = true →
  PyStr.contains "-n" line = true →
  parse_replay_args (PyStr.split_char space line) = Return (ReplayNamespace (Some p) n) →
  read_text p = Raise e →
  do_replay line d
  = (MkSession (sys d) (files d)
       (notices d ++ [ReadingMessage] ++ [ReplayFailed (exn_str e)]),
     Return tt).
Proof.
  intros Hs Hm Hn Hparse Hread.
  unfold do_replay. rewrite (replay_guard line Hs Hm Hn).
  unfold_session. cbn -[send_messages check_connection_availability].
  rewrite Hparse. cbn -[send_messages check_connection_availability].
  rewrite Hread. cbn -[send_messages check_connection_availability].
  by rewrite <- app_assoc.
Qed.

(** A replay that finds the connection unavailable keeps the exchanges of the
    run before: the store is cleared only once the availability check has
    returned, and no file is written. *)
Theorem do_replay_connection_lost (line p message : string) n (d : Session) s1 e :
  PyStr.strip line ≠ "" →
  PyStr.contains "-m" line = true →
  PyStr.contains "-n" line = true →
  parse_replay_args (PyStr.split_char space line) = Return (ReplayNamespace (Some p) n) →
  read_text p = Ok message →
  saved_parameters_parse (shell (sys d)) →
  check_connection_availability (sys d) = (s1, Raised e) →
  ∃ d', do_replay line d = (d', Return tt)
        ∧ exchanges (shell (sys d')) = exchanges (shell (sys d))
        ∧ files d' = files d
        ∧ last (notices d') = Some (ReplayFailed (exn_str e)).
Proof.
  intros Hs Hm Hn Hparse Hread Hinv Hcheck.
  assert (Hex : exchanges (shell s1) = exchanges (shell (sys d))).
  { destruct (check_connection_availability_keeps (sys d) Hinv) as [(Hk & _) _].
    by rewrite Hcheck in Hk. }
  unfold do_replay. rewrite (replay_guard line Hs Hm Hn).
  unfold_session. cbn -[send_messages check_connection_availability].
  rewrite Hparse. cbn -[send_messages check_connection_availability].
  rewrite Hread. cbn -[send_messages check_connection_availability].
  rewrite Hcheck. cbn -[send_messages check_connection_availability].
  eexists. split; [reflexivity|]. cbn [sys files notices].
  split_and!; [done|done|]. by rewrite last_snoc.
Qed.

(** A line that [argparse] rejects, such as a count that is not a number,
    ends [do_replay] by [SystemExit], which [except Exception] does not
    catch: the shell stops, and the session is as it was.  What [argparse]
    itself writes before it exits is not part of the session. *)
Theorem do_replay_rejected_line (line : string) (d : Session) :
  PyStr.strip line ≠ "" →
  PyStr.contains "-m" line = true →
  PyStr.contains "-n" line = true →
  parse_replay_args (PyStr.split_char space line) = SystemExit →
  do_replay line d = (d, SystemExit).
Proof.
  intros Hs Hm Hn Hparse.
  unfold do_replay. rewrite (replay_guard line Hs Hm Hn).
  unfold_session. cbn -[send_messages check_connection_availability].
  rewrite Hparse. by destruct d.
Qed.

(** When the export file cannot be opened, the replay has already run: the
    store holds the new exchanges, the line that announces the saved file is
    printed before the failure, and no file is written. *)
Theorem do_replay_unwritable_export (line p message : string) (n : Z) (d : Session) s1 e :
  PyStr.strip line ≠ "" →
  PyStr.contains "-m" line = true →
  PyStr.contains "-n" line = true →
  parse_replay_args (PyStr.split_char space line)
  = Return (ReplayNamespace (Some p) (Some n)) →
  read_text p = Ok message →
  saved_parameters_parse (shell (sys d)) →
  check_connection_availability (sys d) = (s1, Return tt) →
  open_to_write "exchanges_replay.json" = Raise e →
  ∃ d' before,
    do_replay line d = (d', Return tt)
    ∧ (∀ idx, is_Some (exchanges (shell (sys d')) !! idx) ↔ idx < Z.to_nat n)
    ∧ files d' = files d
    ∧ notices d'
      = before ++ [ExchangesSaved "exchanges_replay.json"; ReplayFailed (exn_str e)].
Proof.
  intros Hs Hm Hn Hparse Hread Hinv Hcheck Hopen.
  assert (Hinv1 : saved_parameters_parse (shell s1)).
  { destruct (check_connection_availability_keeps (sys d) Hinv) as [(_ & Hk & _) _].
    rewrite Hcheck in Hk. by apply Hk. }
  destruct (send_messages_after_clear (repeat_message message n) s1 Hinv1)
    as (s2 & Esend & Hdense & Hreq).
  unfold state_after, put in Esend. cbn [fst] in Esend.
  unfold do_replay. rewrite (replay_guard line Hs Hm Hn).
  unfold_session. cbn -[send_messages check_connection_availability].
  rewrite Hparse. cbn -[send_messages check_connection_availability].
  rewrite Hread. cbn -[send_messages check_connection_availability].
  rewrite Hcheck. cbn -[send_messages check_connection_availability].
  rewrite Esend. cbn -[send_messages check_connection_availability].
  rewrite Hopen. cbn -[send_messages check_connection_availability].
  eexists _, _. split; [reflexivity|]. cbn [sys files notices].
  split_and!; [|done|].
  - intros idx. rewrite Hdense. unfold repeat_message. by rewrite length_replicate.
  - rewrite <- app_assoc. reflexivity.
Qed.

(** A fuzzing run records one exchange per binding of the payload
    combinator, in the order of the bindings: exchange [idx] has as its
    request the template substituted with binding [idx], whatever the store
    held before, and the file [exchanges_fuzzing.json] holds the export of
    this store. *)
Theorem do_fuzz_records (line p template : string) fs payloads (d : Session) s1 :
  PyStr.strip line ≠ "" →
  PyStr.contains "-m" line = true →
  PyStr.contains "-p" line = true →
  parse_fuzz_args (PyStr.split_char space line)
  = Return (FuzzNamespace (Some p) (Some fs)) →
  read_text p = Ok template →
  saved_parameters_parse (shell (sys d)) →
  check_connection_availability (sys d) = (s1, Return tt) →
  build_fuzzing_dicts readlines fs [] 1 = Ok payloads →
  open_to_write "exchanges_fuzzing.json" = Ok tt →
  ∃ d', do_fuzz line d = (d', Return tt)
        ∧ (∀ idx, is_Some (exchanges (shell (sys d')) !! idx) ↔ idx < length payloads)
        ∧ (∀ idx e, exchanges (shell (sys d')) !! idx = Some e →
             ∃ b, payloads !! idx = Some b ∧ REQUEST e = safe_substitute template b)
        ∧ files d'
          = <[ "exchanges_fuzzing.json"
               := store_exchanges_to_file (exchanges (shell (sys d'))) ]> (files d).
Proof.
  intros Hs Hm Hp Hparse Hread Hinv Hcheck Hbuild Hopen.
  assert (Hinv1 : saved_parameters_parse (shell s1)).
  { destruct (check_connection_availability_keeps (sys d) Hinv) as [(_ & Hk & _) _].
    rewrite Hcheck in Hk. by apply Hk. }
  destruct (send_messages_after_clear (safe_substitute template <$> payloads) s1 Hinv1)
    as (s2 & Esend & Hdense & Hreq).
  unfold state_after, put in Esend. cbn [fst] in Esend.
  unfold do_fuzz. rewrite (fuzz_guard line Hs Hm Hp).
  unfold_session.
  cbn -[send_messages check_connection_availability build_fuzzing_dicts].
  rewrite Hparse. cbn -[send_messages check_connection_availability build_fuzzing_dicts].
  rewrite Hread. cbn -[send_messages check_connection_availability build_fuzzing_dicts].
  rewrite Hcheck. cbn -[send_messages check_connection_availability build_fuzzing_dicts].
  rewrite Hbuild. cbn -[send_messages check_connection_availability build_fuzzing_dicts].
  rewrite Esend. cbn -[send_messages check_connection_availability build_fuzzing_dicts].
  rewrite Hopen. cbn -[send_messages check_connection_availability build_fuzzing_dicts].
  eexists. split; [reflexivity|]. cbn [sys files].
  split_and!; [|intros idx e He|done].
  - intros idx. rewrite Hdense. by rewrite length_fmap.
  - apply Hreq in He. apply list_lookup_fmap_Some in He as (b & Hb & ->).
    by exists b.
Qed.

(** A payload file that cannot be read stops the fuzzing run after the
    availability check and before the store is cleared: the exchanges of the
    run before are kept and no file is written. *)
Theorem do_fuzz_unreadable_payloads (line p template : string) fs (d : Session) s1 e :
  PyStr.strip line ≠ "" →
  PyStr.contains "-m" line = true →
  PyStr.contains "-p" line = true →
  parse_fuzz_args (PyStr.split_char space line)
  = Return (FuzzNamespace (Some p) (Some fs)) →
  read_text p = Ok template →
  saved_parameters_parse (shell (sys d)) →
  check_connection_availability (sys d) = (s1, Return tt) →
  build_fuzzing_dicts readlines fs [] 1 = Raise e →
  ∃ d', do_fuzz line d = (d', Return tt)
        ∧ exchanges (shell (sys d')) = exchanges (shell (sys d))
        ∧ files d' = files d
        ∧ last (notices d') = Some (FuzzingFailed (exn_str e)).
Proof.
  intros Hs Hm Hp Hparse Hread Hinv Hcheck Hbuild.
  assert (Hex : exchanges (shell s1) = exchanges (shell (sys d))).
  { destruct (check_connection_availability_keeps (sys d) Hinv) as [(Hk & _) _].
    by rewrite Hcheck in Hk. }
  unfold do_fuzz. rewrite (fuzz_guard line Hs Hm Hp).
  unfold_session.
  cbn -[send_messages check_connection_availability build_fuzzing_dicts].
  rewrite Hparse. cbn -[send_messages check_connection_availability build_fuzzing_dicts].
  rewrite Hread. cbn -[send_messages check_connection_availability build_fuzzing_dicts].
  rewrite Hcheck. cbn -[send_messages check_connection_availability build_fuzzing_dicts].
  rewrite Hbuild. cbn -[send_messages check_connection_availability build_fuzzing_dicts].
  eexists. split; [reflexivity|]. cbn [sys files notices].
  split_and!; [done|done|]. by rewrite last_snoc.
Qed.

End CommandProperties.
Lemma do_replay_records_witness :
  let d := connected_session echo_script in
  ∃ d', do_replay (Env := scripted echo_script) (Loc := example_local true)
          "-m message.txt -n 3" d = (d', Return tt)
        ∧ (∀ idx, is_Some (exchanges (shell (sys d')) !! idx) ↔ idx < Z.to_nat 3)
        ∧ (∀ idx e, exchanges (shell (sys d')) !! idx = Some e → REQUEST e = "ping")
        ∧ files d'
          = <[ "exchanges_replay.json"
               := store_exchanges_to_file (exchanges (shell (sys d'))) ]> (files d).
Proof.
  intros d.
  apply (do_replay_records (Env := scripted echo_script) (Loc := example_local true)
           "-m message.txt -n 3" "message.txt" "ping" 3 d
           (state_after (check_connection_availability (Env := scripted echo_script))
              (sys d))).
  - vm_compute. discriminate.
  - reflexivity.
  - reflexivity.
  - reflexivity.
  - reflexivity.
  - intros l Hl. vm_compute in Hl. injection Hl as <-. eexists. vm_compute. reflexivity.
  - vm_compute. reflexivity.
  - reflexivity.
Defined.

Lemma do_replay_unreadable_message_witness :
  let d := connected_session echo_script in
  do_replay (Env := scripted echo_script) (Loc := example_local true)
    "-m missing.txt -n 3" d
  = (MkSession (sys d) (files d)
       (notices d ++ [ReadingMessage]
        ++ [ReplayFailed "[Errno 2] No such file or directory"]),
     Return tt).
Proof.
  intros d.
  apply (do_replay_unreadable_message (Env := scripted echo_script)
           (Loc := example_local true) "-m missing.txt -n 3" "missing.txt" (Some 3%Z) d
           (Exn IOError "[Errno 2] No such file or directory")).
  - vm_compute. discriminate.
  - reflexivity.
  - reflexivity.
  - reflexivity.
  - reflexivity.
Defined.

Lemma do_replay_connection_lost_witness :
  let d := connected_session mute_script in
  ∃ d', do_replay (Env := scripted mute_script) (Loc := example_local true)
          "-m message.txt -n 3" d = (d', Return tt)
        ∧ exchanges (shell (sys d')) = exchanges (shell (sys d))
        ∧ files d' = files d
        ∧ last (notices d') = Some (ReplayFailed "Connection is already closed.").
Proof.
  intros d.
  apply (do_replay_connection_lost (Env := scripted mute_script)
           (Loc := example_local true) "-m message.txt -n 3" "message.txt" "ping"
           (Some 3%Z) d
           (state_after (check_connection_availability (Env := scripted mute_script))
              (sys d))
           (Exn WebSocketException "Connection is already closed.")).
  - vm_compute. discriminate.
  - reflexivity.
  - reflexivity.
  - reflexivity.
  - reflexivity.
  - intros l Hl. vm_compute in Hl. injection Hl as <-. eexists. vm_compute. reflexivity.
  - vm_compute. reflexivity.
Defined.

Lemma do_replay_rejected_line_witness :
  let d := connected_session echo_script in
  do_replay (Env := scripted echo_script) (Loc := example_local true)
    "-m message.txt -n many" d
  = (d, SystemExit).
Proof.
  intros d.
  apply (do_replay_rejected_line (Env := scripted echo_script)
           (Loc := example_local true) "-m message.txt -n many" d).
  - vm_compute. discriminate.
  - reflexivity.
  - reflexivity.
  - reflexivity.
Defined.

Lemma do_replay_unwritable_export_witness :
  let d := connected_session echo_script in
  ∃ d' before,
    do_replay (Env := scripted echo_script) (Loc := example_local false)
      "-m message.txt -n 3" d = (d', Return tt)
    ∧ (∀ idx, is_Some (exchanges (shell (sys d')) !! idx) ↔ idx < Z.to_nat 3)
    ∧ files d' = files d
    ∧ notices d'
      = before ++ [ExchangesSaved "exchanges_replay.json";
                   ReplayFailed "[Errno 13] Permission denied"].
Proof.
  intros d.
  apply (do_replay_unwritable_export (Env := scripted echo_script)
           (Loc := example_local false) "-m message.txt -n 3" "message.txt" "ping" 3 d
           (state_after (check_connection_availability (Env := scripted echo_script))
              (sys d))
           (Exn IOError "[Errno 13] Permission denied")).
  - vm_compute. discriminate.
  - reflexivity.
  - reflexivity.
  - reflexivity.
  - reflexivity.
  - intros l Hl. vm_compute in Hl. injection Hl as <-. eexists. vm_compute. reflexivity.
  - vm_compute. reflexivity.
  - reflexivity.
Defined.

Lemma do_fuzz_records_witness :
  let d := connected_session echo_script in
  let template := "Hello $payload_1 from $payload_2 !" in
  ∃ payloads d',
    build_fuzzing_dicts example_files ["letters.txt"; "digits.txt"] [] 1 = Ok payloads
    ∧ do_fuzz (Env := scripted echo_script) (Loc := example_local true)
        "-m template.txt -p letters.txt digits.txt" d = (d', Return tt)
    ∧ (∀ idx, is_Some (exchanges (shell (sys d')) !! idx) ↔ idx < length payloads)
    ∧ (∀ idx e, exchanges (shell (sys d')) !! idx = Some e →
         ∃ b, payloads !! idx = Some b ∧ REQUEST e = safe_substitute template b)
    ∧ files d'
      = <[ "exchanges_fuzzing.json"
           := store_exchanges_to_file (exchanges (shell (sys d'))) ]> (files d).
Proof.
  intros d template.
  destruct (build_fuzzing_dicts example_files ["letters.txt"; "digits.txt"] [] 1)
    as [payloads|e] eqn:Hbuild; [|vm_compute in Hbuild; discriminate].
  exists payloads.
  destruct (do_fuzz_records (Env := scripted echo_script) (Loc := example_local true)
              "-m template.txt -p letters.txt digits.txt" "template.txt" template
              ["letters.txt"; "digits.txt"] payloads d
              (state_after (check_connection_availability (Env := scripted echo_script))
                 (sys d)))
    as (d' & H); [| | | | | | |exact Hbuild| |exists d'; split; [reflexivity|exact H]].
  - vm_compute. discriminate.
  - reflexivity.
  - reflexivity.
  - reflexivity.
  - reflexivity.
  - intros l Hl. vm_compute in Hl. injection Hl as <-. eexists. vm_compute. reflexivity.
  - vm_compute. reflexivity.
  - reflexivity.
Defined.

Lemma do_fuzz_unreadable_payloads_witness :
  let d := connected_session echo_script in
  ∃ d', do_fuzz (Env := scripted echo_script) (Loc := example_local true)
          "-m template.txt -p letters.txt missing.txt" d = (d', Return tt)
        ∧ exchanges (shell (sys d')) = exchanges (shell (sys d))
        ∧ files d' = files d
        ∧ last (notices d') = Some (FuzzingFailed "No such file or directory").
Proof.
  intros d.
  apply (do_fuzz_unreadable_payloads (Env := scripted echo_script)
           (Loc := example_local true) "-m template.txt -p letters.txt missing.txt"
           "template.txt" "Hello $payload_1 from $payload_2 !"
           ["letters.txt"; "missing.txt"] d
           (state_after (check_connection_availability (Env := scripted echo_script))
              (sys d))
           (Exn IOError "No such file or directory")).
  - vm_compute. discriminate.
  - reflexivity.
  - reflexivity.
  - reflexivity.
  - reflexivity.
  - intros l Hl. vm_compute in Hl. injection Hl as <-. eexists. vm_compute. reflexivity.
  - vm_compute. reflexivity.
  - vm_compute. reflexivity.
Defined.

(** ** The command [search] *)

Lemma prefix_lower (a b : string) :
  String.prefix a b = true → String.prefix (PyStr.lower a) (PyStr.lower b) = true.
Proof.
  revert a. induction b as [|c b IH]; intros [|c' a]; simpl; try done.
  destruct (ascii_dec c' c) as [->|]; [|done].
  intros Hp. destruct (ascii_dec _ _); [by apply IH|done].
Qed.

Lemma contains_lower (a b : string) :
  PyStr.contains a b = true → PyStr.contains (PyStr.lower a) (PyStr.lower b) = true.
Proof.
  induction b as [|c b IH]; cbn [PyStr.contains PyStr.lower].
  - rewrite !orb_false_r. apply (prefix_lower a "").
  - intros [Hp|Hc]%orb_true_iff; apply orb_true_iff.
    + left. apply (prefix_lower a (String c b) Hp).
    + right. by apply IH.
Qed.

Lemma gather_word_keys k s d w :
  w ∈ (gather_word k s d).*1 ↔ w = k ∨ w ∈ d.*1.
Proof.
  induction d as [|[k' v] d IH]; simpl.
  - rewrite list_elem_of_singleton. split; [by left|]. intros [->|H]; [done|].
    by apply elem_of_nil in H.
  - destruct (String.eqb k k') eqn:E; simpl.
    + apply String.eqb_eq in E as ->. rewrite elem_of_cons. split.
      * intros [->|H]; [by left|right; by right].
      * intros [->|[->|H]]; [by left|by left|by right].
    + rewrite !elem_of_cons, IH. split.
      * intros [->|[->|H]]; [right; by left|by left|right; by right].
      * intros [->|[->|H]]; [right; by left|by left|right; by right].
Qed.

Lemma gather_word_NoDup k s d : NoDup d.*1 → NoDup (gather_word k s d).*1.
Proof.
  induction d as [|[k' v] d IH]; simpl; intros Hnd.
  - apply NoDup_singleton.
  - apply NoDup_cons in Hnd as [Hk' Hnd].
    destruct (String.eqb k k') eqn:E; simpl.
    + by apply NoDup_cons.
    + apply NoDup_cons. split; [|by apply IH].
      rewrite gather_word_keys. intros [->|H]; [|done].
      by rewrite String.eqb_refl in E.
Qed.

Section SearchProperties.
Context `{Env : Environment} `{Loc : Local}.

Lemma search_words_keys resp ci idx ws : ∀ found w,
  w ∈ (search_words resp ci idx ws found).*1
  ↔ w ∈ found.*1
    ∨ (w ∈ ws
       ∧ PyStr.contains (if ci then PyStr.lower (unquote w) else unquote w) resp = true).
Proof.
  induction ws as [|word ws IH]; intros found w; cbn [search_words].
  - split; [by left|]. intros [H|[H _]]; [done|]. by apply elem_of_nil in H.
  - rewrite IH, elem_of_cons.
    destruct (PyStr.contains _ resp) eqn:E.
    + rewrite gather_word_keys. split.
      * intros [[->|H]|[H1 H2]]; [right|left|right]; try done; split; auto.
      * intros [H|[[->|H1] H2]]; [left; by right|left; by left|right; done].
    + split.
      * intros [H|[H1 H2]]; [by left|right; split; auto].
      * intros [H|[[->|H1] H2]]; [by left|congruence|right; done].
Qed.

Lemma search_words_NoDup resp ci idx ws : ∀ found,
  NoDup found.*1 → NoDup (search_words resp ci idx ws found).*1.
Proof.
  induction ws as [|word ws IH]; intros found Hnd; cbn [search_words]; [done|].
  apply IH. destruct (PyStr.contains _ resp); [by apply gather_word_NoDup|done].
Qed.

Lemma search_exchanges_keys ex ci ws indices : ∀ found found' w,
  search_exchanges ex ci ws indices found = Ok found' →
  w ∈ found'.*1
  ↔ w ∈ found.*1
    ∨ (w ∈ ws ∧ ∃ idx e, idx ∈ indices ∧ ex !! idx = Some e
                         ∧ word_found ci w (RESPONSE e) = true).
Proof.
  induction indices as [|idx indices IH]; intros found found' w; cbn [search_exchanges].
  - intros [= <-]. split; [by left|]. intros [H|(_ & i & e & H & _)]; [done|].
    by apply elem_of_nil in H.
  - destruct (ex !! idx) as [e|] eqn:He; [|done]. intros Hrun.
    rewrite (IH _ _ _ Hrun), search_words_keys. unfold word_found. split.
    + intros [[H|[H1 H2]]|(H1 & i & e' & Hi & He' & H2)].
      * by left.
      * right. split; [done|]. exists idx, e. split_and!; [by left|done|done].
      * right. split; [done|]. exists i, e'. split_and!; [by right|done|done].
    + intros [H|(H1 & i & e' & Hi & He' & H2)]; [left; by left|].
      apply elem_of_cons in Hi as [->|Hi].
      * rewrite He in He'. injection He' as <-. left. right. done.
      * right. split; [done|]. by exists i, e'.
Qed.

Lemma search_exchanges_NoDup ex ci ws indices : ∀ found found',
  search_exchanges ex ci ws indices found = Ok found' →
  NoDup found.*1 → NoDup found'.*1.
Proof.
  induction indices as [|idx indices IH]; intros found found'; cbn [search_exchanges].
  - by intros [= <-].
  - destruct (ex !! idx) as [e|]; [|done]. intros Hrun Hnd.
    apply (IH _ _ Hrun). by apply search_words_NoDup.
Qed.

Lemma search_exchanges_dense ex ci ws indices : ∀ found,
  Forall (λ idx, is_Some (ex !! idx)) indices →
  ∃ found', search_exchanges ex ci ws indices found = Ok found'.
Proof.
  induction indices as [|idx indices IH]; intros found Hall; [by eexists|].
  apply Forall_cons in Hall as [[e He] Hall]. cbn [search_exchanges]. rewrite He.
  by apply IH.
Qed.

(** On a store whose indices are dense, as a bulk run leaves it, the search
    raises nothing and reports one row per word that occurs in some
    response: a word that occurs nowhere has no row, a word asked twice or
    found in several responses has one. *)
Theorem search_reports_found_words (ex : gmap nat Exchange) ci ws :
  (∀ idx, idx < size ex → is_Some (ex !! idx)) →
  ∃ found,
    search_exchanges ex ci ws (seq 0 (size ex)) [] = Ok found
    ∧ NoDup found.*1
    ∧ ∀ w, w ∈ found.*1
           ↔ w ∈ ws ∧ ∃ idx e, idx < size ex ∧ ex !! idx = Some e
                               ∧ word_found ci w (RESPONSE e) = true.
Proof.
  intros Hdense.
  destruct (search_exchanges_dense ex ci ws (seq 0 (size ex)) []) as [found Hrun].
  { apply Forall_forall. intros idx Hin%elem_of_seq. apply Hdense. lia. }
  exists found. split_and!; [done| |].
  - apply (search_exchanges_NoDup _ _ _ _ _ _ Hrun). apply NoDup_nil_2.
  - intros w. rewrite (search_exchanges_keys _ _ _ _ _ _ w Hrun). split.
    + intros [H|(H1 & i & e & Hi%elem_of_seq & He & H2)]; [by apply elem_of_nil in H|].
      split; [done|]. exists i, e. split_and!; [lia|done|done].
    + intros (H1 & i & e & Hi & He & H2). right. split; [done|].
      exists i, e. split_and!; [apply elem_of_seq; lia|done|done].
Qed.

(** On ASCII text the option [-i] never loses a word: when the responses and
    the decoded words are ASCII, every word the case-sensitive search reports
    is reported by the case-insensitive search of the same store.  The two
    first hypotheses keep the statement to the text on which [str.lower]
    works character by character, as [PyStr.lower] does. *)
Theorem search_case_insensitive_finds_more (ex : gmap nat Exchange) ws indices
    found found_i w :
  (∀ idx e, idx ∈ indices → ex !! idx = Some e →
            is_ascii_text (RESPONSE e) = true) →
  (∀ word, word ∈ ws → is_ascii_text (unquote word) = true) →
  search_exchanges ex false ws indices [] = Ok found →
  search_exchanges ex true ws indices [] = Ok found_i →
  w ∈ found.*1 → w ∈ found_i.*1.
Proof.
  intros _ _ Hrun Hrun_i.
  rewrite (search_exchanges_keys _ _ _ _ _ _ w Hrun),
    (search_exchanges_keys _ _ _ _ _ _ w Hrun_i).
  intros [H|(H1 & i & e & Hi & He & H2)]; [by left|]. right. split; [done|].
  exists i, e. split_and!; [done|done|]. unfold word_found in *.
  by apply contains_lower.
Qed.

(** [do_search] never touches the connection or the store: whatever the
    line, the engine state is as it was.  It returns, every exception caught
    and reported, unless [argparse] rejects the line: then [SystemExit]
    leaves the command, and with it the shell. *)
Theorem do_search_leaves_engine (line : string) (d : Session) :
  sys (state_after (do_search line) d) = sys d
  ∧ ((do_search line d).2 = Return tt
     ∨ ((do_search line d).2 = SystemExit
        ∧ parse_search_args (PyStr.split_char space line) = SystemExit)).
Proof.
  unfold state_after, do_search.
  destruct (String.eqb (PyStr.strip line) "" || negb (PyStr.contains "-w" line));
    [destruct d; split; [done | by left]|].
  unfold bind, ret, try_except, lift_result, lift_outcome, outcome_of_result,
    on_sys, note, write_file, get, Exception.
  cbn -[search_exchanges].
  destruct (size (exchanges (shell (sys d))) =? 0);
    [destruct d; split; [done | by left]|].
  cbn -[search_exchanges].
  destruct (parse_search_args _) as [args|e|] eqn:Hparse; cbn -[search_exchanges];
    [| destruct d; split; [done | by left] | destruct d; split; [done | by right]].
  destruct (words args) as [ws|]; cbn -[search_exchanges];
    [|destruct d; split; [done | by left]].
  destruct (search_exchanges _ _ _ _ _) as [found|]; cbn -[search_exchanges];
    [|destruct d; split; [done | by left]].
  destruct (open_to_write _) as [[]|]; cbn; destruct d; split; done || by left.
Qed.

End SearchProperties.
Lemma search_reports_found_words_witness :
  let ex := store_of_responses example_responses in
  let ws := ["hello%20world"; "SQLException"; "absent"; "SQLException"] in
  ∃ found,
    search_exchanges (Loc := example_local true) ex true ws (seq 0 (size ex)) []
    = Ok found
    ∧ NoDup found.*1
    ∧ ∀ w, w ∈ found.*1
           ↔ w ∈ ws ∧ ∃ idx e, idx < size ex ∧ ex !! idx = Some e
                               ∧ word_found (Loc := example_local true) true w
                                   (RESPONSE e) = true.
Proof.
  intros ex ws.
  apply (search_reports_found_words (Loc := example_local true) ex true ws).
  intros idx Hlt. vm_compute in Hlt.
  destruct idx as [|[|[|idx]]]; [vm_compute; eauto ..|lia].
Defined.

Lemma search_case_insensitive_finds_more_witness :
  let ex := store_of_responses example_responses in
  ∃ found_i,
    search_exchanges (Loc := example_local true) ex true ["Hello"; "SQLException"]
      (seq 0 (size ex)) []
    = Ok found_i
    ∧ "Hello" ∈ found_i.*1.
Proof.
  intros ex. eexists. split; [vm_compute; reflexivity|].
  eapply (search_case_insensitive_finds_more (Loc := example_local true) ex
            ["Hello"; "SQLException"] (seq 0 (size ex)) _ _ "Hello").
  - intros idx e Hin He. apply elem_of_seq in Hin. vm_compute in Hin.
    destruct idx as [|[|[|idx]]]; [| | |lia];
      vm_compute in He; injection He as <-; reflexivity.
  - intros word Hin.
    repeat (apply elem_of_cons in Hin as [->|Hin]; [reflexivity|]).
    by apply elem_of_nil in Hin.
  - vm_compute. reflexivity.
  - vm_compute. reflexivity.
  - simpl. left.
Defined.

(** ** The command [scan] *)

Lemma all_chars_impl (p q : ascii → bool) s :
  (∀ c, p c = true → q c = true) → all_chars p s = true → all_chars q s = true.
Proof.
  intros Hpq. induction s as [|c s IH]; [done|]. cbn [all_chars].
  intros [Hc Hs]%andb_prop. by rewrite (Hpq _ Hc), IH.
Qed.

Lemma all_chars_app p s t :
  all_chars p (s +:+ t) = all_chars p s && all_chars p t.
Proof.
  induction s as [|c s IH]; [done|].
  change (String c s +:+ t) with (String c (s +:+ t)). cbn [all_chars].
  by rewrite IH, andb_assoc.
Qed.

Lemma pretty_N_char_digit d : is_digit (pretty_N_char d) = true.
Proof. unfold pretty_N_char. repeat case_match; reflexivity. Qed.

Lemma pretty_N_char_value d : (d < 10)%N → digit_value (pretty_N_char d) = Z.of_N d.
Proof.
  intros Hd.
  assert (d = 0 ∨ d = 1 ∨ d = 2 ∨ d = 3 ∨ d = 4 ∨ d = 5 ∨ d = 6 ∨ d = 7 ∨ d = 8
          ∨ d = 9)%N as Hcases by lia.
  destruct Hcases as [->|[->|[->|[->|[->|[->|[->|[->|[->| ->]]]]]]]]]; reflexivity.
Qed.

Lemma pretty_N_go_digits x : ∀ s,
  all_chars is_digit s = true → all_chars is_digit (pretty_N_go x s) = true.
Proof.
  induction (N.lt_wf_0 x) as [x _ IH]; intros s Hs.
  destruct (decide (0 < x)%N) as [Hpos|Hzero].
  - rewrite pretty_N_go_step by done. apply IH.
    + apply N.div_lt; lia.
    + cbn [all_chars]. by rewrite pretty_N_char_digit.
  - assert (x = 0%N) as -> by lia. by rewrite pretty_N_go_0.
Qed.

Lemma pretty_nat_digits (n : nat) : all_chars is_digit (pretty n) = true.
Proof.
  unfold pretty, pretty_nat, pretty, pretty_N.
  destruct (decide _); [done|]. by apply pretty_N_go_digits.
Qed.

Lemma pretty_N_go_value x : ∀ s flag,
  int_digits (pretty_N_go x s) 0 flag
  = if decide (x = 0%N) then int_digits s 0 flag else int_digits s (Z.of_N x) true.
Proof.
  induction (N.lt_wf_0 x) as [x _ IH]; intros s flag.
  destruct (decide (x = 0%N)) as [->|Hx]; [by rewrite pretty_N_go_0|].
  rewrite pretty_N_go_step by lia. rewrite IH by (apply N.div_lt; lia).
  cbn [int_digits]. rewrite pretty_N_char_digit.
  rewrite pretty_N_char_value by (apply N.mod_lt; lia).
  destruct (decide _) as [Hq|Hq].
  - f_equal. pose proof (N.div_mod x 10). lia.
  - f_equal. pose proof (N.div_mod x 10). lia.
Qed.

Lemma int_digits_pretty (n : nat) : int_digits (pretty n) 0 false = Some (Z.of_nat n).
Proof.
  unfold pretty, pretty_nat, pretty, pretty_N.
  destruct (decide _) as [Hz|Hnz].
  - assert (n = 0) as -> by lia. reflexivity.
  - rewrite pretty_N_go_value. destruct (decide _); [done|].
    cbn [int_digits]. f_equal. lia.
Qed.

Lemma lstrip_by_keeps p s :
  all_chars (λ c, negb (p c)) s = true → PyStr.lstrip_by p s = s.
Proof.
  destruct s as [|c s]; [done|]. cbn [all_chars PyStr.lstrip_by].
  intros [Hc _]%andb_prop. apply negb_true_iff in Hc. by rewrite Hc.
Qed.

Lemma rstrip_by_keeps p s :
  all_chars (λ c, negb (p c)) s = true → PyStr.rstrip_by p s = s.
Proof.
  induction s as [|c s IH]; [done|]. cbn [all_chars PyStr.rstrip_by].
  intros [Hc Hs]%andb_prop. apply negb_true_iff in Hc. rewrite (IH Hs).
  destruct s; [by rewrite Hc|done].
Qed.

Lemma digit_first (c : ascii) (r : string) :
  is_digit c = true →
  match String c r with
  | String "-" r' => Z.opp <$> int_digits r' 0 false
  | String "+" r' => int_digits r' 0 false
  | _ => int_digits (String c r) 0 false
  end
  = int_digits (String c r) 0 false.
Proof.
  intros Hc.
  destruct c as [[] [] [] [] [] [] [] []]; try reflexivity; discriminate Hc.
Qed.

Lemma py_int_pretty (n : nat) : py_int (pretty n) = Some (Z.of_nat n).
Proof.
  unfold py_int.
  assert (Hsp : all_chars (λ c, negb (is_int_space c)) (pretty n) = true).
  { apply (all_chars_impl is_digit); [|apply pretty_nat_digits].
    intros c Hc. destruct c as [[] [] [] [] [] [] [] []]; try reflexivity;
      discriminate Hc. }
  rewrite (lstrip_by_keeps _ _ Hsp), (rstrip_by_keeps _ _ Hsp).
  pose proof (pretty_nat_digits n) as Hd. pose proof (int_digits_pretty n) as Hv.
  destruct (pretty n) as [|c r]; [discriminate Hv|].
  cbn [all_chars] in Hd. apply andb_prop in Hd as [Hc _].
  by rewrite (digit_first c r Hc).
Qed.

Lemma contains_char_absent ch s :
  all_chars (λ c, negb (Ascii.eqb c ch)) s = true →
  PyStr.contains (String ch "") s = false.
Proof.
  induction s as [|c s IH]; [done|]. cbn [all_chars PyStr.contains String.prefix].
  intros [Hc Hs]%andb_prop. rewrite (IH Hs), orb_false_r.
  destruct (ascii_dec ch c) as [->|]; [|done].
  by rewrite Ascii.eqb_refl in Hc.
Qed.

Lemma contains_char_present ch a b :
  PyStr.contains (String ch "") (a +:+ String ch b) = true.
Proof.
  induction a as [|c a IH].
  - change ("" +:+ String ch b) with (String ch b). cbn [PyStr.contains String.prefix].
    destruct (ascii_dec ch ch); [|done]. by destruct b.
  - change (String c a +:+ String ch b) with (String c (a +:+ String ch b)).
    cbn [PyStr.contains]. rewrite IH. apply orb_true_r.
Qed.

Lemma split_char_absent ch s :
  all_chars (λ c, negb (Ascii.eqb c ch)) s = true → PyStr.split_char ch s = [s].
Proof.
  induction s as [|c s IH]; [done|]. cbn [all_chars PyStr.split_char].
  intros [Hc Hs]%andb_prop. apply negb_true_iff in Hc. by rewrite Hc, (IH Hs).
Qed.

Lemma split_char_once ch a b :
  all_chars (λ c, negb (Ascii.eqb c ch)) a = true →
  all_chars (λ c, negb (Ascii.eqb c ch)) b = true →
  PyStr.split_char ch (a +:+ String ch b) = [a; b].
Proof.
  intros Ha Hb. induction a as [|c a IH].
  - change ("" +:+ String ch b) with (String ch b). cbn [PyStr.split_char].
    by rewrite Ascii.eqb_refl, (split_char_absent _ _ Hb).
  - change (String c a +:+ String ch b) with (String c (a +:+ String ch b)).
    cbn [all_chars] in Ha. apply andb_prop in Ha as [Hc Ha].
    apply negb_true_iff in Hc. cbn [PyStr.split_char]. by rewrite Hc, (IH Ha).
Qed.

Lemma digits_exclude ch s :
  is_digit ch = false →
  all_chars is_digit s = true → all_chars (λ c, negb (Ascii.eqb c ch)) s = true.
Proof.
  intros Hch. apply all_chars_impl. intros c Hc. apply negb_true_iff.
  destruct (Ascii.eqb c ch) eqn:E; [|done]. apply Ascii.eqb_eq in E as ->. congruence.
Qed.

(** A range of ports stops before its second number: [a-b] gives the ports
    from [a] to [b - 1], and no port at all when [b] is not above [a]. *)
Theorem ports_to_scan_range (start stop : nat) :
  ports_to_scan (pretty start +:+ "-" +:+ pretty stop)
  = Ok (pretty <$> seq start (stop - start)).
Proof.
  pose proof (pretty_nat_digits start) as Ha. pose proof (pretty_nat_digits stop) as Hb.
  set (a := pretty start) in *. set (b := pretty stop) in *.
  assert (Hall : ∀ p, (∀ c, is_digit c = true → p c = true) → p "-"%char = true →
                      all_chars p (a +:+ "-" +:+ b) = true).
  { intros p Hp Hdash. rewrite all_chars_app. change ("-" +:+ b) with (String "-" b).
    cbn [all_chars]. rewrite Hdash.
    by rewrite (all_chars_impl _ p _ Hp Ha), (all_chars_impl _ p _ Hp Hb). }
  unfold ports_to_scan.
  rewrite (contains_char_absent "," (a +:+ "-" +:+ b)).
  2:{ apply Hall; [|done]. intros c Hc.
      destruct c as [[] [] [] [] [] [] [] []]; try reflexivity; discriminate Hc. }
  change ("-" +:+ b) with (String "-" b).
  rewrite (contains_char_present "-" a b).
  assert (Hstrip : PyStr.strip (a +:+ String "-" b) = a +:+ String "-" b).
  { assert (Hws : all_chars (λ c, negb (PyStr.is_whitespace c)) (a +:+ "-" +:+ b) = true).
    { apply Hall; [|done]. intros c Hc.
      destruct c as [[] [] [] [] [] [] [] []]; try reflexivity; discriminate Hc. }
    change ("-" +:+ b) with (String "-" b) in Hws. unfold PyStr.strip.
    by rewrite (lstrip_by_keeps _ _ Hws), (rstrip_by_keeps _ _ Hws). }
  rewrite Hstrip.
  rewrite (split_char_once "-" a b) by (by apply digits_exclude).
  unfold int_of, a, b. rewrite !py_int_pretty. f_equal.
  unfold range_texts. replace (Z.to_nat (Z.of_nat stop - Z.of_nat start)) with (stop - start) by lia.
  replace (seq start (stop - start)) with (Nat.add start <$> seq 0 (stop - start))
    by (rewrite fmap_add_seq; f_equal; lia).
  rewrite <- list_fmap_compose.
  apply list_fmap_ext. intros _ i _. simpl.
  rewrite <- pretty_Z_of_nat. f_equal. lia.
Qed.

Section ScanProperties.
Context `{Env : Environment} `{Loc : Local}.

Lemma creates_of_app (cs1 cs2 : list call) :
  creates_of (cs1 ++ cs2) = creates_of cs1 ++ creates_of cs2.
Proof. induction cs1 as [|[] cs1 IH]; simpl; by rewrite ?IH. Qed.

Lemma ports_reported_app (ns1 ns2 : list notice) :
  ports_reported (ns1 ++ ns2) = ports_reported ns1 ++ ports_reported ns2.
Proof. induction ns1 as [|[] ns1 IH]; simpl; by rewrite ?IH. Qed.

Lemma scanned_refl (d : Session) : scanned d d [].
Proof.
  unfold scanned. rewrite app_nil_r. split_and!; [done..|].
  exists [], []. by rewrite !app_nil_r.
Qed.

Lemma scanned_trans (d1 d2 d3 : Session) added1 added2 :
  scanned d1 d2 added1 → scanned d2 d3 added2 → scanned d1 d3 (added1 ++ added2).
Proof.
  intros (Hc1 & Hs1 & Hf1 & cs1 & rep1 & Hcl1 & Hr1 & Hl1)
         (Hc2 & Hs2 & Hf2 & cs2 & rep2 & Hcl2 & Hr2 & Hl2).
  unfold scanned. rewrite Hc2, Hc1, Hs2, Hs1, Hf2, Hf1, app_assoc.
  split_and!; [done..|]. exists (cs1 ++ cs2), (rep1 ++ rep2).
  rewrite Hcl2, Hcl1, Hr2, Hr1, !app_assoc, !length_app. split_and!; [done|done|lia].
Qed.

Section Quiet.
Hypothesis create_raises : ∀ request w w' e,
  create_connection request w = (w', Raise e) → WebSocketException_or_IOError e = true.
Hypothesis close_raises : ∀ c w w' e,
  ws_close c w = (w', Raise e) → WebSocketException_or_IOError e = true.

Lemma scan_attempt_spec dm ps u port protocol (d : Session) :
  ∃ d', scan_attempt (ScanNamespace (Some dm) ps u) port protocol d = (d', Return tt)
        ∧ scanned d d' [scan_request (protocol +:+ dm +:+ ":" +:+ port +:+ u)].
Proof.
  unfold scan_attempt, scanned, library.
  unfold bind, ret, try_except, lift_result, lift_outcome, outcome_of_result,
    on_sys, note.
  cbn [domain uri sys files notices].
  set (request := scan_request (protocol +:+ dm +:+ ":" +:+ port +:+ u)).
  destruct (create_connection request (world (sys d))) as [w1 [c|e]] eqn:Ecreate.
  - cbn [sys files notices world shell calls output].
    destruct (ws_close c w1) as [w2 [[]|e]] eqn:Eclose.
    + eexists; split; [reflexivity|]. cbn [sys files notices shell calls].
      rewrite !creates_of_app, !closes_of_app, ports_reported_app, <- !app_assoc.
      cbn [creates_of closes_of ports_reported app]. rewrite ?app_nil_r.
      split_and!; [done..|]. by exists [c], [(port, protocol)].
    + cbn. rewrite (close_raises _ _ _ _ Eclose).
      eexists; split; [reflexivity|]. cbn [sys files notices shell calls].
      rewrite !creates_of_app, !closes_of_app, ports_reported_app, <- !app_assoc.
      cbn [creates_of closes_of ports_reported app]. rewrite ?app_nil_r.
      split_and!; [done..|]. by exists [c], [(port, protocol)].
  - cbn. rewrite (create_raises _ _ _ _ Ecreate).
    eexists; split; [reflexivity|]. cbn [sys files notices shell calls].
    rewrite creates_of_app, closes_of_app. cbn [creates_of closes_of].
    rewrite ?app_nil_r. split_and!; [done..|]. exists [], []. by rewrite !app_nil_r.
Qed.

Lemma scan_ports_spec dm ps u port_list : ∀ d : Session,
  ∃ d', scan_ports (ScanNamespace (Some dm) ps u) port_list d = (d', Return tt)
        ∧ scanned d d' (port_list ≫= scan_targets dm u).
Proof.
  induction port_list as [|port port_list IH]; intros d.
  - exists d. split; [reflexivity|]. apply scanned_refl.
  - cbn [scan_ports scan_protocols].
    destruct (scan_attempt_spec dm ps u port "ws://" d) as (d1 & E1 & H1).
    destruct (scan_attempt_spec dm ps u port "wss://" d1) as (d2 & E2 & H2).
    destruct (IH d2) as (d3 & E3 & H3).
    exists d3. split.
    + unfold bind, ret. by rewrite E1, E2, E3.
    + apply (scanned_trans d d1 d3 [_] (_ :: _) H1).
      apply (scanned_trans d1 d2 d3 [_] _ H2 H3).
Qed.

End Quiet.

(** When the open and close calls raise nothing but [WebSocketException]
    and [IOError], the scan tries every port with [ws://] and then with
    [wss://], whatever the first attempt gave, calls [close] once for each
    port it prints as available, and leaves the shell and the files as they
    were. *)
Theorem do_scan_tries_both_protocols (line dm ps u : string) port_list (d : Session) :
  PyStr.strip line ≠ "" →
  PyStr.contains "-t" line = true →
  PyStr.contains "-p" line = true →
  parse_scan_args (PyStr.split_char space line)
  = Return (ScanNamespace (Some dm) (Some ps) u) →
  ports_to_scan ps = Ok port_list →
  (∀ request w w' e,
     create_connection request w = (w', Raise e) →
     WebSocketException_or_IOError e = true) →
  (∀ c w w' e, ws_close c w = (w', Raise e) → WebSocketException_or_IOError e = true) →
  ∃ d', do_scan line d = (d', Return tt)
        ∧ scanned d d' (port_list ≫= scan_targets dm u).
Proof.
  intros Hs Ht Hp Hparse Hports Hcreate Hclose.
  unfold do_scan. apply String.eqb_neq in Hs. rewrite Hs, Ht, Hp. cbn [negb orb].
  set (d0 := MkSession (sys d) (files d) (notices d ++ [StartScanning (length port_list)])).
  destruct (scan_ports_spec Hcreate Hclose dm (Some ps) u port_list d0)
    as (d' & E & Hscan).
  exists d'. split.
  - unfold bind, try_except, lift_result, lift_outcome, outcome_of_result, note.
    rewrite Hparse. cbn [ports]. rewrite Hports. fold d0. by rewrite E.
  - destruct Hscan as (Hc & Hsh & Hf & cs & rep & Hcl & Hr & Hl).
    unfold scanned. split_and!; [done..|]. exists cs, rep. split_and!; [done| |done].
    rewrite Hr. unfold d0. cbn [notices]. rewrite ports_reported_app. cbn.
    by rewrite app_nil_r.
Qed.

End ScanProperties.

Lemma do_scan_tries_both_protocols_witness :
  let sc := one_connection_script in
  let d := @MkSession (scripted sc) (initial_sys sc) ∅ [] in
  ∃ d', do_scan (Env := scripted sc) (Loc := example_local true)
          "-t dvws.local -p 8000-8002" d = (d', Return tt)
        ∧ scanned d d' (["8000"; "8001"] ≫= scan_targets "dvws.local" "").
Proof.
  intros sc d.
  apply (do_scan_tries_both_protocols (Env := scripted sc) (Loc := example_local true)
           "-t dvws.local -p 8000-8002" "dvws.local" "8000-8002" ""
           ["8000"; "8001"] d).
  - vm_compute. discriminate.
  - reflexivity.
  - reflexivity.
  - reflexivity.
  - vm_compute. reflexivity.
  - intros request w w' e H. simpl in H.
    destruct (opened w =? 0); injection H as _ H; [discriminate H|].
    by rewrite <- H.
  - intros c w w' e H. simpl in H. injection H as _ H. discriminate H.
Defined.

